(** * FreeFileSync: status_handler_impl.h

    A shallow embedding of the progress-and-error reporting core of
    FreeFileSync (Source/base/status_handler_impl.h) and proofs about it:
    the lock-free statistics counters of [AsyncCallback] and their drain,
    the per-thread status registry, the main/worker request channel, the
    scoped [ItemStatReporter], the [PercentStatReporter], the retry wrapper
    [tryReportingError] and the entry guard of [massParallelExecute]. *)

From stdpp Require Import gmap strings list sorting pretty.
From Stdlib Require Import ZArith QArith Lia Ascii.

Local Open Scope Z_scope.

(** ** Machine integers

    [int] is 32 bits, [int64_t] is 64 bits, both two's complement.  A value
    is kept as a [Z]; every arithmetic result is brought back into range by
    [wrap].  For [std::atomic] this is the behaviour the language defines;
    for the plain [int] members of [ItemStatReporter] it is what the
    supported targets do. *)

Module MachineInt.

(** [wrap half z]: the representative of [z] modulo [2 * half] in
    [-half, half). *)
Definition wrap (half z : Z) : Z := (z + half) mod (2 * half) - half.

Definition INT_HALF : Z := 2 ^ 31.
Definition INT64_HALF : Z := 2 ^ 63.
Definition SIZE_MOD : Z := 2 ^ 64.

Definition int32 (z : Z) : Z := wrap INT_HALF z.
Definition int64 (z : Z) : Z := wrap INT64_HALF z.
(** [size_t] arithmetic is modulo 2^64. *)
Definition size_t (z : Z) : Z := z mod SIZE_MOD.

Definition in_range (half z : Z) : Prop := - half <= z < half.
Definition is_int32 (z : Z) : Prop := in_range INT_HALF z.
Definition is_int64 (z : Z) : Prop := in_range INT64_HALF z.

End MachineInt.
Import MachineInt.

(** ** Data model *)

(** [std::thread::id]: an opaque identity; only equality is used. *)
Definition ThreadId : Type := nat.

(** [std::wstring]; the code only stores, compares with empty and
    concatenates. *)
Definition wstring : Type := string.

Module PhaseCallback.

(** Modelled from the spec: [PhaseCallback::ErrorInfo] and
    [PhaseCallback::Response] are declared in process_callback.h, not in
    this header.  The spec gives
    [ErrorInfo = { message, timestamp, retry_number }] and
    [Response] as one of [ignore], [retry]; the initializer list and the
    [switch] in [tryReportingError] use exactly these. *)
Record ErrorInfo : Type := MkErrorInfo {
  msg : wstring;
  time : Z;          (* steady_clock::time_point, in nanoseconds *)
  retryNumber : Z;   (* size_t *)
}.

Inductive Response : Type := ignore | retry.

(** One invocation of an operation of the external phase callback.  The
    observer itself lives outside this core; what the core does to it is
    the sequence of calls it makes, so a [PhaseCallback&] is modelled by
    the log of calls received so far (oldest first). *)
Inductive Call : Type :=
| UpdateDataProcessed (itemsDelta bytesDelta : Z)
| UpdateDataTotal (itemsDelta bytesDelta : Z)
| UpdateStatus (m : wstring)
| LogInfo (m : wstring)
| ReportError (e : ErrorInfo).

Definition Log : Type := list Call.

End PhaseCallback.

Record ThreadStatus : Type := MkThreadStatus {
  threadId : ThreadId;
  statusMsg : wstring;
}.

(** The members of [class AsyncCallback].  The mutexes and condition
    variables carry no data; the request channel and the registry are each
    only touched inside their own critical section. *)
Record AsyncCallback : Type := MkAsyncCallback {
  errorRequest_ : option PhaseCallback.ErrorInfo;
  errorResponse_ : option PhaseCallback.Response;
  logInfoRequest_ : option wstring;
  finishNowRequest_ : bool;
  statusByPriority_ : list (list ThreadStatus);
  itemsDeltaProcessed_ : Z;   (* std::atomic<int>     *)
  bytesDeltaProcessed_ : Z;   (* std::atomic<int64_t> *)
  itemsDeltaTotal_ : Z;       (* std::atomic<int>     *)
  bytesDeltaTotal_ : Z;       (* std::atomic<int64_t> *)
}.

(** [AsyncCallback() {}] with the default member initializers. *)
Definition AsyncCallback_new : AsyncCallback :=
  {| errorRequest_ := None; errorResponse_ := None; logInfoRequest_ := None;
     finishNowRequest_ := false; statusByPriority_ := [];
     itemsDeltaProcessed_ := 0; bytesDeltaProcessed_ := 0;
     itemsDeltaTotal_ := 0; bytesDeltaTotal_ := 0 |}.

Definition set_deltaProcessed (i b : Z) (acb : AsyncCallback) : AsyncCallback :=
  {| errorRequest_ := errorRequest_ acb; errorResponse_ := errorResponse_ acb;
     logInfoRequest_ := logInfoRequest_ acb; finishNowRequest_ := finishNowRequest_ acb;
     statusByPriority_ := statusByPriority_ acb;
     itemsDeltaProcessed_ := i; bytesDeltaProcessed_ := b;
     itemsDeltaTotal_ := itemsDeltaTotal_ acb; bytesDeltaTotal_ := bytesDeltaTotal_ acb |}.

Definition set_deltaTotal (i b : Z) (acb : AsyncCallback) : AsyncCallback :=
  {| errorRequest_ := errorRequest_ acb; errorResponse_ := errorResponse_ acb;
     logInfoRequest_ := logInfoRequest_ acb; finishNowRequest_ := finishNowRequest_ acb;
     statusByPriority_ := statusByPriority_ acb;
     itemsDeltaProcessed_ := itemsDeltaProcessed_ acb;
     bytesDeltaProcessed_ := bytesDeltaProcessed_ acb;
     itemsDeltaTotal_ := i; bytesDeltaTotal_ := b |}.

Definition set_statusByPriority (sbp : list (list ThreadStatus)) (acb : AsyncCallback)
  : AsyncCallback :=
  {| errorRequest_ := errorRequest_ acb; errorResponse_ := errorResponse_ acb;
     logInfoRequest_ := logInfoRequest_ acb; finishNowRequest_ := finishNowRequest_ acb;
     statusByPriority_ := sbp;
     itemsDeltaProcessed_ := itemsDeltaProcessed_ acb;
     bytesDeltaProcessed_ := bytesDeltaProcessed_ acb;
     itemsDeltaTotal_ := itemsDeltaTotal_ acb; bytesDeltaTotal_ := bytesDeltaTotal_ acb |}.

Definition set_requests (req : option PhaseCallback.ErrorInfo)
    (resp : option PhaseCallback.Response) (info : option wstring) (fin : bool)
    (acb : AsyncCallback) : AsyncCallback :=
  {| errorRequest_ := req; errorResponse_ := resp;
     logInfoRequest_ := info; finishNowRequest_ := fin;
     statusByPriority_ := statusByPriority_ acb;
     itemsDeltaProcessed_ := itemsDeltaProcessed_ acb;
     bytesDeltaProcessed_ := bytesDeltaProcessed_ acb;
     itemsDeltaTotal_ := itemsDeltaTotal_ acb; bytesDeltaTotal_ := bytesDeltaTotal_ acb |}.

(** ** Statistics callbacks

    [ItemStatReporter] is a template over its [Callback], and
    [AsyncCallback::reportStats] forwards to a [PhaseCallback]; both only
    need the two statistics operations.  Neither operation can fail
    ([noexcept]). *)
Class StatCallback (C : Type) : Type := {
  updateDataProcessed : Z -> Z -> C -> C;
  updateDataTotal : Z -> Z -> C -> C;
}.

(** [AsyncCallback::updateDataProcessed] / [updateDataTotal]: an atomic
    [+=] on each of the two counters. *)
Definition AsyncCallback_updateDataProcessed (itemsDelta bytesDelta : Z)
    (acb : AsyncCallback) : AsyncCallback :=
  set_deltaProcessed (int32 (itemsDeltaProcessed_ acb + itemsDelta))
                     (int64 (bytesDeltaProcessed_ acb + bytesDelta)) acb.

Definition AsyncCallback_updateDataTotal (itemsDelta bytesDelta : Z)
    (acb : AsyncCallback) : AsyncCallback :=
  set_deltaTotal (int32 (itemsDeltaTotal_ acb + itemsDelta))
                 (int64 (bytesDeltaTotal_ acb + bytesDelta)) acb.

#[export] Instance AsyncCallback_stat : StatCallback AsyncCallback :=
  {| updateDataProcessed := AsyncCallback_updateDataProcessed;
     updateDataTotal := AsyncCallback_updateDataTotal |}.

(** The external phase callback records the call. *)
#[export] Instance PhaseCallback_stat : StatCallback PhaseCallback.Log :=
  {| updateDataProcessed i b log := log ++ [PhaseCallback.UpdateDataProcessed i b];
     updateDataTotal i b log := log ++ [PhaseCallback.UpdateDataTotal i b] |}.

(** [AsyncCallback::reportStats], main thread.  Each pair of counters is
    read, and when one of the two is not zero the negation of what was read
    is added back through the worker-side operation and the value read is
    handed to [cb]. *)
Definition reportStats {C : Type} `{StatCallback C} (cb : C) (acb : AsyncCallback)
  : AsyncCallback * C :=
  let deltaProcessed := (itemsDeltaProcessed_ acb, bytesDeltaProcessed_ acb) in
  let '(acb, cb) :=
    if negb (deltaProcessed.1 =? 0) || negb (deltaProcessed.2 =? 0)
    then (updateDataProcessed (int32 (- deltaProcessed.1)) (int64 (- deltaProcessed.2)) acb,
          updateDataProcessed deltaProcessed.1 deltaProcessed.2 cb)
    else (acb, cb) in
  let deltaTotal := (itemsDeltaTotal_ acb, bytesDeltaTotal_ acb) in
  if negb (deltaTotal.1 =? 0) || negb (deltaTotal.2 =? 0)
  then (updateDataTotal (int32 (- deltaTotal.1)) (int64 (- deltaTotal.2)) acb,
        updateDataTotal deltaTotal.1 deltaTotal.2 cb)
  else (acb, cb).

(** Calls arriving from worker threads. *)
Inductive WorkerCall : Type :=
| WorkerProcessed (itemsDelta bytesDelta : Z)
| WorkerTotal (itemsDelta bytesDelta : Z).

Definition workerCall (c : WorkerCall) (acb : AsyncCallback) : AsyncCallback :=
  match c with
  | WorkerProcessed i b => updateDataProcessed i b acb
  | WorkerTotal i b => updateDataTotal i b acb
  end.

Fixpoint workerCalls (cs : list WorkerCall) (acb : AsyncCallback) : AsyncCallback :=
  match cs with
  | [] => acb
  | c :: cs => workerCalls cs (workerCall c acb)
  end.

(** The same drain with worker calls landing between each read and the
    add that follows it: [between1] after the processed pair was read,
    [between2] after the total pair was read. *)
Definition reportStats_racing {C : Type} `{StatCallback C}
    (between1 between2 : list WorkerCall) (cb : C) (acb : AsyncCallback)
  : AsyncCallback * C :=
  let deltaProcessed := (itemsDeltaProcessed_ acb, bytesDeltaProcessed_ acb) in
  let acb := workerCalls between1 acb in
  let '(acb, cb) :=
    if negb (deltaProcessed.1 =? 0) || negb (deltaProcessed.2 =? 0)
    then (updateDataProcessed (int32 (- deltaProcessed.1)) (int64 (- deltaProcessed.2)) acb,
          updateDataProcessed deltaProcessed.1 deltaProcessed.2 cb)
    else (acb, cb) in
  let deltaTotal := (itemsDeltaTotal_ acb, bytesDeltaTotal_ acb) in
  let acb := workerCalls between2 acb in
  if negb (deltaTotal.1 =? 0) || negb (deltaTotal.2 =? 0)
  then (updateDataTotal (int32 (- deltaTotal.1)) (int64 (- deltaTotal.2)) acb,
        updateDataTotal deltaTotal.1 deltaTotal.2 cb)
  else (acb, cb).

(** What a list of worker calls posts, per counter, as plain integers. *)
Fixpoint postedProcessed (cs : list WorkerCall) : Z * Z :=
  match cs with
  | [] => (0, 0)
  | WorkerProcessed i b :: cs => (i + (postedProcessed cs).1, b + (postedProcessed cs).2)
  | WorkerTotal _ _ :: cs => postedProcessed cs
  end.

Fixpoint postedTotal (cs : list WorkerCall) : Z * Z :=
  match cs with
  | [] => (0, 0)
  | WorkerProcessed _ _ :: cs => postedTotal cs
  | WorkerTotal i b :: cs => (i + (postedTotal cs).1, b + (postedTotal cs).2)
  end.

(** What the external callback was handed, per counter. *)
Fixpoint forwardedProcessed (log : PhaseCallback.Log) : Z * Z :=
  match log with
  | [] => (0, 0)
  | PhaseCallback.UpdateDataProcessed i b :: log =>
      (i + (forwardedProcessed log).1, b + (forwardedProcessed log).2)
  | _ :: log => forwardedProcessed log
  end.

Fixpoint forwardedTotal (log : PhaseCallback.Log) : Z * Z :=
  match log with
  | [] => (0, 0)
  | PhaseCallback.UpdateDataTotal i b :: log =>
      (i + (forwardedTotal log).1, b + (forwardedTotal log).2)
  | _ :: log => forwardedTotal log
  end.

(** The drain of a pair of counters holding (i, b): nothing when both are
    zero, one call carrying both otherwise. *)
Definition drainedCalls (mk : Z -> Z -> PhaseCallback.Call) (i b : Z) : PhaseCallback.Log :=
  if (i =? 0) && (b =? 0) then [] else [mk i b].

(** Every counter holds a value of its type. *)
Definition counters_in_range (acb : AsyncCallback) : Prop :=
  is_int32 (itemsDeltaProcessed_ acb) /\ is_int64 (bytesDeltaProcessed_ acb) /\
  is_int32 (itemsDeltaTotal_ acb) /\ is_int64 (bytesDeltaTotal_ acb).


(** ** ItemStatReporter

    [template <class Callback> class ItemStatReporter]: statistics of one
    item of work.  The reference [cb_] is passed in and out explicitly;
    [std::uncaught_exceptions()] is an input of the constructor and of the
    destructor. *)
Record ItemStatReporter : Type := MkItemStatReporter {
  itemsReported_ : Z;    (* int,     = 0 *)
  bytesReported_ : Z;    (* int64_t, = 0 *)
  itemsExpected_ : Z;    (* const int     *)
  bytesExpected_ : Z;    (* const int64_t *)
  exeptionCount_ : Z;    (* const int, spelled as in the source *)
}.

Definition ItemStatReporter_new (itemsExpected bytesExpected : Z)
    (uncaught_exceptions : Z) : ItemStatReporter :=
  {| itemsReported_ := 0; bytesReported_ := 0;
     itemsExpected_ := itemsExpected; bytesExpected_ := bytesExpected;
     exeptionCount_ := uncaught_exceptions |}.

Definition set_reported (i b : Z) (r : ItemStatReporter) : ItemStatReporter :=
  {| itemsReported_ := i; bytesReported_ := b;
     itemsExpected_ := itemsExpected_ r; bytesExpected_ := bytesExpected_ r;
     exeptionCount_ := exeptionCount_ r |}.

Section ItemStatReporter.
Context {Callback : Type} `{StatCallback Callback}.

(** [~ItemStatReporter()]. *)
Definition ItemStatReporter_destroy (uncaught_exceptions : Z)
    (r : ItemStatReporter) (cb : Callback) : Callback :=
  let scopeFail := exeptionCount_ r <? uncaught_exceptions in
  if scopeFail
  then updateDataTotal (itemsReported_ r) (bytesReported_ r) cb
  else updateDataTotal (int32 (itemsReported_ r - itemsExpected_ r))
                       (int64 (bytesReported_ r - bytesExpected_ r)) cb.

(** [ItemStatReporter::reportDelta]. *)
Definition reportDelta (itemsDelta bytesDelta : Z)
    (r : ItemStatReporter) (cb : Callback) : ItemStatReporter * Callback :=
  let cb := updateDataProcessed itemsDelta bytesDelta cb in
  let itemsReported := int32 (itemsReported_ r + itemsDelta) in
  let bytesReported := int64 (bytesReported_ r + bytesDelta) in
  let '(itemsReported, cb) :=
    if itemsExpected_ r <? itemsReported
    then (itemsExpected_ r,
          updateDataTotal (int32 (itemsReported - itemsExpected_ r)) 0 cb)
    else (itemsReported, cb) in
  let '(bytesReported, cb) :=
    if bytesExpected_ r <? bytesReported
    then (bytesExpected_ r,
          updateDataTotal 0 (int64 (bytesReported - bytesExpected_ r)) cb)
    else (bytesReported, cb) in
  (set_reported itemsReported bytesReported r, cb).

(** [getBytesReported] / [getBytesExpected]. *)
Definition getBytesReported (r : ItemStatReporter) : Z := bytesReported_ r.
Definition getBytesExpected (r : ItemStatReporter) : Z := bytesExpected_ r.

(** A run of [reportDelta] calls, in order. *)
Fixpoint reportDeltas (deltas : list (Z * Z))
    (r : ItemStatReporter) (cb : Callback) : ItemStatReporter * Callback :=
  match deltas with
  | [] => (r, cb)
  | (i, b) :: deltas =>
      let '(r, cb) := reportDelta i b r cb in reportDeltas deltas r cb
  end.

(** The life of one reporter: constructed with the expected amounts while
    [exc0] exceptions are in flight, [deltas] reported, destroyed while
    [exc1] are.  The result is the callback afterwards. *)
Definition itemScope (itemsExpected bytesExpected : Z) (deltas : list (Z * Z))
    (exc0 exc1 : Z) (cb : Callback) : Callback :=
  let r := ItemStatReporter_new itemsExpected bytesExpected exc0 in
  let '(r, cb) := reportDeltas deltas r cb in
  ItemStatReporter_destroy exc1 r cb.

End ItemStatReporter.

(** The cumulative amount a list of deltas reports. *)
Fixpoint reportedSum (deltas : list (Z * Z)) : Z * Z :=
  match deltas with
  | [] => (0, 0)
  | (i, b) :: deltas => (i + (reportedSum deltas).1, b + (reportedSum deltas).2)
  end.

(** ** Per-thread status registry *)

Definition wstring_empty (s : wstring) : bool :=
  match s with
  | EmptyString => true
  | String _ _ => false
  end.

Definition bucket_empty (sbp : list ThreadStatus) : bool :=
  match sbp with
  | [] => true
  | _ :: _ => false
  end.

(** [AsyncCallback::notifyTaskBegin], called by worker thread [tid]:
    the vector of buckets is resized to hold index [prio], and a status
    entry with an empty message is pushed to the back of that bucket. *)
Definition notifyTaskBegin (tid : ThreadId) (prio : nat) (acb : AsyncCallback)
  : AsyncCallback :=
  let sbp := statusByPriority_ acb in
  let sbp := if (length sbp <? prio + 1)%nat
             then sbp ++ replicate (prio + 1 - length sbp)%nat []
             else sbp in
  set_statusByPriority (alter (fun b => b ++ [MkThreadStatus tid EmptyString]) prio sbp) acb.

(** The loop of [getCurrentStatus] that looks for a message inside one
    bucket: the first entry whose message is not empty ends the search. *)
Fixpoint firstStatusMsg (sbp : list ThreadStatus) : option wstring :=
  match sbp with
  | [] => None
  | ts :: sbp =>
      if negb (wstring_empty (statusMsg ts)) then Some (statusMsg ts)
      else firstStatusMsg sbp
  end.

(** The outer loop, over the buckets in index order; the empty string when
    every loop runs to its end. *)
Fixpoint firstStatusMsgByPriority (buckets : list (list ThreadStatus)) : wstring :=
  match buckets with
  | [] => EmptyString
  | sbp :: buckets =>
      match firstStatusMsg sbp with
      | Some m => m
      | None => firstStatusMsgByPriority buckets
      end
  end.

(** [for (const auto& sbp : statusByPriority_) parallelOpsTotal += sbp.empty() ? 0 : 1;] *)
Definition countParallelOps (buckets : list (list ThreadStatus)) : nat :=
  fold_left (fun parallelOpsTotal sbp =>
               (parallelOpsTotal + if bucket_empty sbp then 0 else 1)%nat)
            buckets 0%nat.

Section GetCurrentStatus.

(** The translation macro [_P(singular, plural, n)] belongs to zen/i18n.h,
    not to this header; it is a parameter. *)
Variable translate_P : wstring -> wstring -> nat -> wstring.

(** The marker put in front of the message when several buckets are
    active. *)
Definition threadsMarker (parallelOpsTotal : nat) : wstring :=
  String "["%char (translate_P "1 thread" "%x threads" parallelOpsTotal +:+ "] ").

(** [AsyncCallback::getCurrentStatus], main thread. *)
Definition getCurrentStatus (acb : AsyncCallback) : wstring :=
  let parallelOpsTotal := countParallelOps (statusByPriority_ acb) in
  let statusMsg := firstStatusMsgByPriority (statusByPriority_ acb) in
  if (2 <=? parallelOpsTotal)%nat
  then threadsMarker parallelOpsTotal +:+ statusMsg
  else statusMsg.

End GetCurrentStatus.

(** The spec's words for the two quantities: the number of non-empty
    buckets, and the first non-empty message met when the buckets are
    scanned in priority order. *)
Definition parallel_ops (buckets : list (list ThreadStatus)) : nat :=
  length (filter (fun sbp => bucket_empty sbp = false) buckets).

Definition first_nonempty_message (buckets : list (list ThreadStatus)) : wstring :=
  match List.find (fun ts => negb (wstring_empty (statusMsg ts))) (concat buckets) with
  | Some ts => statusMsg ts
  | None => EmptyString
  end.

(** [replace_x digits s]: [s] with its first [%x] replaced by [digits]. *)
Fixpoint replace_x (digits s : string) : string :=
  match s with
  | EmptyString => EmptyString
  | String "%"%char (String "x"%char rest) => digits +:+ rest
  | String c rest => String c (replace_x digits rest)
  end.

(** Modelled from the spec: the translation macro [_P], for running
    examples.  The spec shows the marker as "[N threads] "; the stand-in
    is the untranslated English text: the singular for 1, otherwise the
    plural with [%x] replaced by the number in decimal. *)
Definition translate_en (singular plural : wstring) (n : nat) : wstring :=
  if (n =? 1)%nat then singular else replace_x (pretty.pretty n) plural.

(** ** Retry wrapper *)

(** How a call of the command ends: it returns, it throws a
    [zen::FileError] (kept as its [toString()]), or it throws something
    else. *)
Inductive CmdOutcome (X : Type) : Type :=
| CmdReturned
| CmdFileError (e : wstring)
| CmdThrew (x : X).
Arguments CmdReturned {X}.
Arguments CmdFileError {X} e.
Arguments CmdThrew {X} x.

(** How a call of [cb.reportError] ends. *)
Inductive CbOutcome (X : Type) : Type :=
| CbResponse (r : PhaseCallback.Response)
| CbThrew (x : X).
Arguments CbResponse {X} r.
Arguments CbThrew {X} x.

(** How [tryReportingError] ends. *)
Inductive TryOutcome (X : Type) : Type :=
| Returned (s : wstring)
| Threw (x : X).
Arguments Returned {X} s.
Arguments Threw {X} x.

Section TryReportingError.

(** [W] is everything the command, the clock and the callback can read
    and change; [X] the exceptions that are not [FileError]. *)
Context {W X : Type}.
Variable cmd : W -> CmdOutcome X * W.
Variable now : W -> Z * W.
Variable reportError : PhaseCallback.ErrorInfo -> W -> CbOutcome X * W.

(** The [for (size_t retryNumber = 0;; ++retryNumber)] loop.  It has no
    bound of its own; [fuel] bounds the number of iterations run, and
    [None] means the bound was reached. *)
Fixpoint tryReportingError_from (fuel : nat) (retryNumber : Z) (w : W)
  : option (TryOutcome X * W) :=
  match fuel with
  | O => None
  | S fuel =>
      match cmd w with
      | (CmdReturned, w) => Some (Returned EmptyString, w)
      | (CmdThrew x, w) => Some (Threw x, w)
      | (CmdFileError e, w) =>
          let '(t, w) := now w in
          match reportError (PhaseCallback.MkErrorInfo e t retryNumber) w with
          | (CbResponse PhaseCallback.ignore, w) => Some (Returned e, w)
          | (CbResponse PhaseCallback.retry, w) =>
              tryReportingError_from fuel (size_t (retryNumber + 1)) w
          | (CbThrew x, w) => Some (Threw x, w)
          end
      end
  end.

Definition tryReportingError (fuel : nat) (w : W) : option (TryOutcome X * W) :=
  tryReportingError_from fuel 0 w.

End TryReportingError.

(** *** A scripted environment

    The command and the callback are black boxes.  What they do in a run
    is fixed by what each of their calls yields; the environment below
    plays such a script and records every call made. *)
Record Script (X : Type) : Type := MkScript {
  cmdScript : nat -> CmdOutcome X;                            (* k-th call of cmd *)
  clockScript : nat -> Z;                                     (* k-th reading of the clock *)
  cbScript : nat -> PhaseCallback.ErrorInfo -> CbOutcome X;   (* k-th call of reportError *)
}.
Arguments MkScript {X}.
Arguments cmdScript {X}.
Arguments clockScript {X}.
Arguments cbScript {X}.

Record Env : Type := MkEnv {
  cmdCalls : nat;                               (* calls of cmd so far *)
  clockReads : nat;                             (* readings of the clock so far *)
  errorsReported : list PhaseCallback.ErrorInfo; (* arguments of reportError, oldest first *)
}.

Definition Env_new : Env := MkEnv 0 0 [].

Definition scripted_cmd {X : Type} (s : Script X) (w : Env) : CmdOutcome X * Env :=
  (cmdScript s (cmdCalls w),
   MkEnv (S (cmdCalls w)) (clockReads w) (errorsReported w)).

Definition scripted_now {X : Type} (s : Script X) (w : Env) : Z * Env :=
  (clockScript s (clockReads w),
   MkEnv (cmdCalls w) (S (clockReads w)) (errorsReported w)).

Definition scripted_reportError {X : Type} (s : Script X)
    (info : PhaseCallback.ErrorInfo) (w : Env) : CbOutcome X * Env :=
  (cbScript s (length (errorsReported w)) info,
   MkEnv (cmdCalls w) (clockReads w) (errorsReported w ++ [info])).

Definition tryReportingError_scripted {X : Type} (s : Script X) (fuel : nat)
  : option (TryOutcome X * Env) :=
  tryReportingError (scripted_cmd s) (scripted_now s) (scripted_reportError s) fuel Env_new.

(** The error the script's [k]-th failure is reported with: the message
    of the [k]-th [FileError], the [k]-th clock reading, and [k] as a
    [size_t]. *)
Definition errorInfoAt {X : Type} (s : Script X) (k : nat) : PhaseCallback.ErrorInfo :=
  PhaseCallback.MkErrorInfo
    (match cmdScript s k with CmdFileError e => e | _ => EmptyString end)
    (clockScript s k)
    (size_t (Z.of_nat k)).

(** The [k]-th call of the command fails with a [FileError] and the
    callback answers [retry]. *)
Definition retriedAt {X : Type} (s : Script X) (k : nat) : Prop :=
  (exists e, cmdScript s k = CmdFileError e) /\
  cbScript s k (errorInfoAt s k) = CbResponse PhaseCallback.retry.

(** The errors reported by the first [n] failures of a script. *)
Definition errorsUpTo {X : Type} (s : Script X) (n : nat) : list PhaseCallback.ErrorInfo :=
  map (errorInfoAt s) (seq 0 n).

(** Scenario S2 of the spec as a script: the command fails twice with the
    message "X" and then succeeds; the callback always answers [retry]. *)
Definition script_S2 : Script string :=
  MkScript (fun k => if (k <? 2)%nat then CmdFileError "X" else CmdReturned)
           (fun k => 1000 + Z.of_nat k)
           (fun _ _ => CbResponse PhaseCallback.retry).

(** Scenario S3: the command fails with "X" every time; the callback
    answers [ignore]. *)
Definition script_S3 : Script string :=
  MkScript (fun _ => CmdFileError "X")
           (fun k => 1000 + Z.of_nat k)
           (fun _ _ => CbResponse PhaseCallback.ignore).

(** ** Mass-parallel executor *)

Section MassParallelExecute.

(** [AfsDevice] is an opaque key of a [std::map]; [AfsPath], the work
    item function and the thread groups belong to other headers. *)
Context {AfsDevice : Type} `{Countable AfsDevice}.
Context {AfsPath ParallelWorkItem : Type}.
(** The state of the [PhaseCallback&] and what it may throw. *)
Context {PhaseCb X : Type}.

Record AbstractPath : Type := MkAbstractPath {
  afsDevice : AfsDevice;
  afsPath : AfsPath;
}.

(** The order of the keys of a [std::map<AfsDevice, ...>]: [operator<] on
    [AfsDevice] belongs to another header.  [device_le d1 d2] stands for
    [!(d2 < d1)]. *)
Variable device_le : relation AfsDevice.
Context `{!RelDecision device_le}.

(** [AFS::getDisplayPath(AbstractPath(afsDevice, AfsPath()))]. *)
Variable getDisplayPath : AfsDevice -> wstring.

(** A [ThreadGroup] as [massParallelExecute] sets it up: its name, its
    number of threads, and the tasks handed to [run], each of which begins
    with [acb.notifyTaskBegin(statusPrio)]. *)
Record ThreadGroupPlan : Type := MkThreadGroupPlan {
  tgDevice : AfsDevice;
  tgName : wstring;
  tgThreadCount : nat;
  tgStatusPrio : nat;
  tgTasks : list (AbstractPath * ParallelWorkItem);
}.

(** Everything behind the guard that runs on other threads or waits for
    them: the thread groups executing their tasks against the
    [AsyncCallback], and [acb.waitUntilDone] forwarding to the phase
    callback until [notifyAllDone].  It yields the phase callback
    afterwards and the exception that ended the wait, if one did. *)
Variable runThreadGroups :
  AsyncCallback -> list ThreadGroupPlan -> PhaseCb -> PhaseCb * option X.

(** [perDeviceWorkload[item.first.afsDevice].push_back(&item)] for each
    item of the workload. *)
Definition perDeviceWorkload (workload : list (AbstractPath * ParallelWorkItem))
  : gmap AfsDevice (list (AbstractPath * ParallelWorkItem)) :=
  fold_left (fun m item =>
               <[afsDevice item.1 := default [] (m !! afsDevice item.1) ++ [item]]> m)
            workload ∅.

(** [for (const auto& [afsDevice, wl] : perDeviceWorkload)]: a [std::map]
    is walked in the order of its keys. *)
Definition devicesInOrder
    (perDevice : gmap AfsDevice (list (AbstractPath * ParallelWorkItem)))
  : list (AfsDevice * list (AbstractPath * ParallelWorkItem)) :=
  @merge_sort _ (fun dw1 dw2 => device_le dw1.1 dw2.1)
    (fun dw1 dw2 => decide_rel device_le dw1.1 dw2.1) (map_to_list perDevice).

(** One thread group per device, with one thread; the status priority is
    the number of groups created before it. *)
Definition threadGroupPlans (threadGroupName : wstring)
    (perDevice : gmap AfsDevice (list (AbstractPath * ParallelWorkItem)))
  : list ThreadGroupPlan :=
  imap (fun statusPrio dw =>
          MkThreadGroupPlan dw.1
            (threadGroupName +:+ String " "%char (getDisplayPath dw.1))
            1 statusPrio dw.2)
       (devicesInOrder perDevice).

(** [massParallelExecute]. *)
Definition massParallelExecute (workload : list (AbstractPath * ParallelWorkItem))
    (threadGroupName : wstring) (callback : PhaseCb) : PhaseCb * option X :=
  let perDevice := perDeviceWorkload workload in
  if decide (perDevice = ∅)
  then (callback, None)   (* return; *)
  else
    let acb := AsyncCallback_new in
    runThreadGroups acb (threadGroupPlans threadGroupName perDevice) callback.

End MassParallelExecute.

(** ** Request channel

    The slots [errorRequest_], [errorResponse_], [logInfoRequest_] and
    [finishNowRequest_] are read and written only while [lockRequest_] is
    held, and a wait on a condition variable gives the lock up atomically.
    So a run of the channel is an interleaving of critical sections; each
    one is a transition below.  A worker blocked in a wait is a worker
    whose next transition is not enabled yet. *)

(** Where a worker thread stands with respect to the channel. *)
Inductive WorkerPc : Type :=
| WIdle                                             (* outside reportError and logInfo *)
| WErrorWaitSlot (e : PhaseCallback.ErrorInfo)      (* reportError: first wait *)
| WErrorWaitResponse                                (* reportError: request posted, second wait *)
| WErrorReturned (rv : PhaseCallback.Response)      (* reportError returned rv *)
| WLogInfoWait (m : wstring)                        (* logInfo: wait for the slot *)
| WStopped.                                         (* left by ThreadStopRequest *)

(** Where the main thread stands in [waitUntilDone]. *)
Inductive MainPc (X : Type) : Type :=
| MRunning
| MDone                 (* returned after finishNowRequest_ *)
| MFailed (x : X).      (* the phase callback threw x *)
Arguments MRunning {X}.
Arguments MDone {X}.
Arguments MFailed {X} x.

Section RequestChannel.
Context {X : Type}.
Variable translate_P : wstring -> wstring -> nat -> wstring.

Record Channel : Type := MkChannel {
  acb : AsyncCallback;
  workers : ThreadId -> WorkerPc;
  mainPc : MainPc X;
  phaseLog : PhaseCallback.Log;      (* calls received by the phase callback *)
  poster : option ThreadId;          (* history: who wrote the pending errorRequest_ *)
}.

Definition Channel_new : Channel :=
  MkChannel AsyncCallback_new (fun _ => WIdle) MRunning [] None.

Inductive Action : Type :=
| CallReportError (t : ThreadId) (e : PhaseCallback.ErrorInfo)
| PostError (t : ThreadId)
| ConsumeResponse (t : ThreadId)
| CallLogInfo (t : ThreadId) (m : wstring)
| PostLogInfo (t : ThreadId)
| Interrupt (t : ThreadId)
| WorkerStats (c : WorkerCall)
| NotifyAllDone
| MainWake (errorAnswer : CbOutcome X) (logInfoThrows : option X)
| MainTick (updateStatusThrows : option X).

Definition set_worker (t : ThreadId) (pc : WorkerPc) (w : ThreadId -> WorkerPc)
  : ThreadId -> WorkerPc :=
  fun t' => if decide (t' = t) then pc else w t'.

Definition worker_free (pc : WorkerPc) : bool :=
  match pc with
  | WIdle | WErrorReturned _ => true
  | _ => false
  end.

(** The predicate of the main thread's [wait_until]. *)
Definition mainWakeCondition (a : AsyncCallback) : bool :=
  (bool_decide (is_Some (errorRequest_ a)) && bool_decide (errorResponse_ a = None))
  || bool_decide (is_Some (logInfoRequest_ a))
  || finishNowRequest_ a.

(** The body of the inner loop of [waitUntilDone] after a wake-up with
    the condition met: answer a pending error, pass on a pending log
    message, leave when asked to finish. *)
Definition mainWake (errorAnswer : CbOutcome X) (logInfoThrows : option X)
    (s : Channel) : Channel :=
  let a := acb s in
  (* if (errorRequest_ && !errorResponse_) *)
  let '(a, log, thrown) :=
    match errorRequest_ a, errorResponse_ a with
    | Some e, None =>
        let log := phaseLog s ++ [PhaseCallback.ReportError e] in
        match errorAnswer with
        | CbResponse rv =>
            (set_requests (errorRequest_ a) (Some rv) (logInfoRequest_ a)
                          (finishNowRequest_ a) a, log, None)
        | CbThrew x => (a, log, Some x)
        end
    | _, _ => (a, phaseLog s, None)
    end in
  match thrown with
  | Some x => MkChannel a (workers s) (MFailed x) log (poster s)
  | None =>
      (* if (logInfoRequest_) *)
      let '(a, log, thrown) :=
        match logInfoRequest_ a with
        | Some m =>
            let log := log ++ [PhaseCallback.LogInfo m] in
            match logInfoThrows with
            | Some x => (a, log, Some x)
            | None =>
                (set_requests (errorRequest_ a) (errorResponse_ a) None
                              (finishNowRequest_ a) a, log, None)
            end
        | None => (a, log, None)
        end in
      match thrown with
      | Some x => MkChannel a (workers s) (MFailed x) log (poster s)
      | None =>
          (* if (finishNowRequest_) *)
          if finishNowRequest_ a
          then let '(a, log) := reportStats log a in
               MkChannel a (workers s) MDone log (poster s)
          else MkChannel a (workers s) MRunning log (poster s)
      end
  end.

(** The periodic tick after a wait that timed out. *)
Definition mainTick (updateStatusThrows : option X) (s : Channel) : Channel :=
  let log := phaseLog s ++ [PhaseCallback.UpdateStatus (getCurrentStatus translate_P (acb s))] in
  match updateStatusThrows with
  | Some x => MkChannel (acb s) (workers s) (MFailed x) log (poster s)
  | None =>
      let '(a, log) := reportStats log (acb s) in
      MkChannel a (workers s) MRunning log (poster s)
  end.

(** One transition; [None] when the action is not enabled in [s]. *)
Definition step (act : Action) (s : Channel) : option Channel :=
  let a := acb s in
  match act with
  | CallReportError t e =>
      if worker_free (workers s t)
      then Some (MkChannel a (set_worker t (WErrorWaitSlot e) (workers s))
                           (mainPc s) (phaseLog s) (poster s))
      else None
  | PostError t =>
      match workers s t, errorRequest_ a, errorResponse_ a with
      | WErrorWaitSlot e, None, None =>
          Some (MkChannel (set_requests (Some e) None (logInfoRequest_ a)
                                        (finishNowRequest_ a) a)
                          (set_worker t WErrorWaitResponse (workers s))
                          (mainPc s) (phaseLog s) (Some t))
      | _, _, _ => None
      end
  | ConsumeResponse t =>
      match workers s t, errorResponse_ a with
      | WErrorWaitResponse, Some rv =>
          Some (MkChannel (set_requests None None (logInfoRequest_ a)
                                        (finishNowRequest_ a) a)
                          (set_worker t (WErrorReturned rv) (workers s))
                          (mainPc s) (phaseLog s) None)
      | _, _ => None
      end
  | CallLogInfo t m =>
      if worker_free (workers s t)
      then Some (MkChannel a (set_worker t (WLogInfoWait m) (workers s))
                           (mainPc s) (phaseLog s) (poster s))
      else None
  | PostLogInfo t =>
      match workers s t, logInfoRequest_ a with
      | WLogInfoWait m, None =>
          Some (MkChannel (set_requests (errorRequest_ a) (errorResponse_ a) (Some m)
                                        (finishNowRequest_ a) a)
                          (set_worker t WIdle (workers s))
                          (mainPc s) (phaseLog s) (poster s))
      | _, _ => None
      end
  | Interrupt t =>
      match workers s t with
      | WErrorWaitSlot _ | WErrorWaitResponse | WLogInfoWait _ =>
          Some (MkChannel a (set_worker t WStopped (workers s))
                          (mainPc s) (phaseLog s) (poster s))
      | _ => None
      end
  | WorkerStats c =>
      Some (MkChannel (workerCall c a) (workers s) (mainPc s) (phaseLog s) (poster s))
  | NotifyAllDone =>
      Some (MkChannel (set_requests (errorRequest_ a) (errorResponse_ a)
                                    (logInfoRequest_ a) true a)
                      (workers s) (mainPc s) (phaseLog s) (poster s))
  | MainWake errorAnswer logInfoThrows =>
      match mainPc s with
      | MRunning =>
          if mainWakeCondition a then Some (mainWake errorAnswer logInfoThrows s) else None
      | _ => None
      end
  | MainTick updateStatusThrows =>
      match mainPc s with
      | MRunning =>
          if mainWakeCondition a then None else Some (mainTick updateStatusThrows s)
      | _ => None
      end
  end.

Fixpoint run (acts : list Action) (s : Channel) : option Channel :=
  match acts with
  | [] => Some s
  | act :: acts => match step act s with
                   | Some s' => run acts s'
                   | None => None
                   end
  end.

(** The states the channel can be in: those a run from the initial state
    leads to. *)
Definition reachable (s : Channel) : Prop :=
  exists acts, run acts Channel_new = Some s.

End RequestChannel.

(** The invariant of the error slots: a worker waiting for its response
    is the one who wrote the pending request; a request is pending exactly
    when someone is recorded as having written it; and there is no
    response without a request. *)
Definition error_slot_inv {X : Type} (s : @Channel X) : Prop :=
  (forall t, workers s t = WErrorWaitResponse -> poster s = Some t) /\
  (poster s = None <-> errorRequest_ (acb s) = None) /\
  (errorResponse_ (acb s) <> None -> errorRequest_ (acb s) <> None).

(** Every transition is of one of three kinds with respect to the error
    slots: it leaves the request and its poster alone (and at most adds
    the main thread's response to a pending request); it is a worker
    posting its request into two empty slots; or it is a worker that was
    waiting for its response reading it and clearing both slots. *)
Definition step_keeps {X : Type} (act : @Action X) (s s' : @Channel X) : Prop :=
  poster s' = poster s /\
  errorRequest_ (acb s') = errorRequest_ (acb s) /\
  (errorResponse_ (acb s') = errorResponse_ (acb s) \/
   (errorResponse_ (acb s) = None /\ errorRequest_ (acb s) <> None /\
    errorResponse_ (acb s') <> None /\ exists ea lt, act = MainWake ea lt)) /\
  (forall t, workers s' t = WErrorWaitResponse -> workers s t = WErrorWaitResponse).

Definition step_posts {X : Type} (act : @Action X) (s s' : @Channel X) : Prop :=
  exists t e,
    act = PostError t /\ workers s t = WErrorWaitSlot e /\
    errorRequest_ (acb s) = None /\ errorResponse_ (acb s) = None /\
    errorRequest_ (acb s') = Some e /\ errorResponse_ (acb s') = None /\
    poster s' = Some t /\
    workers s' = set_worker t WErrorWaitResponse (workers s).

Definition step_consumes {X : Type} (act : @Action X) (s s' : @Channel X) : Prop :=
  exists t rv,
    act = ConsumeResponse t /\ workers s t = WErrorWaitResponse /\
    errorResponse_ (acb s) = Some rv /\
    errorRequest_ (acb s') = None /\ errorResponse_ (acb s') = None /\
    poster s' = None /\
    workers s' = set_worker t (WErrorReturned rv) (workers s).


(** Two workers report an error each: worker 1 has posted its request,
    worker 2 has entered [reportError] and waits for the slots. *)
Definition error_e1 : PhaseCallback.ErrorInfo := PhaseCallback.MkErrorInfo "E1" 10 0.
Definition error_e2 : PhaseCallback.ErrorInfo := PhaseCallback.MkErrorInfo "E2" 20 0.

Definition two_reporters : list (@Action unit) :=
  [CallReportError 1%nat error_e1; PostError 1%nat; CallReportError 2%nat error_e2].

(** ** PercentStatReporter *)

(** A callback that also takes status text.  [updateStatus] may throw
    ([throw X]); its effect on the callback is kept either way. *)
Class StatusCallback (X C : Type) : Type := {
  updateStatus : wstring -> C -> C * option X;
}.

(** The recording phase callback takes the text and does not throw. *)
#[export] Instance PhaseCallback_status {X : Type} : StatusCallback X PhaseCallback.Log :=
  {| updateStatus m log := (log ++ [PhaseCallback.UpdateStatus m], None) |}.

(** The operations on [double] the reporter uses.  Floating point is kept
    abstract: the latch only depends on the outcome of one comparison. *)
Class DoubleOps (double : Type) : Type := {
  double_of_Z : Z -> double;
  double_ltb : double -> double -> bool;
  double_div : double -> double -> double;
  double_min : double -> double -> double;
}.

(** The operations of [class SpeedTest] that [PercentStatReporter] calls.
    The class is declared in speed_test.h, not in this header, so it is
    an interface here. *)
Class SpeedTestOps (double SpeedTest : Type) : Type := {
  SpeedTest_new : Z -> SpeedTest;                       (* window, in nanoseconds *)
  addSample : Z -> Z -> Z -> SpeedTest -> SpeedTest;    (* elapsed ns, items, bytes *)
  getRemainingSec : Z -> Z -> SpeedTest -> option double;
  getBytesPerSec : SpeedTest -> option double;
  SpeedTest_clear : SpeedTest -> SpeedTest;
}.

Definition NS_PER_SEC : Z := 1000000000.
Definition NS_PER_MS : Z := 1000000.
Definition STATUS_PERCENT_DELAY : Z := 2 * NS_PER_SEC.
Definition STATUS_PERCENT_MIN_DURATION : Z := 3.             (* seconds *)
Definition STATUS_PERCENT_MIN_CHANGES_PER_SEC : Z := 2.
Definition STATUS_PERCENT_SPEED_WINDOW : Z := 10 * NS_PER_SEC.

Record PercentStatReporter (SpeedTest : Type) : Type := MkPercentStatReporter {
  showPercent_ : bool;
  msgPrefix_ : wstring;
  startTime_ : Z;          (* steady_clock::time_point; 0 is time_point() *)
  lastUpdate_ : Z;
  speedTest_ : SpeedTest;
  statReporter_ : ItemStatReporter;
}.
Arguments MkPercentStatReporter {SpeedTest}.
Arguments showPercent_ {SpeedTest}.
Arguments msgPrefix_ {SpeedTest}.
Arguments startTime_ {SpeedTest}.
Arguments lastUpdate_ {SpeedTest}.
Arguments speedTest_ {SpeedTest}.
Arguments statReporter_ {SpeedTest}.

Section PercentStatReporter.
Context {X Callback double SpeedTest : Type}.
Context `{StatCallback Callback} `{StatusCallback X Callback}.
Context `{DoubleOps double} `{SpeedTestOps double SpeedTest}.

(** [UI_UPDATE_INTERVAL], in milliseconds: declared in process_callback.h,
    not in this header; it is a parameter. *)
Variable UI_UPDATE_INTERVAL : Z.

(** [PercentStatReporter::formatPercent(fraction, bytesPerSec, bytesTotal)]:
    floating point formatting, kept abstract. *)
Variable formatPercent : double -> double -> Z -> wstring.

(** [ItemStatReporter::updateStatus]. *)
Definition ItemStatReporter_updateStatus (m : wstring) (cb : Callback)
  : Callback * option X :=
  updateStatus m cb.

(** The constructor: the status text is passed on at once. *)
Definition PercentStatReporter_new (statusMsg : wstring) (bytesExpected : Z)
    (uncaught_exceptions : Z) (cb : Callback)
  : PercentStatReporter SpeedTest * Callback * option X :=
  let psr := MkPercentStatReporter false (statusMsg +:+ "... ") 0 0
               (SpeedTest_new STATUS_PERCENT_SPEED_WINDOW)
               (ItemStatReporter_new 1 bytesExpected uncaught_exceptions) in
  let '(cb, thrown) := ItemStatReporter_updateStatus statusMsg cb in
  (psr, cb, thrown).

(** [PercentStatReporter::updateStatus(itemsDelta, bytesDelta)], with the
    reading [now] of the steady clock as an input. *)
Definition PercentStatReporter_updateStatus (now : Z) (itemsDelta bytesDelta : Z)
    (psr : PercentStatReporter SpeedTest) (cb : Callback)
  : PercentStatReporter SpeedTest * Callback * option X :=
  let '(statReporter, cb) := reportDelta itemsDelta bytesDelta (statReporter_ psr) cb in
  if int64 (lastUpdate_ psr + Z.quot UI_UPDATE_INTERVAL 2 * NS_PER_MS) <=? now
  then
    let lastUpdate := now in
    let bytesCopied := getBytesReported statReporter in
    let bytesTotal := getBytesExpected statReporter in
    let '(showPercent, startTime, speedTest) :=
      if negb (showPercent_ psr) && (0 <? bytesCopied)
      then
        if startTime_ psr =? 0
        then (showPercent_ psr, now, addSample 0 0 bytesCopied (speedTest_ psr))
        else
          let elapsed := int64 (now - startTime_ psr) in
          if STATUS_PERCENT_DELAY <=? elapsed
          then
            let speedTest := addSample elapsed 0 bytesCopied (speedTest_ psr) in
            match getRemainingSec 0 (int64 (bytesTotal - bytesCopied)) speedTest with
            | Some remSecs =>
                if double_ltb (double_of_Z STATUS_PERCENT_MIN_DURATION) remSecs
                then (true, startTime_ psr, SpeedTest_clear speedTest)
                else (showPercent_ psr, startTime_ psr, speedTest)
            | None => (showPercent_ psr, startTime_ psr, speedTest)
            end
          else (showPercent_ psr, startTime_ psr, speedTest_ psr)
      else (showPercent_ psr, startTime_ psr, speedTest_ psr) in
    if showPercent
    then
      let speedTest := addSample (int64 (now - startTime)) 0 bytesCopied speedTest in
      let bps := getBytesPerSec speedTest in
      let text :=
        msgPrefix_ psr +:+
        formatPercent (double_min (double_div (double_of_Z bytesCopied)
                                              (double_of_Z bytesTotal))
                                  (double_of_Z 1))
                      (default (double_of_Z 0) bps) bytesTotal in
      let '(cb, thrown) := ItemStatReporter_updateStatus text cb in
      (MkPercentStatReporter showPercent (msgPrefix_ psr) startTime lastUpdate
                             speedTest statReporter, cb, thrown)
    else
      (MkPercentStatReporter showPercent (msgPrefix_ psr) startTime lastUpdate
                             speedTest statReporter, cb, None)
  else
    (MkPercentStatReporter (showPercent_ psr) (msgPrefix_ psr) (startTime_ psr)
                           (lastUpdate_ psr) (speedTest_ psr) statReporter, cb, None).

(** The quantities the latch decision of one call rests on.  The bytes
    copied after the call, clamped as [reportDelta] clamps them: *)
Definition bytesCopiedAfter (bytesDelta : Z) (psr : PercentStatReporter SpeedTest) : Z :=
  Z.min (int64 (bytesReported_ (statReporter_ psr) + bytesDelta))
        (bytesExpected_ (statReporter_ psr)).

(** an evaluation is due: the refresh interval has passed, percent is not
    shown yet, some bytes are copied, timing has started, and [DELAY] has
    elapsed since; *)
Definition evaluationDue (now bytesDelta : Z) (psr : PercentStatReporter SpeedTest) : bool :=
  (int64 (lastUpdate_ psr + Z.quot UI_UPDATE_INTERVAL 2 * NS_PER_MS) <=? now)
  && negb (showPercent_ psr)
  && (0 <? bytesCopiedAfter bytesDelta psr)
  && negb (startTime_ psr =? 0)
  && (STATUS_PERCENT_DELAY <=? int64 (now - startTime_ psr)).

(** and the remaining time the estimator gives at that evaluation. *)
Definition estimateAt (now bytesDelta : Z) (psr : PercentStatReporter SpeedTest)
  : option double :=
  getRemainingSec 0
    (int64 (bytesExpected_ (statReporter_ psr) - bytesCopiedAfter bytesDelta psr))
    (addSample (int64 (now - startTime_ psr)) 0 (bytesCopiedAfter bytesDelta psr)
               (speedTest_ psr)).

Definition estimateAboveMinDuration (now bytesDelta : Z)
    (psr : PercentStatReporter SpeedTest) : bool :=
  match estimateAt now bytesDelta psr with
  | Some remSecs => double_ltb (double_of_Z STATUS_PERCENT_MIN_DURATION) remSecs
  | None => false
  end.

End PercentStatReporter.

(** *** An estimator to run the reporter with *)

(** Modelled from the spec: [class SpeedTest], declared in speed_test.h
    and not in this header.  The spec calls it a sliding-window estimator
    of width [SPEED_WINDOW] that is fed samples and asked for the
    remaining seconds and the bytes per second.  The model keeps the
    samples of the window (and the last one before it) and estimates from
    the oldest and the newest of them; [double] is played by the
    rationals. *)
Record WindowSpeedTest : Type := MkWindowSpeedTest {
  windowSize_ : Z;
  samples_ : list (Z * Z * Z);    (* (elapsed ns, items, bytes), oldest first *)
}.

Fixpoint dropBefore (cutoff : Z) (samples : list (Z * Z * Z)) : list (Z * Z * Z) :=
  match samples with
  | [] => []
  | a :: rest =>
      match rest with
      | [] => samples
      | b :: _ => if b.1.1 <=? cutoff then dropBefore cutoff rest else samples
      end
  end.

Definition WindowSpeedTest_addSample (timeElapsed itemsCurrent bytesCurrent : Z)
    (st : WindowSpeedTest) : WindowSpeedTest :=
  MkWindowSpeedTest (windowSize_ st)
    (dropBefore (timeElapsed - windowSize_ st)
                (samples_ st ++ [(timeElapsed, itemsCurrent, bytesCurrent)])).

Definition sampleSpan (st : WindowSpeedTest) : option (Z * Z * Z) :=
  match samples_ st with
  | [] => None
  | early :: _ =>
      let late := List.last (samples_ st) early in
      Some (late.1.1 - early.1.1, late.1.2 - early.1.2, late.2 - early.2)
  end.

Definition WindowSpeedTest_getRemainingSec (itemsRemaining bytesRemaining : Z)
    (st : WindowSpeedTest) : option Q :=
  match sampleSpan st with
  | None => None
  | Some (timeDelta, itemsDelta, bytesDelta) =>
      let seconds := Qdiv (inject_Z timeDelta) (inject_Z NS_PER_SEC) in
      if negb (bytesDelta =? 0)
      then Some (Qdiv (Qmult (inject_Z bytesRemaining) seconds) (inject_Z bytesDelta))
      else if negb (itemsDelta =? 0)
      then Some (Qdiv (Qmult (inject_Z itemsRemaining) seconds) (inject_Z itemsDelta))
      else None
  end.

Definition WindowSpeedTest_getBytesPerSec (st : WindowSpeedTest) : option Q :=
  match sampleSpan st with
  | None => None
  | Some (timeDelta, _, bytesDelta) =>
      if timeDelta =? 0 then None
      else Some (Qdiv (inject_Z bytesDelta)
                      (Qdiv (inject_Z timeDelta) (inject_Z NS_PER_SEC)))
  end.

#[export] Instance Q_double : DoubleOps Q :=
  {| double_of_Z := inject_Z;
     double_ltb x y := negb (Qle_bool y x);
     double_div := Qdiv;
     double_min x y := if Qle_bool x y then x else y |}.

#[export] Instance WindowSpeedTest_ops : SpeedTestOps Q WindowSpeedTest :=
  {| SpeedTest_new w := MkWindowSpeedTest w [];
     addSample := WindowSpeedTest_addSample;
     getRemainingSec := WindowSpeedTest_getRemainingSec;
     getBytesPerSec := WindowSpeedTest_getBytesPerSec;
     SpeedTest_clear st := MkWindowSpeedTest (windowSize_ st) [] |}.

(** A copy of 1000 bytes that stalls near its end: 900 bytes are there at
    the first report, 950 two seconds later, 951 nine seconds after the
    first.  The clock reads 5 s at the first report; the UI interval is
    100 ms. *)
Definition stalling_copy_start : PercentStatReporter WindowSpeedTest :=
  MkPercentStatReporter false "Copying... " 0 0
    (SpeedTest_new STATUS_PERCENT_SPEED_WINDOW) (ItemStatReporter_new 1 1000 0).

Definition stalling_copy_reports : list (Z * Z * Z) :=
  [(5 * NS_PER_SEC, 0, 900); (7 * NS_PER_SEC, 0, 50); (14 * NS_PER_SEC, 0, 1)].

(** A run of [updateStatus(itemsDelta, bytesDelta)] calls, each with its
    reading of the clock, on the recording callback; the run stops at a
    call that throws. *)
Fixpoint percentReports (reports : list (Z * Z * Z))
    (psr : PercentStatReporter WindowSpeedTest) (log : PhaseCallback.Log)
  : PercentStatReporter WindowSpeedTest * PhaseCallback.Log :=
  match reports with
  | [] => (psr, log)
  | (now, itemsDelta, bytesDelta) :: reports =>
      match PercentStatReporter_updateStatus (X := unit) 100 (fun _ _ _ => "%")
              now itemsDelta bytesDelta psr log with
      | (psr, log, None) => percentReports reports psr log
      | (psr, log, Some _) => (psr, log)
      end
  end.

(** A registry with three active priorities: the worker on priority 0 has
    no status text yet, the two others have. *)
Definition registry_three : AsyncCallback :=
  set_statusByPriority
    [[MkThreadStatus 1%nat EmptyString];
     [MkThreadStatus 2%nat "Copying b"];
     [MkThreadStatus 3%nat "Copying c"]]
    AsyncCallback_new.

(** A registry with one active priority. *)
Definition registry_one : AsyncCallback :=
  set_statusByPriority
    [[]; [MkThreadStatus 2%nat EmptyString; MkThreadStatus 4%nat "Copying b"]]
    AsyncCallback_new.

(** ** Per-thread status registry: the worker side *)

(** The inner loop of [getThreadStatus] and of [notifyTaskEnd]: the index
    of the first entry of the bucket that belongs to thread [tid]. *)
Fixpoint bucketFind (tid : ThreadId) (sbp : list ThreadStatus) : option nat :=
  match sbp with
  | [] => None
  | ts :: sbp => if decide (threadId ts = tid) then Some 0%nat
                 else S <$> bucketFind tid sbp
  end.

(** [AsyncCallback::getThreadStatus]: where the entry of thread [tid] is,
    as (bucket index, index in the bucket); [None] for [nullptr]. *)
Fixpoint getThreadStatus (tid : ThreadId) (buckets : list (list ThreadStatus))
  : option (nat * nat) :=
  match buckets with
  | [] => None
  | sbp :: buckets =>
      match bucketFind tid sbp with
      | Some j => Some (0%nat, j)
      | None => (fun p => (S p.1, p.2)) <$> getThreadStatus tid buckets
      end
  end.

(** What a pointer returned by [getThreadStatus] points to. *)
Definition threadStatusAt (buckets : list (list ThreadStatus)) (p : nat * nat)
  : option ThreadStatus :=
  buckets !! p.1 ≫= fun sbp => sbp !! p.2.

(** [zen::ThreadStopRequest]. *)
Inductive ThreadStopRequest : Type := MkThreadStopRequest.

(** [AsyncCallback::updateStatus], called by worker thread [tid]: the
    message is stored in the thread's entry if it has one (nothing happens
    if it has none: the [assert] is compiled out), then the interruption
    point throws if the thread was asked to stop. *)
Definition AsyncCallback_updateStatus (tid : ThreadId) (stopRequested : bool)
    (m : wstring) (acb : AsyncCallback) : AsyncCallback * option ThreadStopRequest :=
  let acb :=
    match getThreadStatus tid (statusByPriority_ acb) with
    | Some (i, j) =>
        set_statusByPriority
          (alter (alter (fun ts => MkThreadStatus (threadId ts) m) j) i
                 (statusByPriority_ acb)) acb
    | None => acb
    end in
  (acb, if stopRequested then Some MkThreadStopRequest else None).

(** [std::swap(ts, sbp.back()); sbp.pop_back();] for the entry at index
    [j]. *)
Definition swapWithBackAndPop (j : nat) (sbp : list ThreadStatus) : list ThreadStatus :=
  match last sbp with
  | Some back => take (length sbp - 1)%nat (<[j := back]> sbp)
  | None => sbp
  end.

(** The loops of [notifyTaskEnd] over the buckets. *)
Fixpoint notifyTaskEnd_buckets (tid : ThreadId) (buckets : list (list ThreadStatus))
  : list (list ThreadStatus) :=
  match buckets with
  | [] => []
  | sbp :: buckets =>
      match bucketFind tid sbp with
      | Some j => swapWithBackAndPop j sbp :: buckets
      | None => sbp :: notifyTaskEnd_buckets tid buckets
      end
  end.

(** [AsyncCallback::notifyTaskEnd], called by worker thread [tid]. *)
Definition notifyTaskEnd (tid : ThreadId) (acb : AsyncCallback) : AsyncCallback :=
  set_statusByPriority (notifyTaskEnd_buckets tid (statusByPriority_ acb)) acb.

(** The thread ids registered, in priority order. *)
Definition registeredThreads (buckets : list (list ThreadStatus)) : list ThreadId :=
  threadId <$> concat buckets.

(** The status text thread [tid] has registered, if it is registered. *)
Definition statusOf (tid : ThreadId) (buckets : list (list ThreadStatus)) : option wstring :=
  statusMsg <$> (getThreadStatus tid buckets ≫= threadStatusAt buckets).

(** ** Request channel: what a run posts and what the phase callback sees *)

(** The messages the phase callback's [logInfo] was called with, and the
    errors its [reportError] was called with, oldest first. *)
Definition loggedInfos (log : PhaseCallback.Log) : list wstring :=
  omap (fun c => match c with PhaseCallback.LogInfo m => Some m | _ => None end) log.

Definition askedErrors (log : PhaseCallback.Log) : list PhaseCallback.ErrorInfo :=
  omap (fun c => match c with PhaseCallback.ReportError e => Some e | _ => None end) log.

Section RequestChannelRuns.
Context {X : Type}.
Variable translate_P : wstring -> wstring -> nat -> wstring.

(** The message a step writes into [logInfoRequest_], if it is a worker
    posting one. *)
Definition infoPostedBy (act : @Action X) (s : @Channel X) : list wstring :=
  match act with
  | PostLogInfo t => match workers s t with WLogInfoWait m => [m] | _ => [] end
  | _ => []
  end.

(** The error a step writes into [errorRequest_], if it is a worker
    posting one. *)
Definition errorPostedBy (act : @Action X) (s : @Channel X)
  : list PhaseCallback.ErrorInfo :=
  match act with
  | PostError t => match workers s t with WErrorWaitSlot e => [e] | _ => [] end
  | _ => []
  end.

(** The messages workers wrote into [logInfoRequest_] during a run from
    [s], in the order they were written. *)
Fixpoint acceptedLogInfos (acts : list (@Action X)) (s : @Channel X) : list wstring :=
  match acts with
  | [] => []
  | act :: acts =>
      match step translate_P act s with
      | Some s' => infoPostedBy act s ++ acceptedLogInfos acts s'
      | None => []
      end
  end.

(** The errors workers wrote into [errorRequest_] during a run from [s],
    in the order they were written. *)
Fixpoint acceptedErrors (acts : list (@Action X)) (s : @Channel X)
  : list PhaseCallback.ErrorInfo :=
  match acts with
  | [] => []
  | act :: acts =>
      match step translate_P act s with
      | Some s' => errorPostedBy act s ++ acceptedErrors acts s'
      | None => []
      end
  end.

End RequestChannelRuns.

Definition mainFailed {X : Type} (pc : MainPc X) : bool :=
  match pc with
  | MFailed _ => true
  | _ => false
  end.

(** What one wake-up of the main thread does, phase by phase.  The error
    it asks the phase callback about: *)
Definition wakeAsks (a : AsyncCallback) : list PhaseCallback.ErrorInfo :=
  match errorRequest_ a, errorResponse_ a with
  | Some e, None => [e]
  | _, _ => []
  end.

(** whether that call throws; *)
Definition wakeThrownAtError {X : Type} (errorAnswer : CbOutcome X) (a : AsyncCallback)
  : option X :=
  match wakeAsks a, errorAnswer with
  | _ :: _, CbThrew x => Some x
  | _, _ => None
  end.

(** the log message it passes on, unless the error call threw; *)
Definition wakeInfos {X : Type} (errorAnswer : CbOutcome X) (a : AsyncCallback)
  : list wstring :=
  match wakeThrownAtError errorAnswer a with
  | Some _ => []
  | None => option_list (logInfoRequest_ a)
  end.

(** whether that call throws; *)
Definition wakeThrownAtLogInfo {X : Type} (errorAnswer : CbOutcome X)
    (logInfoThrows : option X) (a : AsyncCallback) : option X :=
  match wakeInfos errorAnswer a with
  | _ :: _ => logInfoThrows
  | [] => None
  end.

(** and whether it ends [waitUntilDone] with the last drain. *)
Definition wakeFinishes {X : Type} (errorAnswer : CbOutcome X)
    (logInfoThrows : option X) (a : AsyncCallback) : bool :=
  match wakeThrownAtError errorAnswer a, wakeThrownAtLogInfo errorAnswer logInfoThrows a with
  | None, None => finishNowRequest_ a
  | _, _ => false
  end.

Definition isMainAction {X : Type} (act : @Action X) : bool :=
  match act with
  | MainWake _ _ | MainTick _ => true
  | _ => false
  end.

Definition isNotifyAllDone {X : Type} (act : @Action X) : bool :=
  match act with
  | NotifyAllDone => true
  | _ => false
  end.

(** A phase with two workers: one counts an item, logs a message and
    later raises the totals; the other reports an error, which the main
    thread answers with retry; then the phase is declared done. *)
Definition phase_run : list (@Action unit) :=
  [ WorkerStats (WorkerProcessed 1 100);
    CallLogInfo 1%nat "copying";
    PostLogInfo 1%nat;
    CallReportError 2%nat error_e1;
    PostError 2%nat;
    MainWake (CbResponse PhaseCallback.retry) None;
    ConsumeResponse 2%nat;
    WorkerStats (WorkerTotal 2 50);
    MainTick None;
    NotifyAllDone;
    MainWake (CbResponse PhaseCallback.ignore) None ].

(** The items of a workload on one device, in the order of the workload. *)
Definition itemsOnDevice {AfsDevice : Type} `{EqDecision AfsDevice}
    {AfsPath ParallelWorkItem : Type} (d : AfsDevice)
    (workload : list (@AbstractPath AfsDevice AfsPath * ParallelWorkItem))
  : list (@AbstractPath AfsDevice AfsPath * ParallelWorkItem) :=
  filter (fun item => afsDevice item.1 = d) workload.

(** A workload over two devices: two items on device 7, one on device 9
    between them. *)
Definition workload_two_devices : list (@AbstractPath nat wstring * unit) :=
  [(MkAbstractPath 7%nat "a", tt); (MkAbstractPath 9%nat "c", tt);
   (MkAbstractPath 7%nat "b", tt)].

(** ** The countdown to [notifyAllDone] *)






(** A registry with three workers on one priority: threads 1, 2 and 3,
    registered in this order. *)
Definition registry_shared_bucket : AsyncCallback :=
  set_statusByPriority
    [[MkThreadStatus 1%nat "Copying a";
      MkThreadStatus 2%nat "Copying b";
      MkThreadStatus 3%nat "Copying c"]]
    AsyncCallback_new.

(** ** The drain, one atomic operation at a time

    The four counters are [std::atomic]s touched without a lock, and
    [reportStats] runs outside [lockRequest_]: a worker's [+=] can land
    between any two atomic operations of the main thread.  Below every
    atomic operation is a transition of its own. *)

Inductive Counter : Type :=
| ItemsProcessed | BytesProcessed | ItemsTotal | BytesTotal.

(** The two pairs [reportStats] drains, in this order. *)
Inductive StatPair : Type := PairProcessed | PairTotal.

Definition itemsOf (k : StatPair) : Counter :=
  match k with PairProcessed => ItemsProcessed | PairTotal => ItemsTotal end.

Definition bytesOf (k : StatPair) : Counter :=
  match k with PairProcessed => BytesProcessed | PairTotal => BytesTotal end.

(** An atomic load. *)
Definition counterValue (c : Counter) (acb : AsyncCallback) : Z :=
  match c with
  | ItemsProcessed => itemsDeltaProcessed_ acb
  | BytesProcessed => bytesDeltaProcessed_ acb
  | ItemsTotal => itemsDeltaTotal_ acb
  | BytesTotal => bytesDeltaTotal_ acb
  end.

(** An atomic [+=] on one counter, in the arithmetic of its type. *)
Definition atomicAdd (c : Counter) (d : Z) (acb : AsyncCallback) : AsyncCallback :=
  match c with
  | ItemsProcessed =>
      set_deltaProcessed (int32 (itemsDeltaProcessed_ acb + d)) (bytesDeltaProcessed_ acb) acb
  | BytesProcessed =>
      set_deltaProcessed (itemsDeltaProcessed_ acb) (int64 (bytesDeltaProcessed_ acb + d)) acb
  | ItemsTotal =>
      set_deltaTotal (int32 (itemsDeltaTotal_ acb + d)) (bytesDeltaTotal_ acb) acb
  | BytesTotal =>
      set_deltaTotal (itemsDeltaTotal_ acb) (int64 (bytesDeltaTotal_ acb + d)) acb
  end.

(** How far the add of the negation, [updateDataProcessed(-i, -b)] or
    [updateDataTotal(-i, -b)], has got. *)
Inductive NegationDone : Type := NoneDone | ItemsDone | BothDone.

(** Where the main thread stands in [reportStats]. *)
Inductive DrainPc : Type :=
| DOutside                                              (* not in reportStats *)
| DLoading (k : StatPair) (items bytes : option Z)      (* building the std::pair *)
| DNegating (k : StatPair) (items bytes : Z) (done : NegationDone).

Record StatRace : Type := MkStatRace {
  raceAcb : AsyncCallback;
  racePc : DrainPc;
  raceLog : PhaseCallback.Log;     (* calls received by the phase callback *)
}.

Definition StatRace_new : StatRace := MkStatRace AsyncCallback_new DOutside [].

Inductive StatAction : Type :=
| WorkerAdd (c : Counter) (d : Z)   (* a worker's [+=] on one counter *)
| DrainEnter                        (* the main thread calls reportStats *)
| DrainLoadItems                    (* the pair's first member is read *)
| DrainLoadBytes                    (* the pair's second member is read *)
| DrainNext.                        (* the test, one add of the negation, or the callback *)

(** After the processed pair comes the total pair, then the return. *)
Definition afterPair (k : StatPair) : DrainPc :=
  match k with
  | PairProcessed => DLoading PairTotal None None
  | PairTotal => DOutside
  end.

(** [cb.updateDataProcessed(i, b)] or [cb.updateDataTotal(i, b)]. *)
Definition handOver (k : StatPair) (i b : Z) (log : PhaseCallback.Log) : PhaseCallback.Log :=
  match k with
  | PairProcessed => updateDataProcessed i b log
  | PairTotal => updateDataTotal i b log
  end.

(** One atomic operation; [None] when the action is not the next
    operation of its thread.  The two members of a pair are read in
    either order. *)
Definition statStep (act : StatAction) (s : StatRace) : option StatRace :=
  let a := raceAcb s in
  match act, racePc s with
  | WorkerAdd c d, pc => Some (MkStatRace (atomicAdd c d a) pc (raceLog s))
  | DrainEnter, DOutside =>
      Some (MkStatRace a (DLoading PairProcessed None None) (raceLog s))
  | DrainLoadItems, DLoading k None b =>
      Some (MkStatRace a (DLoading k (Some (counterValue (itemsOf k) a)) b) (raceLog s))
  | DrainLoadBytes, DLoading k i None =>
      Some (MkStatRace a (DLoading k i (Some (counterValue (bytesOf k) a))) (raceLog s))
  | DrainNext, DLoading k (Some i) (Some b) =>
      (* if (delta.first != 0 || delta.second != 0) *)
      if negb (i =? 0) || negb (b =? 0)
      then Some (MkStatRace a (DNegating k i b NoneDone) (raceLog s))
      else Some (MkStatRace a (afterPair k) (raceLog s))
  | DrainNext, DNegating k i b NoneDone =>
      Some (MkStatRace (atomicAdd (itemsOf k) (int32 (- i)) a)
                       (DNegating k i b ItemsDone) (raceLog s))
  | DrainNext, DNegating k i b ItemsDone =>
      Some (MkStatRace (atomicAdd (bytesOf k) (int64 (- b)) a)
                       (DNegating k i b BothDone) (raceLog s))
  | DrainNext, DNegating k i b BothDone =>
      Some (MkStatRace a (afterPair k) (handOver k i b (raceLog s)))
  | _, _ => None
  end.

Fixpoint statRun (acts : list StatAction) (s : StatRace) : option StatRace :=
  match acts with
  | [] => Some s
  | act :: acts => match statStep act s with
                   | Some s' => statRun acts s'
                   | None => None
                   end
  end.

(** What the workers added to a counter during a run, as a plain sum. *)
Fixpoint addedTo (c : Counter) (acts : list StatAction) : Z :=
  match acts with
  | [] => 0
  | WorkerAdd c' d :: acts =>
      (match c, c' with
       | ItemsProcessed, ItemsProcessed | BytesProcessed, BytesProcessed
       | ItemsTotal, ItemsTotal | BytesTotal, BytesTotal => d
       | _, _ => 0
       end) + addedTo c acts
  | _ :: acts => addedTo c acts
  end.

(** What the phase callback was handed for a counter. *)
Definition forwardedTo (c : Counter) (log : PhaseCallback.Log) : Z :=
  match c with
  | ItemsProcessed => (forwardedProcessed log).1
  | BytesProcessed => (forwardedProcessed log).2
  | ItemsTotal => (forwardedTotal log).1
  | BytesTotal => (forwardedTotal log).2
  end.

(** What the main thread has taken off a counter and not handed over yet. *)
Definition inFlight (c : Counter) (pc : DrainPc) : Z :=
  match pc with
  | DNegating k i b done =>
      match c, k, done with
      | ItemsProcessed, PairProcessed, (ItemsDone | BothDone) => i
      | ItemsTotal, PairTotal, (ItemsDone | BothDone) => i
      | BytesProcessed, PairProcessed, BothDone => b
      | BytesTotal, PairTotal, BothDone => b
      | _, _, _ => 0
      end
  | _ => 0
  end.

(** The arithmetic of a counter's type. *)
Definition counterWrap (c : Counter) : Z -> Z :=
  match c with
  | ItemsProcessed | ItemsTotal => int32
  | BytesProcessed | BytesTotal => int64
  end.

(** The operations of a worker's [updateDataProcessed(i, b)] and
    [updateDataTotal(i, b)]: two adds, items first. *)
Definition workerOps (c : WorkerCall) : list StatAction :=
  match c with
  | WorkerProcessed i b => [WorkerAdd ItemsProcessed i; WorkerAdd BytesProcessed b]
  | WorkerTotal i b => [WorkerAdd ItemsTotal i; WorkerAdd BytesTotal b]
  end.

(** The operations of the drain of one pair holding (i, b). *)
Definition pairOps (i b : Z) : list StatAction :=
  [DrainLoadItems; DrainLoadBytes; DrainNext]
  ++ (if negb (i =? 0) || negb (b =? 0) then [DrainNext; DrainNext; DrainNext] else []).

(** The operations of one [reportStats] that no worker interrupts. *)
Definition drainOps (acb : AsyncCallback) : list StatAction :=
  [DrainEnter]
  ++ pairOps (itemsDeltaProcessed_ acb) (bytesDeltaProcessed_ acb)
  ++ pairOps (itemsDeltaTotal_ acb) (bytesDeltaTotal_ acb).

(** A drain with a worker's add landing inside it: 3 items are pending,
    the main thread reads them, a worker adds 2, then the negation of
    what was read is added and the 3 are handed over. *)
Definition raced_drain : list StatAction :=
  [ WorkerAdd ItemsProcessed 3;
    DrainEnter; DrainLoadItems; DrainLoadBytes;
    WorkerAdd ItemsProcessed 2;
    DrainNext; DrainNext; DrainNext; DrainNext;
    DrainLoadBytes; DrainLoadItems; DrainNext ].

(** * Properties *)

(** ** Machine integers *)

Module MachineIntFacts.

Section Wrap.
Variable half : Z.
Hypothesis half_pos : 0 < half.

Lemma wrap_range z : in_range half (wrap half z).
Proof.
  unfold in_range, wrap.
  pose proof (Z.mod_pos_bound (z + half) (2 * half)). lia.
Qed.

Lemma wrap_id z : in_range half z -> wrap half z = z.
Proof.
  unfold in_range, wrap. intros Hz.
  rewrite Z.mod_small by lia. lia.
Qed.

Lemma wrap_wrap z : wrap half (wrap half z) = wrap half z.
Proof. apply wrap_id, wrap_range. Qed.

Lemma wrap_add_l a b : wrap half (wrap half a + b) = wrap half (a + b).
Proof.
  unfold wrap.
  replace ((a + half) mod (2 * half) - half + b + half)
    with ((a + half) mod (2 * half) + b) by lia.
  rewrite Zplus_mod_idemp_l. f_equal. f_equal. lia.
Qed.

Lemma wrap_add_r a b : wrap half (a + wrap half b) = wrap half (a + b).
Proof. rewrite (Z.add_comm a), wrap_add_l. f_equal. lia. Qed.

Lemma wrap_add a b : wrap half (wrap half a + wrap half b) = wrap half (a + b).
Proof. by rewrite wrap_add_l, wrap_add_r. Qed.

Lemma wrap_shift z k : wrap half (z + k * (2 * half)) = wrap half z.
Proof. unfold wrap. f_equal. rewrite <- (Z_mod_plus_full (z + half) k (2 * half)). f_equal. lia. Qed.

Lemma wrap_decomp z : exists k, wrap half z = z + k * (2 * half).
Proof.
  exists (- ((z + half) / (2 * half))). unfold wrap.
  rewrite Z.mod_eq by lia. lia.
Qed.

Lemma wrap_sub_r a b : wrap half (a - wrap half b) = wrap half (a - b).
Proof.
  destruct (wrap_decomp b) as [k ->].
  replace (a - (b + k * (2 * half))) with (a - b + (- k) * (2 * half)) by lia.
  apply wrap_shift.
Qed.

Lemma wrap_0 : wrap half 0 = 0.
Proof. apply wrap_id. unfold in_range. lia. Qed.

(** Reading a counter and adding the negation of what was read leaves
    exactly what arrived in between. *)
Lemma wrap_drain c d : wrap half (wrap half (c + d) + wrap half (- c)) = wrap half d.
Proof. rewrite wrap_add. f_equal. lia. Qed.

Lemma wrap_cancel c : wrap half (c + wrap half (- c)) = 0.
Proof. rewrite wrap_add_r, Z.add_opp_diag_r. apply wrap_0. Qed.
End Wrap.

Lemma INT_HALF_pos : 0 < INT_HALF.
Proof. reflexivity. Qed.

Lemma INT64_HALF_pos : 0 < INT64_HALF.
Proof. reflexivity. Qed.

End MachineIntFacts.
Import MachineIntFacts.

(** [wrap_strip] removes one inner [wrap] from under an outer [wrap] of the
    same width, where the inner one occurs as a summand. *)
Ltac wrap_strip :=
  match goal with
  | |- context [wrap ?h ?e] =>
      match e with
      | context C [wrap h ?x] =>
          let rest := context C [0] in
          first
            [ replace (wrap h e) with (wrap h (wrap h x + rest)) by (f_equal; lia);
              rewrite (wrap_add_l h x rest)
            | replace (wrap h e) with (wrap h (rest - wrap h x)) by (f_equal; lia);
              rewrite (wrap_sub_r h INT_HALF_pos rest x)
            | replace (wrap h e) with (wrap h (rest - wrap h x)) by (f_equal; lia);
              rewrite (wrap_sub_r h INT64_HALF_pos rest x) ]
      end
  end.

(** Equations between wrapped sums: strip the inner wraps, compare what is
    left. *)
Ltac wrap_solve :=
  unfold int32, int64; repeat wrap_strip;
  repeat match goal with |- _ /\ _ => split end;
  (reflexivity || (f_equal; lia)).

(** ** Stat accumulator and drain *)

Lemma workerCalls_app cs1 cs2 acb :
  workerCalls (cs1 ++ cs2) acb = workerCalls cs2 (workerCalls cs1 acb).
Proof. revert acb. induction cs1 as [|c cs1 IH]; intros acb; simpl; [done | apply IH]. Qed.

Lemma int32_range z : is_int32 (int32 z).
Proof. apply wrap_range, INT_HALF_pos. Qed.

Lemma int64_range z : is_int64 (int64 z).
Proof. apply wrap_range, INT64_HALF_pos. Qed.

Lemma int32_id z : is_int32 z -> int32 z = z.
Proof. apply wrap_id. Qed.

Lemma int64_id z : is_int64 z -> int64 z = z.
Proof. apply wrap_id. Qed.

Lemma AsyncCallback_new_in_range : counters_in_range AsyncCallback_new.
Proof. refine (conj _ (conj _ (conj _ _))); by cbv. Qed.

Lemma workerCall_in_range c acb :
  counters_in_range acb -> counters_in_range (workerCall c acb).
Proof.
  intros (H1 & H2 & H3 & H4).
  destruct c; refine (conj _ (conj _ (conj _ _))); cbn;
    auto using int32_range, int64_range.
Qed.

Lemma workerCalls_in_range cs acb :
  counters_in_range acb -> counters_in_range (workerCalls cs acb).
Proof.
  revert acb. induction cs as [|c cs IH]; intros acb Hacb; simpl; [done |].
  by apply IH, workerCall_in_range.
Qed.

(** The pending counters after a run of worker calls: what was pending
    plus what was posted, in the arithmetic of each counter. *)
Lemma workerCalls_counters cs acb :
  counters_in_range acb ->
  itemsDeltaProcessed_ (workerCalls cs acb)
    = int32 (itemsDeltaProcessed_ acb + (postedProcessed cs).1) /\
  bytesDeltaProcessed_ (workerCalls cs acb)
    = int64 (bytesDeltaProcessed_ acb + (postedProcessed cs).2) /\
  itemsDeltaTotal_ (workerCalls cs acb)
    = int32 (itemsDeltaTotal_ acb + (postedTotal cs).1) /\
  bytesDeltaTotal_ (workerCalls cs acb)
    = int64 (bytesDeltaTotal_ acb + (postedTotal cs).2).
Proof.
  revert acb. induction cs as [|c cs IH]; intros acb Hacb.
  - destruct Hacb as (H1 & H2 & H3 & H4). simpl.
    rewrite !Z.add_0_r. by rewrite !int32_id, !int64_id.
  - simpl. destruct (IH _ (workerCall_in_range c _ Hacb)) as (E1 & E2 & E3 & E4).
    rewrite E1, E2, E3, E4. clear IH E1 E2 E3 E4.
    destruct Hacb as (H1 & H2 & H3 & H4).
    destruct c as [i b|i b]; simpl; unfold int32, int64;
      rewrite ?wrap_add_l, ?Z.add_assoc; repeat split; try done.
    all: by rewrite wrap_id.
Qed.

Lemma postedProcessed_app cs1 cs2 :
  postedProcessed (cs1 ++ cs2)
  = ((postedProcessed cs1).1 + (postedProcessed cs2).1,
     (postedProcessed cs1).2 + (postedProcessed cs2).2).
Proof.
  induction cs1 as [|[i b|i b] cs1 IH]; simpl.
  - by destruct (postedProcessed cs2).
  - rewrite IH. simpl. f_equal; lia.
  - done.
Qed.

Lemma postedTotal_app cs1 cs2 :
  postedTotal (cs1 ++ cs2)
  = ((postedTotal cs1).1 + (postedTotal cs2).1,
     (postedTotal cs1).2 + (postedTotal cs2).2).
Proof.
  induction cs1 as [|[i b|i b] cs1 IH]; simpl.
  - by destruct (postedTotal cs2).
  - done.
  - rewrite IH. simpl. f_equal; lia.
Qed.

Lemma forwardedProcessed_app l1 l2 :
  forwardedProcessed (l1 ++ l2)
  = ((forwardedProcessed l1).1 + (forwardedProcessed l2).1,
     (forwardedProcessed l1).2 + (forwardedProcessed l2).2).
Proof.
  induction l1 as [|c l1 IH]; simpl.
  - by destruct (forwardedProcessed l2).
  - destruct c; try done. rewrite IH. simpl. f_equal; lia.
Qed.

Lemma forwardedTotal_app l1 l2 :
  forwardedTotal (l1 ++ l2)
  = ((forwardedTotal l1).1 + (forwardedTotal l2).1,
     (forwardedTotal l1).2 + (forwardedTotal l2).2).
Proof.
  induction l1 as [|c l1 IH]; simpl.
  - by destruct (forwardedTotal l2).
  - destruct c; try done. rewrite IH. simpl. f_equal; lia.
Qed.

Lemma forwarded_drainedCalls i b :
  forwardedProcessed (drainedCalls PhaseCallback.UpdateDataProcessed i b) = (i, b) /\
  forwardedTotal (drainedCalls PhaseCallback.UpdateDataProcessed i b) = (0, 0) /\
  forwardedProcessed (drainedCalls PhaseCallback.UpdateDataTotal i b) = (0, 0) /\
  forwardedTotal (drainedCalls PhaseCallback.UpdateDataTotal i b) = (i, b).
Proof.
  unfold drainedCalls.
  destruct (i =? 0) eqn:Hi, (b =? 0) eqn:Hb; simpl;
    rewrite ?Z.add_0_r; try done.
  apply Z.eqb_eq in Hi, Hb. by subst.
Qed.

(** The test of [reportStats] on a pair, against [drainedCalls]. *)
Lemma drain_test i b :
  negb (i =? 0) || negb (b =? 0) = negb ((i =? 0) && (b =? 0)).
Proof. by destruct (i =? 0), (b =? 0). Qed.

(** The external callback receives, for each pair of counters, the values
    read from it, in one call, unless both are zero. *)
Lemma reportStats_log (log : PhaseCallback.Log) acb :
  (reportStats log acb).2
  = log ++ drainedCalls PhaseCallback.UpdateDataProcessed
             (itemsDeltaProcessed_ acb) (bytesDeltaProcessed_ acb)
        ++ drainedCalls PhaseCallback.UpdateDataTotal
             (itemsDeltaTotal_ acb) (bytesDeltaTotal_ acb).
Proof.
  unfold reportStats, drainedCalls. cbn. rewrite !drain_test.
  destruct ((itemsDeltaProcessed_ acb =? 0) && (bytesDeltaProcessed_ acb =? 0));
    cbn; rewrite drain_test;
    destruct ((itemsDeltaTotal_ acb =? 0) && (bytesDeltaTotal_ acb =? 0)); cbn;
    by rewrite <- ?app_assoc, ?app_nil_r.
Qed.

(** After a drain all four pending counters read zero. *)
Lemma reportStats_zero {C : Type} `{StatCallback C} (cb : C) acb :
  itemsDeltaProcessed_ (reportStats cb acb).1 = 0 /\
  bytesDeltaProcessed_ (reportStats cb acb).1 = 0 /\
  itemsDeltaTotal_ (reportStats cb acb).1 = 0 /\
  bytesDeltaTotal_ (reportStats cb acb).1 = 0.
Proof.
  pose proof (wrap_cancel _ INT_HALF_pos) as Z32.
  pose proof (wrap_cancel _ INT64_HALF_pos) as Z64.
  unfold reportStats. cbn.
  destruct (itemsDeltaProcessed_ acb =? 0) eqn:E1,
           (bytesDeltaProcessed_ acb =? 0) eqn:E2,
           (itemsDeltaTotal_ acb =? 0) eqn:E3,
           (bytesDeltaTotal_ acb =? 0) eqn:E4; cbn;
    rewrite ?E1, ?E2, ?E3, ?E4; cbn;
    rewrite ?Z.eqb_eq in *; unfold int32, int64; rewrite ?Z32, ?Z64; done.
Qed.

Lemma reportStats_racing_nil {C : Type} `{StatCallback C} (cb : C) acb :
  reportStats_racing [] [] cb acb = reportStats cb acb.
Proof. reflexivity. Qed.

(** A drain raced by worker calls: what was read is forwarded, and what
    the workers posted after the read stays pending. *)
Lemma reportStats_racing_counters (between1 between2 : list WorkerCall)
    (log : PhaseCallback.Log) acb :
  counters_in_range acb ->
  let r := reportStats_racing between1 between2 log acb in
  let readTotal := (int32 (itemsDeltaTotal_ acb + (postedTotal between1).1),
                    int64 (bytesDeltaTotal_ acb + (postedTotal between1).2)) in
  r.2 = log ++ drainedCalls PhaseCallback.UpdateDataProcessed
                 (itemsDeltaProcessed_ acb) (bytesDeltaProcessed_ acb)
            ++ drainedCalls PhaseCallback.UpdateDataTotal readTotal.1 readTotal.2 /\
  itemsDeltaProcessed_ r.1
    = int32 ((postedProcessed between1).1 + (postedProcessed between2).1) /\
  bytesDeltaProcessed_ r.1
    = int64 ((postedProcessed between1).2 + (postedProcessed between2).2) /\
  itemsDeltaTotal_ r.1 = int32 (postedTotal between2).1 /\
  bytesDeltaTotal_ r.1 = int64 (postedTotal between2).2.
Proof.
  intros Hacb r readTotal. subst r readTotal.
  unfold reportStats_racing.
  destruct (workerCalls_counters between1 acb Hacb) as (P1 & P2 & T1 & T2).
  pose proof (workerCalls_in_range between1 acb Hacb) as Hr1.
  set (a1 := workerCalls between1 acb) in *.
  cbn [fst snd]. rewrite drain_test.
  set (a2 := if negb ((itemsDeltaProcessed_ acb =? 0) && (bytesDeltaProcessed_ acb =? 0))
             then updateDataProcessed (int32 (- itemsDeltaProcessed_ acb))
                                      (int64 (- bytesDeltaProcessed_ acb)) a1
             else a1).
  assert (Ha2 : counters_in_range a2 /\
                itemsDeltaProcessed_ a2 = int32 (postedProcessed between1).1 /\
                bytesDeltaProcessed_ a2 = int64 (postedProcessed between1).2 /\
                itemsDeltaTotal_ a2 = itemsDeltaTotal_ a1 /\
                bytesDeltaTotal_ a2 = bytesDeltaTotal_ a1).
  { subst a2.
    destruct (itemsDeltaProcessed_ acb =? 0) eqn:E1,
             (bytesDeltaProcessed_ acb =? 0) eqn:E2; cbn [negb andb].
    1: { apply Z.eqb_eq in E1, E2. rewrite E1 in P1. rewrite E2 in P2.
         by rewrite P1, P2. }
    all: split; [apply (workerCall_in_range (WorkerProcessed _ _)), Hr1 |];
      cbn; rewrite P1, P2; unfold int32, int64; by rewrite !wrap_drain. }
  destruct Ha2 as (Hr2 & P1' & P2' & T1' & T2').
  destruct (workerCalls_counters between2 a2 Hr2) as (P1'' & P2'' & T1'' & T2'').
  set (a3 := workerCalls between2 a2) in *.
  assert (Hsplit :
    (let '(acb0, cb) :=
       if negb ((itemsDeltaProcessed_ acb =? 0) && (bytesDeltaProcessed_ acb =? 0))
       then (updateDataProcessed (int32 (- itemsDeltaProcessed_ acb))
                                 (int64 (- bytesDeltaProcessed_ acb)) a1,
             updateDataProcessed (itemsDeltaProcessed_ acb) (bytesDeltaProcessed_ acb) log)
       else (a1, log) in
     if negb (itemsDeltaTotal_ acb0 =? 0) || negb (bytesDeltaTotal_ acb0 =? 0)
     then (updateDataTotal (int32 (- itemsDeltaTotal_ acb0)) (int64 (- bytesDeltaTotal_ acb0))
                           (workerCalls between2 acb0),
           updateDataTotal (itemsDeltaTotal_ acb0) (bytesDeltaTotal_ acb0) cb)
     else (workerCalls between2 acb0, cb))
    = (if negb ((itemsDeltaTotal_ a2 =? 0) && (bytesDeltaTotal_ a2 =? 0))
       then updateDataTotal (int32 (- itemsDeltaTotal_ a2)) (int64 (- bytesDeltaTotal_ a2)) a3
       else a3,
       log ++ drainedCalls PhaseCallback.UpdateDataProcessed
                (itemsDeltaProcessed_ acb) (bytesDeltaProcessed_ acb)
           ++ drainedCalls PhaseCallback.UpdateDataTotal
                (itemsDeltaTotal_ a2) (bytesDeltaTotal_ a2))).
  { subst a3 a2. unfold drainedCalls.
    destruct ((itemsDeltaProcessed_ acb =? 0) && (bytesDeltaProcessed_ acb =? 0));
      cbn [negb]; rewrite drain_test;
      match goal with |- context [negb (?x && ?y)] => destruct (x && y) end;
      cbn; by rewrite <- ?app_assoc, ?app_nil_r. }
  rewrite Hsplit. clear Hsplit. cbn [fst snd].
  rewrite T1', T2', T1, T2. split; [done |].
  rewrite <- T1, <- T2, <- T1', <- T2'.
  destruct (itemsDeltaTotal_ a2 =? 0) eqn:E1, (bytesDeltaTotal_ a2 =? 0) eqn:E2;
    cbn [negb andb].
  1: { apply Z.eqb_eq in E1, E2. rewrite E1 in T1''. rewrite E2 in T2''.
       rewrite P1'', P2'', T1'', T2'', P1', P2'.
       unfold int32, int64. by rewrite !wrap_add_l. }
  all: cbn; rewrite P1'', P2'', T1'', T2'', P1', P2';
    unfold int32, int64; by rewrite !wrap_drain, !wrap_add_l.
Qed.

(** Scenario S1 of the spec, run: one worker posts (3, 100) then (2, 50);
    one drain hands the external callback the single call (5, 150) and
    leaves a callback whose counters are all zero. *)
Example drain_S1 :
  reportStats ([] : PhaseCallback.Log)
    (workerCalls [WorkerProcessed 3 100; WorkerProcessed 2 50] AsyncCallback_new)
  = (AsyncCallback_new, [PhaseCallback.UpdateDataProcessed 5 150]).
Proof. vm_compute. reflexivity. Qed.

(** C1 (counter drain conservation).  For every sequence [calls] of
    worker-side [updateDataProcessed] / [updateDataTotal] calls on a fresh
    [AsyncCallback], followed by one [reportStats] on the main thread:
    - the external callback receives, per pair of counters, one call with
      the sums posted by the workers (in the counters' own arithmetic:
      [int] and [int64_t]), and no call for a pair whose sums are both
      zero; so what is forwarded adds up to exactly what was posted, and
      to the plain sums whenever these are values of the counters' types;
    - afterwards the four pending counters read zero;
    - the drain is a read followed by adding the negation, not a store of
      zero: worker calls landing between a read and its add are neither
      lost nor forwarded twice, they stay pending.  A drain raced by
      [between1] after the read of the processed pair and by [between2]
      after the read of the total pair forwards exactly what it read (the
      posted sums of processed; those of total with what [between1] added
      to them), and leaves pending exactly what was posted after the
      read: the sums of [between1] and [between2] for processed, those of
      [between2] for total.  [reportStats] is the raced drain with no
      call in between;
    - posting (3, 100) and (2, 50) and draining once forwards the single
      call [updateDataProcessed(5, 150)]. *)
Theorem C1_counter_drain_conservation :
  forall calls : list WorkerCall,
    let pending := workerCalls calls AsyncCallback_new in
    let drained := reportStats ([] : PhaseCallback.Log) pending in
    let sumP := postedProcessed calls in
    let sumT := postedTotal calls in
    (drained.2
       = drainedCalls PhaseCallback.UpdateDataProcessed (int32 sumP.1) (int64 sumP.2)
         ++ drainedCalls PhaseCallback.UpdateDataTotal (int32 sumT.1) (int64 sumT.2)) /\
    forwardedProcessed drained.2 = (int32 sumP.1, int64 sumP.2) /\
    forwardedTotal drained.2 = (int32 sumT.1, int64 sumT.2) /\
    (is_int32 sumP.1 -> is_int64 sumP.2 -> forwardedProcessed drained.2 = sumP) /\
    (is_int32 sumT.1 -> is_int64 sumT.2 -> forwardedTotal drained.2 = sumT) /\
    (itemsDeltaProcessed_ drained.1 = 0 /\ bytesDeltaProcessed_ drained.1 = 0 /\
     itemsDeltaTotal_ drained.1 = 0 /\ bytesDeltaTotal_ drained.1 = 0) /\
    (forall between1 between2 : list WorkerCall,
        let raced := reportStats_racing between1 between2 ([] : PhaseCallback.Log) pending in
        let all := calls ++ between1 ++ between2 in
        int32 ((forwardedProcessed raced.2).1 + itemsDeltaProcessed_ raced.1)
          = int32 (postedProcessed all).1 /\
        int64 ((forwardedProcessed raced.2).2 + bytesDeltaProcessed_ raced.1)
          = int64 (postedProcessed all).2 /\
        int32 ((forwardedTotal raced.2).1 + itemsDeltaTotal_ raced.1)
          = int32 (postedTotal all).1 /\
        int64 ((forwardedTotal raced.2).2 + bytesDeltaTotal_ raced.1)
          = int64 (postedTotal all).2) /\
    (forall between1 between2 : list WorkerCall,
        let raced := reportStats_racing between1 between2 ([] : PhaseCallback.Log) pending in
        raced.2
          = drainedCalls PhaseCallback.UpdateDataProcessed (int32 sumP.1) (int64 sumP.2)
            ++ drainedCalls PhaseCallback.UpdateDataTotal
                 (int32 (sumT.1 + (postedTotal between1).1))
                 (int64 (sumT.2 + (postedTotal between1).2)) /\
        itemsDeltaProcessed_ raced.1
          = int32 ((postedProcessed between1).1 + (postedProcessed between2).1) /\
        bytesDeltaProcessed_ raced.1
          = int64 ((postedProcessed between1).2 + (postedProcessed between2).2) /\
        itemsDeltaTotal_ raced.1 = int32 (postedTotal between2).1 /\
        bytesDeltaTotal_ raced.1 = int64 (postedTotal between2).2) /\
    (forall (log : PhaseCallback.Log) (acb : AsyncCallback),
        reportStats_racing [] [] log acb = reportStats log acb) /\
    reportStats ([] : PhaseCallback.Log)
      (workerCalls [WorkerProcessed 3 100; WorkerProcessed 2 50] AsyncCallback_new)
    = (AsyncCallback_new, [PhaseCallback.UpdateDataProcessed 5 150]).
Proof.
  intros calls pending drained sumP sumT.
  pose proof AsyncCallback_new_in_range as Hnew.
  destruct (workerCalls_counters calls _ Hnew) as (P1 & P2 & T1 & T2).
  pose proof (workerCalls_in_range calls _ Hnew) as Hpending.
  fold pending in P1, P2, T1, T2, Hpending. cbn in P1, P2, T1, T2.
  fold sumP in P1, P2. fold sumT in T1, T2.
  assert (Hlog : drained.2
       = drainedCalls PhaseCallback.UpdateDataProcessed (int32 sumP.1) (int64 sumP.2)
         ++ drainedCalls PhaseCallback.UpdateDataTotal (int32 sumT.1) (int64 sumT.2)).
  { subst drained. rewrite reportStats_log. cbn [app]. by rewrite P1, P2, T1, T2. }
  assert (HfP : forwardedProcessed drained.2 = (int32 sumP.1, int64 sumP.2)).
  { rewrite Hlog, forwardedProcessed_app.
    destruct (forwarded_drainedCalls (int32 sumP.1) (int64 sumP.2)) as (-> & _ & _ & _).
    destruct (forwarded_drainedCalls (int32 sumT.1) (int64 sumT.2)) as (_ & _ & -> & _).
    cbn. by rewrite !Z.add_0_r. }
  assert (HfT : forwardedTotal drained.2 = (int32 sumT.1, int64 sumT.2)).
  { rewrite Hlog, forwardedTotal_app.
    destruct (forwarded_drainedCalls (int32 sumP.1) (int64 sumP.2)) as (_ & -> & _ & _).
    destruct (forwarded_drainedCalls (int32 sumT.1) (int64 sumT.2)) as (_ & _ & _ & ->).
    done. }
  split; [exact Hlog |]. split; [exact HfP |]. split; [exact HfT |].
  split. { intros H1 H2. rewrite HfP, int32_id, int64_id by done. by destruct sumP. }
  split. { intros H1 H2. rewrite HfT, int32_id, int64_id by done. by destruct sumT. }
  split. { apply reportStats_zero. }
  split; [| split; [| split; [| exact drain_S1]]].
  2: { intros between1 between2 raced.
       destruct (reportStats_racing_counters between1 between2 [] pending Hpending)
         as (Rlog & RP1 & RP2 & RT1 & RT2).
       fold raced in Rlog, RP1, RP2, RT1, RT2. cbn [app fst snd] in Rlog.
       split; [| done]. rewrite Rlog, P1, P2, T1, T2. do 2 f_equal; wrap_solve. }
  2: { intros log acb. apply reportStats_racing_nil. }
  intros between1 between2 raced all.
  destruct (reportStats_racing_counters between1 between2 [] pending Hpending)
    as (Rlog & RP1 & RP2 & RT1 & RT2).
  fold raced in Rlog, RP1, RP2, RT1, RT2. cbn [app fst snd] in Rlog.
  rewrite RP1, RP2, RT1, RT2, Rlog, forwardedProcessed_app, forwardedTotal_app.
  destruct (forwarded_drainedCalls (itemsDeltaProcessed_ pending)
              (bytesDeltaProcessed_ pending)) as (-> & -> & _ & _).
  match goal with |- context [drainedCalls PhaseCallback.UpdateDataTotal ?i ?b] =>
    destruct (forwarded_drainedCalls i b) as (_ & _ & -> & ->) end.
  subst all. rewrite !postedProcessed_app, !postedTotal_app. cbn [fst snd].
  rewrite P1, P2, T1, T2. unfold int32, int64.
  rewrite !Z.add_0_r, !Z.add_0_l, !wrap_add. fold sumP sumT.
  rewrite <- !Z.add_assoc, !wrap_add_l.
  repeat split; f_equal; lia.
Qed.

(** One worker posts (3, 100) and (2, 50) and the main thread drains:
    (5, 150) is forwarded and nothing is pending.  If a third call
    (4, 7) lands between the read of the processed pair and the add of
    its negation, the drain still forwards (5, 150), and (4, 7) is
    pending afterwards: a store of zero would have lost it. *)
Lemma C1_counter_drain_witness :
  let posted := [WorkerProcessed 3 100; WorkerProcessed 2 50] in
  let drained := reportStats ([] : PhaseCallback.Log)
                   (workerCalls posted AsyncCallback_new) in
  let raced := reportStats_racing [WorkerProcessed 4 7] [] ([] : PhaseCallback.Log)
                 (workerCalls posted AsyncCallback_new) in
  forwardedProcessed drained.2 = (5, 150) /\
  itemsDeltaProcessed_ drained.1 = 0 /\
  raced.2 = [PhaseCallback.UpdateDataProcessed 5 150] /\
  itemsDeltaProcessed_ raced.1 = 4 /\ bytesDeltaProcessed_ raced.1 = 7.
Proof.
  cbn zeta.
  destruct (C1_counter_drain_conservation [WorkerProcessed 3 100; WorkerProcessed 2 50])
    as (_ & _ & _ & Hexact & _ & (Hzero & _) & _ & Hraced & _).
  split; [| split; [exact Hzero |]].
  - apply Hexact; vm_compute; (split; [discriminate | reflexivity]).
  - destruct (Hraced [WorkerProcessed 4 7] []) as (-> & -> & -> & _).
    by vm_compute.
Defined.

(** ** ItemStatReporter on an AsyncCallback *)

Lemma updateDataProcessed_in_range i b (acb : AsyncCallback) :
  counters_in_range acb -> counters_in_range (updateDataProcessed i b acb).
Proof. apply (workerCall_in_range (WorkerProcessed i b)). Qed.

Lemma updateDataTotal_in_range i b (acb : AsyncCallback) :
  counters_in_range acb -> counters_in_range (updateDataTotal i b acb).
Proof. apply (workerCall_in_range (WorkerTotal i b)). Qed.

(** One [reportDelta]: the expected amounts and the exception count are
    constants; processed grows by the delta; and the total counter plus
    the reporter's own accumulator grows by the delta too, whichever
    branch is taken (what the clamp takes off the accumulator it puts on
    the total). *)
Lemma reportDelta_async i b r (acb : AsyncCallback) :
  let r' := (reportDelta i b r acb).1 in
  let acb' := (reportDelta i b r acb).2 in
  (itemsExpected_ r' = itemsExpected_ r /\ bytesExpected_ r' = bytesExpected_ r /\
   exeptionCount_ r' = exeptionCount_ r) /\
  (itemsDeltaProcessed_ acb' = int32 (itemsDeltaProcessed_ acb + i) /\
   bytesDeltaProcessed_ acb' = int64 (bytesDeltaProcessed_ acb + b)) /\
  (int32 (itemsDeltaTotal_ acb' + itemsReported_ r')
     = int32 (itemsDeltaTotal_ acb + itemsReported_ r + i) /\
   int64 (bytesDeltaTotal_ acb' + bytesReported_ r')
     = int64 (bytesDeltaTotal_ acb + bytesReported_ r + b)) /\
  (counters_in_range acb -> counters_in_range acb').
Proof.
  unfold reportDelta.
  destruct (itemsExpected_ r <? int32 (itemsReported_ r + i)) eqn:Ei,
           (bytesExpected_ r <? int64 (bytesReported_ r + b)) eqn:Eb;
    cbn; (split; [done |]); (split; [done |]);
    (split; [| intros (H1 & H2 & H3 & H4);
               refine (conj _ (conj _ (conj _ _))); cbn;
               auto using int32_range, int64_range]);
    wrap_solve.
Qed.

Lemma reportDeltas_async deltas r (acb : AsyncCallback) :
  let r' := (reportDeltas deltas r acb).1 in
  let acb' := (reportDeltas deltas r acb).2 in
  (itemsExpected_ r' = itemsExpected_ r /\ bytesExpected_ r' = bytesExpected_ r /\
   exeptionCount_ r' = exeptionCount_ r) /\
  (counters_in_range acb ->
   counters_in_range acb' /\
   itemsDeltaProcessed_ acb' = int32 (itemsDeltaProcessed_ acb + (reportedSum deltas).1) /\
   bytesDeltaProcessed_ acb' = int64 (bytesDeltaProcessed_ acb + (reportedSum deltas).2)) /\
  (int32 (itemsDeltaTotal_ acb' + itemsReported_ r')
     = int32 (itemsDeltaTotal_ acb + itemsReported_ r + (reportedSum deltas).1) /\
   int64 (bytesDeltaTotal_ acb' + bytesReported_ r')
     = int64 (bytesDeltaTotal_ acb + bytesReported_ r + (reportedSum deltas).2)).
Proof.
  revert r acb. induction deltas as [|[i b] deltas IH]; intros r acb; cbn zeta.
  - cbn. rewrite !Z.add_0_r. split; [done |]. split; [| done].
    intros Hacb. split; [done |].
    destruct Hacb as (H1 & H2 & H3 & H4). by rewrite int32_id, int64_id.
  - cbn [reportDeltas reportedSum fst snd].
    pose proof (reportDelta_async i b r acb) as Hstep.
    destruct (reportDelta i b r acb) as [r1 acb1]. cbn [fst snd] in Hstep.
    destruct Hstep as ((E1 & E2 & E3) & (P1 & P2) & (T1 & T2) & Hrange).
    specialize (IH r1 acb1). cbn zeta in IH.
    destruct IH as ((E1' & E2' & E3') & HP & (T1' & T2')).
    split; [by rewrite E1', E2', E3' |]. split.
    + intros Hacb. destruct (HP (Hrange Hacb)) as (Hr & P1' & P2').
      split; [done |]. rewrite P1', P2', P1, P2. wrap_solve.
    + rewrite T1', T2'. clear T1' T2'. split.
      * transitivity (int32 (int32 (itemsDeltaTotal_ acb1 + itemsReported_ r1)
                             + (reportedSum deltas).1)); [wrap_solve |].
        rewrite T1. wrap_solve.
      * transitivity (int64 (int64 (bytesDeltaTotal_ acb1 + bytesReported_ r1)
                             + (reportedSum deltas).2)); [wrap_solve |].
        rewrite T2. wrap_solve.
Qed.

(** What a whole reporter scope does to the counters of the
    [AsyncCallback] it reports to, for either way of leaving the scope. *)
Lemma itemScope_async ie be deltas exc0 exc1 (acb : AsyncCallback) :
  counters_in_range acb ->
  let acb' := itemScope ie be deltas exc0 exc1 acb in
  let reported := reportedSum deltas in
  itemsDeltaProcessed_ acb' = int32 (itemsDeltaProcessed_ acb + reported.1) /\
  bytesDeltaProcessed_ acb' = int64 (bytesDeltaProcessed_ acb + reported.2) /\
  itemsDeltaTotal_ acb'
    = int32 (itemsDeltaTotal_ acb + (if exc0 <? exc1 then reported.1 else reported.1 - ie)) /\
  bytesDeltaTotal_ acb'
    = int64 (bytesDeltaTotal_ acb + (if exc0 <? exc1 then reported.2 else reported.2 - be)).
Proof.
  intros Hacb. cbn zeta. unfold itemScope.
  pose proof (reportDeltas_async deltas (ItemStatReporter_new ie be exc0) acb) as Hrun.
  destruct (reportDeltas deltas (ItemStatReporter_new ie be exc0) acb) as [r acb1].
  cbn [fst snd] in Hrun.
  destruct Hrun as ((E1 & E2 & E3) & HP & (T1 & T2)).
  destruct (HP Hacb) as (Hr & P1 & P2). clear HP.
  cbn in E1, E2, E3, T1, T2. rewrite Z.add_0_r in T1, T2.
  unfold ItemStatReporter_destroy. rewrite E1, E2, E3.
  destruct (exc0 <? exc1); cbn; rewrite P1, P2; (split; [done |]); (split; [done |]).
  - by rewrite T1, T2.
  - split.
    + transitivity (int32 (int32 (itemsDeltaTotal_ acb1 + itemsReported_ r) - ie));
        [wrap_solve |]. rewrite T1. wrap_solve.
    + transitivity (int64 (int64 (bytesDeltaTotal_ acb1 + bytesReported_ r) - be));
        [wrap_solve |]. rewrite T2. wrap_solve.
Qed.

(** The calls one [reportDelta] makes: the processed delta, then the
    overshoot of the items over the expected items if there is one, then
    that of the bytes. *)
Lemma reportDelta_calls i b r (log : PhaseCallback.Log) :
  let itemsReported := int32 (itemsReported_ r + i) in
  let bytesReported := int64 (bytesReported_ r + b) in
  (reportDelta i b r log).2
  = log ++ [PhaseCallback.UpdateDataProcessed i b]
        ++ (if itemsExpected_ r <? itemsReported
            then [PhaseCallback.UpdateDataTotal (int32 (itemsReported - itemsExpected_ r)) 0]
            else [])
        ++ (if bytesExpected_ r <? bytesReported
            then [PhaseCallback.UpdateDataTotal 0 (int64 (bytesReported - bytesExpected_ r))]
            else []).
Proof.
  cbn zeta. unfold reportDelta.
  destruct (itemsExpected_ r <? int32 (itemsReported_ r + i)),
           (bytesExpected_ r <? int64 (bytesReported_ r + b)); cbn;
    by rewrite <- ?app_assoc, ?app_nil_r.
Qed.

(** The reporter after a [reportDelta] does not depend on the callback. *)
Lemma reportDelta_reporter {C : Type} `{StatCallback C} i b r (cb : C) :
  (reportDelta i b r cb).1
  = set_reported (Z.min (int32 (itemsReported_ r + i)) (itemsExpected_ r))
                 (Z.min (int64 (bytesReported_ r + b)) (bytesExpected_ r)) r.
Proof.
  unfold reportDelta.
  destruct (Z.ltb_spec (itemsExpected_ r) (int32 (itemsReported_ r + i))),
           (Z.ltb_spec (bytesExpected_ r) (int64 (bytesReported_ r + b))); cbn;
    f_equal; lia.
Qed.

(** The scope on the recording callback: the calls of the reports, then
    the call of the destructor. *)
Lemma itemScope_calls ie be deltas exc0 exc1 (log : PhaseCallback.Log) :
  let run := reportDeltas deltas (ItemStatReporter_new ie be exc0) log in
  itemScope ie be deltas exc0 exc1 log
  = run.2 ++ [if exc0 <? exc1
              then PhaseCallback.UpdateDataTotal (itemsReported_ run.1) (bytesReported_ run.1)
              else PhaseCallback.UpdateDataTotal (int32 (itemsReported_ run.1 - ie))
                                                 (int64 (bytesReported_ run.1 - be))].
Proof.
  cbn zeta. unfold itemScope.
  assert (Hconst : forall deltas r (log : PhaseCallback.Log),
            itemsExpected_ (reportDeltas deltas r log).1 = itemsExpected_ r /\
            bytesExpected_ (reportDeltas deltas r log).1 = bytesExpected_ r /\
            exeptionCount_ (reportDeltas deltas r log).1 = exeptionCount_ r).
  { clear. induction deltas as [|[i b] deltas IH]; intros r log; [done |].
    cbn [reportDeltas]. pose proof (reportDelta_reporter i b r log) as Hr.
    destruct (reportDelta i b r log) as [r1 log1]. cbn [fst] in Hr.
    destruct (IH r1 log1) as (-> & -> & ->). by rewrite Hr. }
  destruct (Hconst deltas (ItemStatReporter_new ie be exc0) log) as (E1 & E2 & E3).
  destruct (reportDeltas deltas (ItemStatReporter_new ie be exc0) log) as [r log1].
  cbn [fst snd] in *. unfold ItemStatReporter_destroy. rewrite E1, E2, E3. cbn.
  by destruct (exc0 <? exc1).
Qed.

(** Scenario S5 of the spec, run against a recording callback: expected
    (1, 100), one report of (1, 120), normal exit.  The calls made are the
    processed delta, +20 bytes on the total during reporting, and a scope
    exit correction of (0, 0). *)
Example itemScope_S5_calls :
  itemScope 1 100 [(1, 120)] 0 0 ([] : PhaseCallback.Log)
  = [PhaseCallback.UpdateDataProcessed 1 120;
     PhaseCallback.UpdateDataTotal 0 20;
     PhaseCallback.UpdateDataTotal 0 0].
Proof. vm_compute. reflexivity. Qed.

(** C2, the claim as stated, fails.  It says the reporter's own additions
    to the total (overshoot additions plus the scope exit correction) come
    to the expected amounts, and that for 100 bytes expected and 120
    reported the net change of the total is 0.  On the code the reporter
    with expected (1, 100) that reports (1, 120) and exits normally adds
    (0, 20) to the total: not (1, 100), and not 0 bytes. *)
Lemma C2_counterexample :
  itemScope 1 100 [(1, 120)] 0 0 ([] : PhaseCallback.Log)
  = [PhaseCallback.UpdateDataProcessed 1 120;
     PhaseCallback.UpdateDataTotal 0 20;
     PhaseCallback.UpdateDataTotal 0 0] /\
  forwardedTotal (itemScope 1 100 [(1, 120)] 0 0 ([] : PhaseCallback.Log)) = (0, 20) /\
  forwardedTotal (itemScope 1 100 [(1, 120)] 0 0 ([] : PhaseCallback.Log)) <> (1, 100) /\
  (forwardedTotal (itemScope 1 100 [(1, 120)] 0 0 ([] : PhaseCallback.Log))).2 <> 0 /\
  forwardedProcessed (itemScope 1 100 [(1, 120)] 0 0 ([] : PhaseCallback.Log)) = (1, 120) /\
  itemsDeltaTotal_ (itemScope 1 100 [(1, 120)] 0 0 AsyncCallback_new) = 0 /\
  bytesDeltaTotal_ (itemScope 1 100 [(1, 120)] 0 0 AsyncCallback_new) = 20.
Proof.
  split; [exact itemScope_S5_calls |].
  rewrite itemScope_S5_calls. vm_compute. repeat split; discriminate.
Qed.

(** C2 (normal-exit reconciliation), as the code has it.  For every
    reporter constructed with expected (ie, be) on an [AsyncCallback],
    whose [reportDelta] calls report the cumulative amount (i, b) and whose
    scope exits normally (the exception count did not grow), the net
    amount the reporter adds to the total, overshoot additions and scope
    exit correction together, is (i - ie, b - be), in the counters'
    arithmetic.  So a total that held the planned (ie, be) for this item
    ends up holding (i, b) for it, the amount really processed; processed
    grows by (i, b).

    The split between reporting and scope exit, as the callback sees it:
    each [reportDelta] passes on the delta as processed, then adds to the
    total what its accumulators now hold above the expected amounts, and
    clamps them; the scope exit is one more call, the correction
    (accumulators minus expected amounts).  With 100 bytes expected and
    120 reported, +20 bytes go to the total during reporting and the
    correction at scope exit is (0, 0). *)
Theorem C2_normal_exit_reconciliation :
  forall (ie be : Z) (deltas : list (Z * Z)) (exc0 exc1 : Z) (acb : AsyncCallback),
    counters_in_range acb ->
    exc1 <= exc0 ->
    let acb' := itemScope ie be deltas exc0 exc1 acb in
    let reported := reportedSum deltas in
    itemsDeltaTotal_ acb' = int32 (itemsDeltaTotal_ acb + (reported.1 - ie)) /\
    bytesDeltaTotal_ acb' = int64 (bytesDeltaTotal_ acb + (reported.2 - be)) /\
    itemsDeltaProcessed_ acb' = int32 (itemsDeltaProcessed_ acb + reported.1) /\
    bytesDeltaProcessed_ acb' = int64 (bytesDeltaProcessed_ acb + reported.2) /\
    (forall planned : Z,
        itemsDeltaTotal_ acb = int32 (planned + ie) ->
        itemsDeltaTotal_ acb' = int32 (planned + reported.1)) /\
    (forall planned : Z,
        bytesDeltaTotal_ acb = int64 (planned + be) ->
        bytesDeltaTotal_ acb' = int64 (planned + reported.2)) /\
    (forall (r : ItemStatReporter) (i b : Z) (log : PhaseCallback.Log),
        let itemsReported := int32 (itemsReported_ r + i) in
        let bytesReported := int64 (bytesReported_ r + b) in
        (reportDelta i b r log).2
        = log ++ [PhaseCallback.UpdateDataProcessed i b]
              ++ (if itemsExpected_ r <? itemsReported
                  then [PhaseCallback.UpdateDataTotal
                          (int32 (itemsReported - itemsExpected_ r)) 0]
                  else [])
              ++ (if bytesExpected_ r <? bytesReported
                  then [PhaseCallback.UpdateDataTotal
                          0 (int64 (bytesReported - bytesExpected_ r))]
                  else []) /\
        (reportDelta i b r log).1
        = set_reported (Z.min itemsReported (itemsExpected_ r))
                       (Z.min bytesReported (bytesExpected_ r)) r) /\
    (forall log : PhaseCallback.Log,
        let run := reportDeltas deltas (ItemStatReporter_new ie be exc0) log in
        itemScope ie be deltas exc0 exc1 log
        = run.2 ++ [PhaseCallback.UpdateDataTotal (int32 (itemsReported_ run.1 - ie))
                                                  (int64 (bytesReported_ run.1 - be))]) /\
    itemScope 1 100 [(1, 120)] exc0 exc1 ([] : PhaseCallback.Log)
    = [PhaseCallback.UpdateDataProcessed 1 120;
       PhaseCallback.UpdateDataTotal 0 20;
       PhaseCallback.UpdateDataTotal 0 0].
Proof.
  intros ie be deltas exc0 exc1 acb Hacb Hexc acb' reported.
  destruct (itemScope_async ie be deltas exc0 exc1 acb Hacb) as (P1 & P2 & T1 & T2).
  fold acb' reported in P1, P2, T1, T2.
  assert (Hnormal : (exc0 <? exc1) = false) by (apply Z.ltb_ge; lia).
  rewrite Hnormal in T1, T2.
  refine (conj T1 (conj T2 (conj P1 (conj P2 (conj _ (conj _ (conj _ (conj _ _)))))))).
  - intros planned Hplanned. rewrite T1, Hplanned. wrap_solve.
  - intros planned Hplanned. rewrite T2, Hplanned. wrap_solve.
  - intros r i b log. split; [apply reportDelta_calls | apply reportDelta_reporter].
  - intros log. cbn zeta. by rewrite itemScope_calls, Hnormal.
  - rewrite itemScope_calls, Hnormal. by vm_compute.
Qed.

Lemma C2_normal_exit_witness :
  let acb' := itemScope 1 100 [(1, 120)] 0 0 AsyncCallback_new in
  itemsDeltaTotal_ acb' = 0 /\ bytesDeltaTotal_ acb' = 20 /\
  itemsDeltaProcessed_ acb' = 1 /\ bytesDeltaProcessed_ acb' = 120 /\
  (reportDelta 1 120 (ItemStatReporter_new 1 100 0) ([] : PhaseCallback.Log)).2
  = [PhaseCallback.UpdateDataProcessed 1 120; PhaseCallback.UpdateDataTotal 0 20] /\
  itemScope 1 100 [(1, 120)] 0 0 ([] : PhaseCallback.Log)
  = [PhaseCallback.UpdateDataProcessed 1 120; PhaseCallback.UpdateDataTotal 0 20]
    ++ [PhaseCallback.UpdateDataTotal 0 0].
Proof.
  destruct (C2_normal_exit_reconciliation 1 100 [(1, 120)] 0 0 AsyncCallback_new
              AsyncCallback_new_in_range ltac:(lia))
    as (T1 & T2 & P1 & P2 & _ & _ & Hreport & Hscope & _).
  cbn zeta. rewrite T1, T2, P1, P2.
  destruct (Hreport (ItemStatReporter_new 1 100 0) 1 120 []) as [-> _].
  rewrite (Hscope []). by vm_compute.
Defined.

(** The destructor on the failure path hands the callback exactly the
    reporter's accumulators. *)
Lemma destroy_scopeFail_calls r exc1 (log : PhaseCallback.Log) :
  exeptionCount_ r < exc1 ->
  ItemStatReporter_destroy exc1 r log
  = log ++ [PhaseCallback.UpdateDataTotal (itemsReported_ r) (bytesReported_ r)].
Proof.
  intros Hexc. unfold ItemStatReporter_destroy.
  by replace (exeptionCount_ r <? exc1) with true by (symmetry; apply Z.ltb_lt; lia).
Qed.

(** C3 (abnormal-exit reconciliation).  For every reporter constructed
    with expected (ie, be) whose [reportDelta] calls report the cumulative
    amount (i, b) and whose scope exits while more exceptions are in flight
    than at construction: the scope exit action is one [updateDataTotal]
    carrying the reporter's accumulators, and the reporter's additions to
    the total, overshoot additions included, come to (i, b).  The planned
    (ie, be) is not taken back, so a total that held it for this item ends
    up holding (ie + i, be + b). *)
Theorem C3_abnormal_exit_reconciliation :
  forall (ie be : Z) (deltas : list (Z * Z)) (exc0 exc1 : Z) (acb : AsyncCallback),
    counters_in_range acb ->
    exc0 < exc1 ->
    let acb' := itemScope ie be deltas exc0 exc1 acb in
    let reported := reportedSum deltas in
    itemsDeltaTotal_ acb' = int32 (itemsDeltaTotal_ acb + reported.1) /\
    bytesDeltaTotal_ acb' = int64 (bytesDeltaTotal_ acb + reported.2) /\
    (forall planned : Z,
        itemsDeltaTotal_ acb = int32 (planned + ie) ->
        itemsDeltaTotal_ acb' = int32 (planned + (ie + reported.1))) /\
    (forall planned : Z,
        bytesDeltaTotal_ acb = int64 (planned + be) ->
        bytesDeltaTotal_ acb' = int64 (planned + (be + reported.2))) /\
    (forall (r : ItemStatReporter) (log : PhaseCallback.Log),
        exeptionCount_ r = exc0 ->
        ItemStatReporter_destroy exc1 r log
        = log ++ [PhaseCallback.UpdateDataTotal (itemsReported_ r) (bytesReported_ r)]).
Proof.
  intros ie be deltas exc0 exc1 acb Hacb Hexc acb' reported.
  destruct (itemScope_async ie be deltas exc0 exc1 acb Hacb) as (_ & _ & T1 & T2).
  fold acb' reported in T1, T2.
  replace (exc0 <? exc1) with true in T1, T2 by (symmetry; apply Z.ltb_lt; lia).
  repeat split; try done.
  - intros planned Hplanned. rewrite T1, Hplanned. wrap_solve.
  - intros planned Hplanned. rewrite T2, Hplanned. wrap_solve.
  - intros r log Hr. apply destroy_scopeFail_calls. lia.
Qed.

Lemma C3_abnormal_exit_witness :
  let acb' := itemScope 1 100 [(0, 40)] 0 1 (updateDataTotal 1 100 AsyncCallback_new) in
  itemsDeltaTotal_ acb' = 1 + 0 /\ bytesDeltaTotal_ acb' = 100 + 40.
Proof.
  destruct (C3_abnormal_exit_reconciliation 1 100 [(0, 40)] 0 1
              (updateDataTotal 1 100 AsyncCallback_new)
              (updateDataTotal_in_range 1 100 _ AsyncCallback_new_in_range)
              ltac:(lia)) as (T1 & T2 & _).
  cbn zeta. rewrite T1, T2. vm_compute. split; reflexivity.
Defined.

(** ** ItemStatReporter: the clamp *)

(** A fresh reporter satisfies the clamp invariant when the expected
    amounts are not negative. *)
Lemma ItemStatReporter_new_clamped ie be exc :
  0 <= ie -> 0 <= be ->
  itemsReported_ (ItemStatReporter_new ie be exc) <= itemsExpected_ (ItemStatReporter_new ie be exc) /\
  bytesReported_ (ItemStatReporter_new ie be exc) <= bytesExpected_ (ItemStatReporter_new ie be exc).
Proof. by cbn. Qed.

(** C9, the claim as stated, fails in its second half.  The clamp
    invariant holds after every [reportDelta], but it does not make the
    correction of a normal scope exit non-positive: the correction is the
    [int] subtraction [itemsReported_ - itemsExpected_], and that
    overflows when the accumulator is far below the expected amount.  A
    reporter expecting 2147483647 items after [reportDelta(-2, 0)] holds
    -2 items, within the invariant; the difference -2147483649 is not an
    [int], and with wrap-around the normal exit passes
    [updateDataTotal(2147483647, 0)], a positive delta. *)
Lemma C9_counterexample :
  let r' := (reportDelta (-2) 0 (ItemStatReporter_new 2147483647 0 0)
               ([] : PhaseCallback.Log)).1 in
  itemsReported_ r' = -2 /\
  itemsReported_ r' <= itemsExpected_ r' /\
  bytesReported_ r' <= bytesExpected_ r' /\
  ~ (- INT_HALF <= itemsReported_ r' - itemsExpected_ r') /\
  ItemStatReporter_destroy 0 r' ([] : PhaseCallback.Log)
  = [PhaseCallback.UpdateDataTotal 2147483647 0] /\
  0 < 2147483647.
Proof. vm_compute. repeat split; try discriminate. intros Hle. by apply Hle. Qed.

(** C9 (clamp invariant), as the code has it.  After every [reportDelta]
    call, whatever the reporter's state before and whatever the delta, the
    accumulators satisfy [itemsReported_ <= itemsExpected_] and
    [bytesReported_ <= bytesExpected_].  Consequently the correction of a
    normal scope exit, [updateDataTotal(itemsReported_ - itemsExpected_,
    bytesReported_ - bytesExpected_)], passes no positive delta, provided
    the two differences, taken as the [int] and [int64_t] subtractions
    they are, do not overflow: growth of the workload from over-reporting
    is emitted by [reportDelta], as the amount above the expected one. *)
Theorem C9_clamp_invariant :
  forall (r : ItemStatReporter) (i b : Z) (log : PhaseCallback.Log),
    let r' := (reportDelta i b r log).1 in
    let itemsReported := int32 (itemsReported_ r + i) in
    let bytesReported := int64 (bytesReported_ r + b) in
    itemsReported_ r' <= itemsExpected_ r' /\
    bytesReported_ r' <= bytesExpected_ r' /\
    (forall (exc1 : Z) (log' : PhaseCallback.Log),
        exc1 <= exeptionCount_ r' ->
        - INT_HALF <= itemsReported_ r' - itemsExpected_ r' ->
        - INT64_HALF <= bytesReported_ r' - bytesExpected_ r' ->
        exists x y : Z,
          ItemStatReporter_destroy exc1 r' log' = log' ++ [PhaseCallback.UpdateDataTotal x y] /\
          x = itemsReported_ r' - itemsExpected_ r' /\
          y = bytesReported_ r' - bytesExpected_ r' /\
          x <= 0 /\ y <= 0) /\
    (reportDelta i b r log).2
    = log ++ [PhaseCallback.UpdateDataProcessed i b]
          ++ (if itemsExpected_ r <? itemsReported
              then [PhaseCallback.UpdateDataTotal (int32 (itemsReported - itemsExpected_ r)) 0]
              else [])
          ++ (if bytesExpected_ r <? bytesReported
              then [PhaseCallback.UpdateDataTotal 0 (int64 (bytesReported - bytesExpected_ r))]
              else []).
Proof.
  intros r i b log r' itemsReported bytesReported.
  assert (Hi : itemsReported_ r' <= itemsExpected_ r').
  { subst r'. rewrite reportDelta_reporter. cbn. lia. }
  assert (Hb : bytesReported_ r' <= bytesExpected_ r').
  { subst r'. rewrite reportDelta_reporter. cbn. lia. }
  split; [exact Hi |]. split; [exact Hb |]. split; [| apply reportDelta_calls].
  intros exc1 log' Hexc Hri Hrb.
  exists (itemsReported_ r' - itemsExpected_ r'), (bytesReported_ r' - bytesExpected_ r').
  split; [| lia].
  unfold ItemStatReporter_destroy.
  replace (exeptionCount_ r' <? exc1) with false by (symmetry; apply Z.ltb_ge; lia).
  cbn. rewrite int32_id, int64_id; [done | |]; unfold is_int64, is_int32, in_range.
  - pose proof INT64_HALF_pos. lia.
  - pose proof INT_HALF_pos. lia.
Qed.

Lemma C9_clamp_witness :
  let r' := (reportDelta 1 120 (ItemStatReporter_new 1 100 0) ([] : PhaseCallback.Log)).1 in
  itemsReported_ r' <= itemsExpected_ r' /\
  bytesReported_ r' <= bytesExpected_ r' /\
  exists x y : Z,
    ItemStatReporter_destroy 0 r' ([] : PhaseCallback.Log)
    = [PhaseCallback.UpdateDataTotal x y] /\
    x <= 0 /\ y <= 0.
Proof.
  destruct (C9_clamp_invariant (ItemStatReporter_new 1 100 0) 1 120 [])
    as (Hi & Hb & Hexit & _).
  cbn zeta. split; [exact Hi |]. split; [exact Hb |].
  destruct (Hexit 0 []) as (x & y & Hcall & _ & _ & Hx & Hy).
  - vm_compute. discriminate.
  - vm_compute. discriminate.
  - vm_compute. discriminate.
  - exists x, y. split; [exact Hcall | by split].
Defined.

(** ** Status registry: the representative message *)

Lemma countParallelOps_acc buckets (n : nat) :
  fold_left (fun parallelOpsTotal sbp =>
               (parallelOpsTotal + if bucket_empty sbp then 0 else 1)%nat) buckets n
  = (n + parallel_ops buckets)%nat.
Proof.
  revert n. unfold parallel_ops.
  induction buckets as [|sbp buckets IH]; intros n; simpl; [lia |].
  rewrite IH, filter_cons. destruct sbp; simpl; lia.
Qed.

(** The counting loop counts the non-empty buckets. *)
Lemma countParallelOps_spec buckets : countParallelOps buckets = parallel_ops buckets.
Proof. unfold countParallelOps. by rewrite countParallelOps_acc. Qed.

Lemma find_app_first {A : Type} (p : A -> bool) (l1 l2 : list A) :
  List.find p (l1 ++ l2)
  = match List.find p l1 with Some x => Some x | None => List.find p l2 end.
Proof. induction l1 as [|x l1 IH]; simpl; [done |]. by destruct (p x). Qed.

Lemma firstStatusMsg_find sbp :
  firstStatusMsg sbp
  = statusMsg <$> List.find (fun ts => negb (wstring_empty (statusMsg ts))) sbp.
Proof.
  induction sbp as [|ts sbp IH]; simpl; [done |].
  by destruct (negb (wstring_empty (statusMsg ts))).
Qed.

(** The nested search loops return the first non-empty message in
    priority order. *)
Lemma firstStatusMsgByPriority_spec buckets :
  firstStatusMsgByPriority buckets = first_nonempty_message buckets.
Proof.
  unfold first_nonempty_message.
  induction buckets as [|sbp buckets IH]; simpl; [done |].
  rewrite find_app_first, firstStatusMsg_find, IH.
  by destruct (List.find _ sbp).
Qed.








(** ** Retry wrapper *)

Section TryReportingErrorLaws.
Context {W X : Type}.
Variable cmd : W -> CmdOutcome X * W.
Variable now : W -> Z * W.
Variable reportError : PhaseCallback.ErrorInfo -> W -> CbOutcome X * W.

(** One iteration of the loop, for any command, clock and callback. *)
Lemma tryReportingError_from_step fuel retryNumber w :
  tryReportingError_from cmd now reportError (S fuel) retryNumber w
  = match (cmd w).1 with
    | CmdReturned => Some (Returned EmptyString, (cmd w).2)
    | CmdThrew x => Some (Threw x, (cmd w).2)
    | CmdFileError e =>
        let t := (now (cmd w).2).1 in
        let w1 := (now (cmd w).2).2 in
        let info := PhaseCallback.MkErrorInfo e t retryNumber in
        match (reportError info w1).1 with
        | CbResponse PhaseCallback.ignore => Some (Returned e, (reportError info w1).2)
        | CbResponse PhaseCallback.retry =>
            tryReportingError_from cmd now reportError fuel (size_t (retryNumber + 1))
              (reportError info w1).2
        | CbThrew x => Some (Threw x, (reportError info w1).2)
        end
    end.
Proof.
  simpl. destruct (cmd w) as [[|e|x] w0]; cbn; try done.
  destruct (now w0) as [t w1]; cbn.
  by destruct (reportError _ w1) as [[[|]|x] w2].
Qed.

(** More fuel does not change a result already reached. *)
Lemma tryReportingError_from_fuel fuel fuel' retryNumber w r :
  (fuel <= fuel')%nat ->
  tryReportingError_from cmd now reportError fuel retryNumber w = Some r ->
  tryReportingError_from cmd now reportError fuel' retryNumber w = Some r.
Proof.
  revert fuel' retryNumber w.
  induction fuel as [|fuel IH]; intros fuel' retryNumber w Hle Hrun; [done |].
  destruct fuel' as [|fuel']; [lia |].
  rewrite tryReportingError_from_step in Hrun |- *.
  destruct (cmd w).1; try done. cbn zeta in *.
  destruct (reportError _ _).1 as [[|]|]; try done.
  apply IH; [lia | done].
Qed.

End TryReportingErrorLaws.

Lemma size_t_succ (k : nat) : size_t (size_t (Z.of_nat k) + 1) = size_t (Z.of_nat (S k)).
Proof. unfold size_t. rewrite Zplus_mod_idemp_l. f_equal. lia. Qed.

Lemma errorsUpTo_length {X : Type} (s : Script X) n : length (errorsUpTo s n) = n.
Proof. unfold errorsUpTo. by rewrite length_map, length_seq. Qed.

Lemma errorsUpTo_S {X : Type} (s : Script X) n :
  errorsUpTo s (S n) = errorsUpTo s n ++ [errorInfoAt s n].
Proof. unfold errorsUpTo. by rewrite seq_S, map_app. Qed.

(** A retried failure: one more call of the command, one more reading of
    the clock, one more error reported, the retry number one higher. *)
Lemma scripted_retry_step {X : Type} (s : Script X) k fuel :
  retriedAt s k ->
  tryReportingError_from (scripted_cmd s) (scripted_now s) (scripted_reportError s)
    (S fuel) (size_t (Z.of_nat k)) (MkEnv k k (errorsUpTo s k))
  = tryReportingError_from (scripted_cmd s) (scripted_now s) (scripted_reportError s)
      fuel (size_t (Z.of_nat (S k))) (MkEnv (S k) (S k) (errorsUpTo s (S k))).
Proof.
  intros [[e He] Hcb]. rewrite tryReportingError_from_step. cbn.
  rewrite He. cbn. rewrite errorsUpTo_length.
  assert (Hinfo : PhaseCallback.MkErrorInfo e (clockScript s k) (size_t (Z.of_nat k))
                  = errorInfoAt s k) by (unfold errorInfoAt; by rewrite He).
  rewrite Hinfo, Hcb, size_t_succ. by rewrite <- errorsUpTo_S.
Qed.

Lemma scripted_retries {X : Type} (s : Script X) n fuel :
  (forall k, (k < n)%nat -> retriedAt s k) ->
  tryReportingError_scripted s (n + fuel)
  = tryReportingError_from (scripted_cmd s) (scripted_now s) (scripted_reportError s)
      fuel (size_t (Z.of_nat n)) (MkEnv n n (errorsUpTo s n)).
Proof.
  revert fuel. induction n as [|n IH]; intros fuel Hretried; [done |].
  replace (S n + fuel)%nat with (n + S fuel)%nat by lia.
  rewrite IH by (intros k Hk; apply Hretried; lia).
  apply scripted_retry_step, Hretried. lia.
Qed.

(** Scenario S3 of the spec, run: the command fails once, the callback
    answers [ignore]; the message comes back, and the command was called
    once. *)
Example tryReportingError_S3 :
  tryReportingError_scripted script_S3 5
  = Some (Returned "X", MkEnv 1 1 [PhaseCallback.MkErrorInfo "X" 1000 0]).
Proof. vm_compute. reflexivity. Qed.

(** C4 (retry wrapper).  For every command and callback, given as the
    script of what their calls yield: [tryReportingError] calls the command
    with the retry number at 0; for each [FileError] it calls
    [cb.reportError] with the error's message, a reading of the clock and
    the current retry number; after [n] failures answered [retry] the
    command has been called again each time and the retry numbers reported
    are 0, 1, ..., n - 1 in this order; and the call of the command after
    those
    - returns: the result is the empty string;
    - fails with a [FileError] answered [ignore]: the result is the
      error's message and the command is not called again;
    - throws anything else, or the callback throws: that exception
      propagates, unchanged.
    [fuel] only needs to exceed the number of retries. *)
Theorem C4_try_reporting_error :
  forall (X : Type) (s : Script X) (n fuel : nat),
    (forall k, (k < n)%nat -> retriedAt s k) ->
    (n < fuel)%nat ->
    let run := tryReportingError_scripted s fuel in
    (forall k e, cmdScript s k = CmdFileError e ->
        errorInfoAt s k
        = PhaseCallback.MkErrorInfo e (clockScript s k) (size_t (Z.of_nat k))) /\
    PhaseCallback.retryNumber (errorInfoAt s 0) = 0 /\
    (cmdScript s n = CmdReturned ->
       run = Some (Returned EmptyString, MkEnv (S n) n (errorsUpTo s n))) /\
    (forall e, cmdScript s n = CmdFileError e ->
       cbScript s n (errorInfoAt s n) = CbResponse PhaseCallback.ignore ->
       run = Some (Returned e, MkEnv (S n) (S n) (errorsUpTo s n ++ [errorInfoAt s n]))) /\
    (forall x, cmdScript s n = CmdThrew x ->
       run = Some (Threw x, MkEnv (S n) n (errorsUpTo s n))) /\
    (forall e x, cmdScript s n = CmdFileError e ->
       cbScript s n (errorInfoAt s n) = CbThrew x ->
       run = Some (Threw x, MkEnv (S n) (S n) (errorsUpTo s n ++ [errorInfoAt s n]))).
Proof.
  intros X s n fuel Hretried Hfuel run.
  assert (Hinfo : forall k e, cmdScript s k = CmdFileError e ->
             errorInfoAt s k
             = PhaseCallback.MkErrorInfo e (clockScript s k) (size_t (Z.of_nat k))).
  { intros k e He. unfold errorInfoAt. by rewrite He. }
  split; [exact Hinfo |]. split; [done |].
  assert (Hrun : run = tryReportingError_from (scripted_cmd s) (scripted_now s)
                         (scripted_reportError s) (S (fuel - S n))
                         (size_t (Z.of_nat n)) (MkEnv n n (errorsUpTo s n))).
  { subst run. replace fuel with (n + S (fuel - S n))%nat at 1 by lia.
    by apply scripted_retries. }
  rewrite Hrun, tryReportingError_from_step. cbn. rewrite errorsUpTo_length.
  repeat split.
  - by intros ->.
  - intros e He Hcb. rewrite He. cbn. rewrite <- (Hinfo _ _ He). by rewrite Hcb.
  - by intros x ->.
  - intros e x He Hcb. rewrite He. cbn. rewrite <- (Hinfo _ _ He). by rewrite Hcb.
Qed.

(** Scenario S2 of the spec: two failures with message "X", both answered
    [retry], then success.  [reportError] was called with retry numbers 0
    and 1, the command three times, and the result is the empty string. *)
Lemma C4_try_reporting_error_witness :
  tryReportingError_scripted script_S2 3
  = Some (Returned EmptyString,
          MkEnv 3 2 [PhaseCallback.MkErrorInfo "X" 1000 0;
                     PhaseCallback.MkErrorInfo "X" 1001 1]).
Proof.
  assert (Hretried : forall k, (k < 2)%nat -> retriedAt script_S2 k).
  { intros k Hk. split; [| reflexivity].
    exists "X". destruct k as [|[|k]]; [reflexivity | reflexivity | lia]. }
  destruct (C4_try_reporting_error string script_S2 2 3 Hretried ltac:(lia))
    as (_ & _ & Hreturned & _).
  rewrite Hreturned by reflexivity. vm_compute. reflexivity.
Defined.

(** Conversely, every scripted run that ends went through some number [n]
    of retried failures and ended at the call after them, so the cases of
    the theorem above are all there are. *)
Lemma scripted_run_shape {X : Type} (s : Script X) fuel j o w :
  (forall k, (k < j)%nat -> retriedAt s k) ->
  tryReportingError_from (scripted_cmd s) (scripted_now s) (scripted_reportError s)
    fuel (size_t (Z.of_nat j)) (MkEnv j j (errorsUpTo s j)) = Some (o, w) ->
  exists n, (j <= n < j + fuel)%nat /\
            (forall k, (k < n)%nat -> retriedAt s k) /\
            ~ retriedAt s n /\ cmdCalls w = S n.
Proof.
  revert j. induction fuel as [|fuel IH]; intros j Hj Hrun; [done |].
  destruct (cmdScript s j) as [|e|x] eqn:Hcmd.
  - rewrite tryReportingError_from_step in Hrun. cbn in Hrun. rewrite Hcmd in Hrun.
    injection Hrun as <- <-. exists j. split; [lia |]. split; [done |]. split; [| done].
    intros [[e He] _]. congruence.
  - destruct (cbScript s j (errorInfoAt s j)) as [[|]|x] eqn:Hcb.
    + rewrite tryReportingError_from_step in Hrun. cbn in Hrun.
      rewrite Hcmd, errorsUpTo_length in Hrun. cbn in Hrun.
      replace (PhaseCallback.MkErrorInfo e (clockScript s j) (size_t (Z.of_nat j)))
        with (errorInfoAt s j) in Hrun by (unfold errorInfoAt; by rewrite Hcmd).
      rewrite Hcb in Hrun. injection Hrun as <- <-.
      exists j. split; [lia |]. split; [done |]. split; [| done]. intros [_ Hr]. congruence.
    + assert (Hr : retriedAt s j) by (split; [by exists e | done]).
      rewrite (scripted_retry_step s j fuel Hr) in Hrun.
      destruct (IH (S j)) as (n & Hn & Hall & Hnot & Hcalls); [| done |].
      * intros k Hk. destruct (decide (k = j)) as [-> | Hne]; [done | apply Hj; lia].
      * exists n. split; [lia |]. by split.
    + rewrite tryReportingError_from_step in Hrun. cbn in Hrun.
      rewrite Hcmd, errorsUpTo_length in Hrun. cbn in Hrun.
      replace (PhaseCallback.MkErrorInfo e (clockScript s j) (size_t (Z.of_nat j)))
        with (errorInfoAt s j) in Hrun by (unfold errorInfoAt; by rewrite Hcmd).
      rewrite Hcb in Hrun. injection Hrun as <- <-.
      exists j. split; [lia |]. split; [done |]. split; [| done]. intros [_ Hr]. congruence.
  - rewrite tryReportingError_from_step in Hrun. cbn in Hrun. rewrite Hcmd in Hrun.
    injection Hrun as <- <-. exists j. split; [lia |]. split; [done |]. split; [| done].
    intros [[e He] _]. congruence.
Qed.

(** ** Mass-parallel executor: the guard *)

Section MassParallelExecuteFacts.
Context {AfsDevice : Type} `{Countable AfsDevice}.
Context {AfsPath ParallelWorkItem : Type}.
Context {PhaseCb X : Type}.

Lemma perDeviceWorkload_fold_nonempty
    (workload : list (@AbstractPath AfsDevice AfsPath * ParallelWorkItem))
    (m : gmap AfsDevice (list (@AbstractPath AfsDevice AfsPath * ParallelWorkItem))) :
  m ≠ ∅ ->
  fold_left (fun m item =>
               <[afsDevice item.1 := default [] (m !! afsDevice item.1) ++ [item]]> m)
            workload m ≠ ∅.
Proof.
  revert m. induction workload as [|item workload IH]; intros m Hm; simpl; [done |].
  apply IH, insert_non_empty.
Qed.

(** The map of devices is empty exactly for the empty workload. *)
Lemma perDeviceWorkload_empty_iff
    (workload : list (@AbstractPath AfsDevice AfsPath * ParallelWorkItem)) :
  perDeviceWorkload workload = ∅ <-> workload = [].
Proof.
  split; [| by intros ->].
  destruct workload as [|item workload]; [done |].
  intros Hempty. exfalso. revert Hempty. unfold perDeviceWorkload. simpl.
  apply perDeviceWorkload_fold_nonempty, insert_non_empty.
Qed.

End MassParallelExecuteFacts.

(** C7 (empty-workload safety).  For the empty workload
    [massParallelExecute] returns at its guard: whatever the thread groups
    and the wait loop would do, they are not reached, so no thread group
    is set up and the phase callback comes back as it went in, no
    operation of it having been called, and nothing is thrown.  The guard
    is taken for the empty workload only. *)
Theorem C7_empty_workload :
  forall (AfsDevice : Type) (EqD : EqDecision AfsDevice) (Cnt : Countable AfsDevice)
         (AfsPath ParallelWorkItem PhaseCb X : Type)
         (device_le : relation AfsDevice) (DecLe : RelDecision device_le)
         (getDisplayPath : AfsDevice -> wstring)
         (runThreadGroups : AsyncCallback
                            -> list (@ThreadGroupPlan AfsDevice AfsPath ParallelWorkItem)
                            -> PhaseCb -> PhaseCb * option X)
         (threadGroupName : wstring) (callback : PhaseCb),
    massParallelExecute device_le getDisplayPath runThreadGroups [] threadGroupName callback
      = (callback, None) /\
    threadGroupPlans device_le getDisplayPath threadGroupName
      (perDeviceWorkload ([] : list (@AbstractPath AfsDevice AfsPath * ParallelWorkItem)))
      = [] /\
    (forall workload : list (@AbstractPath AfsDevice AfsPath * ParallelWorkItem),
        workload <> [] ->
        massParallelExecute device_le getDisplayPath runThreadGroups workload
          threadGroupName callback
        = runThreadGroups AsyncCallback_new
            (threadGroupPlans device_le getDisplayPath threadGroupName
               (perDeviceWorkload workload))
            callback).
Proof.
  intros. split; [| split].
  - unfold massParallelExecute. by rewrite decide_True.
  - unfold threadGroupPlans, devicesInOrder, perDeviceWorkload. simpl.
    by rewrite map_to_list_empty.
  - intros workload Hne. unfold massParallelExecute.
    rewrite decide_False; [done |]. by rewrite perDeviceWorkload_empty_iff.
Qed.

Lemma C7_empty_workload_witness :
  massParallelExecute (AfsDevice := nat) (AfsPath := wstring) (ParallelWorkItem := unit)
    (X := unit) Nat.le
    (fun _ => "dev")
    (fun _ plans (log : PhaseCallback.Log) =>
       (log ++ [PhaseCallback.LogInfo (pretty.pretty (length plans))], None))
    [(MkAbstractPath 7%nat "a", tt); (MkAbstractPath 7%nat "b", tt);
     (MkAbstractPath 9%nat "c", tt)] "Sync" []
  = ([PhaseCallback.LogInfo "2"], None).
Proof.
  destruct (C7_empty_workload nat _ _ wstring unit PhaseCallback.Log unit Nat.le _
              (fun _ => "dev")
              (fun _ plans (log : PhaseCallback.Log) =>
                 (log ++ [PhaseCallback.LogInfo (pretty.pretty (length plans))], None))
              "Sync" []) as (_ & _ & Hrun).
  rewrite Hrun by discriminate. vm_compute. reflexivity.
Defined.

(** The guard at work on a recording phase callback, with thread groups
    that would log a message if they were ever run. *)
Example massParallelExecute_empty_log :
  massParallelExecute (AfsDevice := nat) (AfsPath := wstring) (ParallelWorkItem := unit)
    (X := unit) Nat.le
    (fun _ => "dev")
    (fun _ _ (log : PhaseCallback.Log) => (log ++ [PhaseCallback.LogInfo "ran"], None))
    [] "Sync" []
  = ([], None).
Proof. reflexivity. Qed.

(** ** Request channel: the error slots *)

(** The drain leaves the request slots and the registry alone. *)
Lemma reportStats_frame {C : Type} `{StatCallback C} (cb : C) a :
  errorRequest_ (reportStats cb a).1 = errorRequest_ a /\
  errorResponse_ (reportStats cb a).1 = errorResponse_ a /\
  logInfoRequest_ (reportStats cb a).1 = logInfoRequest_ a /\
  finishNowRequest_ (reportStats cb a).1 = finishNowRequest_ a /\
  statusByPriority_ (reportStats cb a).1 = statusByPriority_ a.
Proof.
  unfold reportStats. cbn.
  destruct (negb (itemsDeltaProcessed_ a =? 0) || negb (bytesDeltaProcessed_ a =? 0)); cbn;
    match goal with |- context [if ?c then _ else _] => destruct c end; by cbn.
Qed.

Lemma workerCall_frame c a :
  errorRequest_ (workerCall c a) = errorRequest_ a /\
  errorResponse_ (workerCall c a) = errorResponse_ a.
Proof. by destruct c. Qed.

Section RequestChannelFacts.
Context {X : Type}.
Variable translate_P : wstring -> wstring -> nat -> wstring.

Local Abbreviation Channel := (@Channel X).
Local Abbreviation Action := (@Action X).
Local Abbreviation step := (@step X translate_P).
Local Abbreviation run := (@run X translate_P).
Local Abbreviation reachable := (@reachable X translate_P).

(** What the main thread's wake-up does to the error slots: the request,
    the workers and the poster stay; a response appears only where a
    request was pending without one. *)
Lemma mainWake_frame errorAnswer logInfoThrows (s : Channel) :
  let s' := mainWake errorAnswer logInfoThrows s in
  workers s' = workers s /\ poster s' = poster s /\
  errorRequest_ (acb s') = errorRequest_ (acb s) /\
  (errorResponse_ (acb s') = errorResponse_ (acb s) \/
   (errorResponse_ (acb s) = None /\ errorRequest_ (acb s) <> None /\
    errorAnswer = CbResponse (default PhaseCallback.ignore (errorResponse_ (acb s'))) /\
    errorResponse_ (acb s') <> None)).
Proof.
  cbn zeta. unfold mainWake.
  destruct (errorRequest_ (acb s)) as [e|] eqn:Hreq,
           (errorResponse_ (acb s)) as [rv|] eqn:Hresp,
           errorAnswer as [rv'|x], (logInfoRequest_ (acb s)) as [m|] eqn:Hlog,
           logInfoThrows as [x'|], (finishNowRequest_ (acb s)) eqn:Hfin;
    cbn; rewrite ?Hlog, ?Hfin; cbn;
    try match goal with
        | |- context [@reportStats ?C ?I ?l ?a] =>
            let Hf := fresh in
            pose proof (@reportStats_frame C I l a) as Hf;
            destruct (@reportStats C I l a) as [a' l']; cbn in Hf |- *;
            destruct Hf as (Hf1 & Hf2 & _); rewrite ?Hf1, ?Hf2
        end;
    cbn; rewrite ?Hreq, ?Hresp;
    (split; [done |]); (split; [done |]); (split; [done |]);
    first [by left | right; by repeat split].
Qed.

Lemma mainTick_frame updateStatusThrows (s : Channel) :
  let s' := mainTick translate_P updateStatusThrows s in
  workers s' = workers s /\ poster s' = poster s /\
  errorRequest_ (acb s') = errorRequest_ (acb s) /\
  errorResponse_ (acb s') = errorResponse_ (acb s).
Proof.
  cbn zeta. unfold mainTick. destruct updateStatusThrows as [x|]; [done |].
  match goal with
  | |- context [@reportStats ?C ?I ?l ?a] =>
      pose proof (@reportStats_frame C I l a) as Hf;
      destruct (@reportStats C I l a) as [a' l']; cbn in Hf |- *;
      destruct Hf as (Hf1 & Hf2 & _)
  end.
  by rewrite Hf1, Hf2.
Qed.

Lemma set_worker_eq t pc (w : ThreadId -> WorkerPc) : set_worker t pc w t = pc.
Proof. unfold set_worker. by rewrite decide_True. Qed.

Lemma set_worker_ne t t' pc (w : ThreadId -> WorkerPc) :
  t' <> t -> set_worker t pc w t' = w t'.
Proof. intros Hne. unfold set_worker. by rewrite decide_False. Qed.

Lemma step_kinds (act : Action) (s s' : Channel) :
  step act s = Some s' ->
  step_keeps act s s' \/ step_posts act s s' \/ step_consumes act s s'.
Proof.
  intros Hstep. destruct act as [t e|t|t|t m|t|t|c| |ea lt|ust]; cbn in Hstep.
  - destruct (worker_free (workers s t)) eqn:Hfree; [| done].
    injection Hstep as <-. left. repeat split; cbn; auto.
    intros t'. unfold set_worker. case_decide; [done | auto].
  - destruct (workers s t) as [|e| | | |] eqn:Hw; try done.
    destruct (errorRequest_ (acb s)) eqn:Hreq; [done |].
    destruct (errorResponse_ (acb s)) eqn:Hresp; [done |].
    injection Hstep as <-. right. left. exists t, e. by repeat split.
  - destruct (workers s t) eqn:Hw; try done.
    destruct (errorResponse_ (acb s)) as [rv|] eqn:Hresp; [| done].
    injection Hstep as <-. right. right. exists t, rv. by repeat split.
  - destruct (worker_free (workers s t)) eqn:Hfree; [| done].
    injection Hstep as <-. left. repeat split; cbn; auto.
    intros t'. unfold set_worker. case_decide; [done | auto].
  - destruct (workers s t) eqn:Hw; try done.
    destruct (logInfoRequest_ (acb s)) eqn:Hlog; [done |].
    injection Hstep as <-. left. repeat split; cbn; auto.
    intros t'. unfold set_worker. case_decide; [done | auto].
  - left. destruct (workers s t) eqn:Hw; try done;
      injection Hstep as <-; repeat split; cbn; auto;
      intros t'; unfold set_worker; case_decide; try done; auto.
  - injection Hstep as <-. left. destruct (workerCall_frame c (acb s)) as [Hq Hp].
    repeat split; cbn; auto.
  - injection Hstep as <-. left. repeat split; cbn; auto.
  - destruct (mainPc s); try done.
    destruct (mainWakeCondition (acb s)); [| done].
    injection Hstep as <-. left.
    destruct (mainWake_frame ea lt s) as (Hw & Hp & Hq & Hr).
    repeat split; auto.
    + destruct Hr as [Hr | (H1 & H2 & _ & H3)]; [by left |].
      right. repeat split; eauto.
    + intros t. by rewrite Hw.
  - destruct (mainPc s); try done.
    destruct (mainWakeCondition (acb s)); [done |].
    injection Hstep as <-. left.
    destruct (mainTick_frame ust s) as (Hw & Hp & Hq & Hr).
    repeat split; auto. intros t. by rewrite Hw.
Qed.

Lemma Channel_new_inv : error_slot_inv (@Channel_new X).
Proof. by repeat split. Qed.

Lemma step_preserves_inv (act : Action) (s s' : Channel) :
  error_slot_inv s -> step act s = Some s' -> error_slot_inv s'.
Proof.
  intros (I1 & I2 & I3) Hstep.
  destruct (step_kinds act s s' Hstep)
    as [(Hp & Hq & Hr & Hw) | [(t & e & _ & Hwt & Hq & Hr & Hq' & Hr' & Hp' & Hw')
                              | (t & rv & _ & Hwt & Hr & Hq' & Hr' & Hp' & Hw')]].
  - split; [| split].
    + intros t Ht. rewrite Hp. auto.
    + by rewrite Hp, Hq.
    + rewrite Hq. destruct Hr as [-> | (_ & Hreq & _)]; auto.
  - split; [| split].
    + intros t' Ht'. rewrite Hw' in Ht'. rewrite Hp'.
      destruct (decide (t' = t)) as [-> | Hne]; [done |].
      rewrite set_worker_ne in Ht' by done.
      apply I1 in Ht'. apply I2 in Hq. congruence.
    + rewrite Hp', Hq'. by split.
    + by rewrite Hr'.
  - split; [| split].
    + intros t' Ht'. rewrite Hw' in Ht'.
      destruct (decide (t' = t)) as [-> | Hne].
      * by rewrite set_worker_eq in Ht'.
      * rewrite set_worker_ne in Ht' by done.
        apply I1 in Ht', Hwt. congruence.
    + by rewrite Hp', Hq'.
    + by rewrite Hr'.
Qed.

Lemma run_preserves_inv (acts : list Action) (s s' : Channel) :
  error_slot_inv s -> run acts s = Some s' -> error_slot_inv s'.
Proof.
  revert s. induction acts as [|act acts IH]; intros s Hinv Hrun; simpl in Hrun.
  - by injection Hrun as <-.
  - destruct (step act s) as [s1|] eqn:Hstep; [| done].
    eapply IH; [| done]. by eapply step_preserves_inv.
Qed.

Lemma reachable_inv (s : Channel) : reachable s -> error_slot_inv s.
Proof. intros [acts Hrun]. eapply run_preserves_inv; [apply Channel_new_inv | done]. Qed.

Lemma run_app (acts1 acts2 : list Action) (s : Channel) :
  run (acts1 ++ acts2) s
  = match run acts1 s with Some s1 => run acts2 s1 | None => None end.
Proof.
  revert s. induction acts1 as [|act acts1 IH]; intros s; simpl; [done |].
  by destruct (step act s).
Qed.

Lemma reachable_step (act : Action) (s s' : Channel) :
  reachable s -> step act s = Some s' -> reachable s'.
Proof.
  intros [acts Hrun] Hstep. exists (acts ++ [act]).
  rewrite run_app, Hrun. simpl. by rewrite Hstep.
Qed.

(** A pending request stays where it is, with its poster, until that
    poster reads the response. *)
Lemma pending_until_consumed (mid : list Action) (s1 s2 : Channel) t1 :
  error_slot_inv s1 -> poster s1 = Some t1 ->
  run mid s1 = Some s2 ->
  In (ConsumeResponse t1) mid \/
  (poster s2 = Some t1 /\ errorRequest_ (acb s2) <> None).
Proof.
  revert s1. induction mid as [|act mid IH]; intros s1 Hinv Hposter Hrun;
    simpl in Hrun.
  - injection Hrun as <-. right. split; [done |].
    destruct Hinv as (_ & I2 & _). intros Hq. apply I2 in Hq. congruence.
  - destruct (step act s1) as [s'|] eqn:Hstep; [| done].
    pose proof (step_preserves_inv act s1 s' Hinv Hstep) as Hinv'.
    destruct Hinv as (I1 & I2 & _).
    destruct (step_kinds act s1 s' Hstep)
      as [(Hp & _) | [(t & e & _ & _ & Hq & _) | (t & rv & -> & Hwt & _)]].
    + destruct (IH s' Hinv') as [Hin | Hpending]; [congruence | done | |].
      * left. by right.
      * by right.
    + apply I2 in Hq. congruence.
    + apply I1 in Hwt. left. left. congruence.
Qed.

End RequestChannelFacts.

(** C8 (error-slot exclusivity).  In every reachable state of the request
    channel:
    - at most one worker is waiting for a response, and it is the worker
      that wrote the pending request;
    - while a request or a response is in its slot, no [reportError] can
      write its request: the posting step is not enabled;
    - a poster proceeds only from a state where both slots are empty;
    - a transition that empties the request slot or the response slot is
      the poster of that request reading the response, and it empties
      both;
    - so after a worker has posted, no other post happens before that
      worker has read its response. *)
Theorem C8_error_slot_exclusivity :
  forall (X : Type) (translate_P : wstring -> wstring -> nat -> wstring) (s : @Channel X),
    reachable translate_P s ->
    (forall t1 t2,
        workers s t1 = WErrorWaitResponse -> workers s t2 = WErrorWaitResponse -> t1 = t2) /\
    (forall t,
        workers s t = WErrorWaitResponse ->
        poster s = Some t /\ errorRequest_ (acb s) <> None) /\
    (forall t,
        errorRequest_ (acb s) <> None \/ errorResponse_ (acb s) <> None ->
        step translate_P (PostError t) s = None) /\
    (forall t s',
        step translate_P (PostError t) s = Some s' ->
        errorRequest_ (acb s) = None /\ errorResponse_ (acb s) = None /\
        poster s' = Some t /\
        exists e, workers s t = WErrorWaitSlot e /\ errorRequest_ (acb s') = Some e) /\
    (forall act s',
        step translate_P act s = Some s' ->
        (errorRequest_ (acb s) <> None /\ errorRequest_ (acb s') = None) \/
        (errorResponse_ (acb s) <> None /\ errorResponse_ (acb s') = None) ->
        exists t rv,
          act = ConsumeResponse t /\ poster s = Some t /\
          errorResponse_ (acb s) = Some rv /\ workers s' t = WErrorReturned rv /\
          errorRequest_ (acb s') = None /\ errorResponse_ (acb s') = None) /\
    (forall t1 s1 mid s2 t2,
        step translate_P (PostError t1) s = Some s1 ->
        run translate_P mid s1 = Some s2 ->
        is_Some (step translate_P (PostError t2) s2) ->
        In (ConsumeResponse t1) mid).
Proof.
  intros X translate_P s Hreach.
  pose proof (reachable_inv translate_P s Hreach) as Hinv.
  destruct Hinv as (I1 & I2 & I3).
  assert (Hposted : forall t s', step translate_P (PostError t) s = Some s' ->
            errorRequest_ (acb s) = None /\ errorResponse_ (acb s) = None /\
            poster s' = Some t /\
            exists e, workers s t = WErrorWaitSlot e /\ errorRequest_ (acb s') = Some e).
  { intros t s' Hstep.
    destruct (step_kinds translate_P _ s s' Hstep)
      as [(_ & _ & _ & _) | [(t' & e & Hact & Hwt & Hq & Hr & Hq' & _ & Hp' & _)
                            | (t' & rv & Hact & _)]].
    - cbn in Hstep. destruct (workers s t); try done.
      destruct (errorRequest_ (acb s)); [done |].
      destruct (errorResponse_ (acb s)); [done |].
      injection Hstep as <-. cbn. repeat split; eauto.
    - injection Hact as ->. repeat split; eauto.
    - done. }
  split; [| split; [| split; [| split; [exact Hposted | split]]]].
  - intros t1 t2 H1 H2. apply I1 in H1, H2. congruence.
  - intros t Ht. apply I1 in Ht. split; [done |].
    intros Hq. apply I2 in Hq. congruence.
  - intros t Hpending. cbn.
    destruct (workers s t); try done.
    destruct (errorRequest_ (acb s)) eqn:Hq; [done |].
    destruct (errorResponse_ (acb s)) eqn:Hr; [done |].
    by destruct Hpending.
  - intros act s' Hstep Hcleared.
    destruct (step_kinds translate_P act s s' Hstep)
      as [(_ & Hq & Hr & _) | [(t & e & _ & _ & Hq & Hr & _)
                              | (t & rv & -> & Hwt & Hr & Hq' & Hr' & _ & Hw')]].
    + exfalso. destruct Hcleared as [[Hq1 Hq2] | [Hr1 Hr2]].
      * congruence.
      * destruct Hr as [Hr | (Hr & _ & Hr' & _)]; congruence.
    + exfalso. destruct Hcleared as [[Hq1 _] | [Hr1 _]]; congruence.
    + exists t, rv. repeat split; auto.
      rewrite Hw'. apply set_worker_eq.
  - intros t1 s1 mid s2 t2 Hstep1 Hrun [s3 Hstep2].
    destruct (Hposted t1 s1 Hstep1) as (_ & _ & Hp1 & _).
    assert (Hinv1 : error_slot_inv s1).
    { eapply step_preserves_inv; [| exact Hstep1]. exact (conj I1 (conj I2 I3)). }
    destruct (pending_until_consumed translate_P mid s1 s2 t1 Hinv1 Hp1 Hrun)
      as [Hin | [_ Hq2]]; [done |].
    exfalso. cbn in Hstep2. destruct (workers s2 t2); try done.
    by destruct (errorRequest_ (acb s2)).
Qed.

(** Worker 2 cannot post while worker 1's request is pending, neither
    before nor after the main thread has answered it; once worker 1 has
    read the answer, worker 2 posts. *)
Example two_reporters_blocked :
  run translate_en (two_reporters ++ [PostError 2%nat]) Channel_new = None /\
  run translate_en
      (two_reporters ++ [MainWake (CbResponse PhaseCallback.retry) None; PostError 2%nat])
      Channel_new = None /\
  (errorRequest_ ∘ acb) <$>
    run translate_en
        (two_reporters ++ [MainWake (CbResponse PhaseCallback.retry) None;
                           ConsumeResponse 1%nat; PostError 2%nat])
        Channel_new
  = Some (Some error_e2).
Proof. repeat split; vm_compute; reflexivity. Qed.

Lemma C8_error_slot_witness :
  exists s : @Channel unit,
    run translate_en two_reporters Channel_new = Some s /\
    errorRequest_ (acb s) = Some error_e1 /\
    step translate_en (PostError 2%nat) s = None.
Proof.
  eexists. split; [vm_compute; reflexivity |]. split; [reflexivity |].
  match goal with |- step _ _ ?s = None =>
    assert (Hreach : reachable translate_en s)
      by (exists two_reporters; vm_compute; reflexivity);
    destruct (C8_error_slot_exclusivity unit translate_en s Hreach)
      as (_ & _ & Hblocked & _)
  end.
  apply Hblocked. left. discriminate.
Defined.

(** ** PercentStatReporter: the latch *)

(** C5, the claim as stated, fails.  A copy of 1000 bytes reports 900
    bytes, 950 two seconds later and 951 nine seconds after the first
    report.  The second report is the first evaluation after DELAY; the
    estimate there is 2 s, below MIN_DURATION, and [showPercent_] stays
    false.  The third report evaluates again, the estimate is above 3 s,
    and [showPercent_] latches to true: nothing suppressed it. *)
Lemma C5_counterexample :
  let after1 := (percentReports (take 1 stalling_copy_reports) stalling_copy_start []).1 in
  let after2 := (percentReports (take 2 stalling_copy_reports) stalling_copy_start []).1 in
  let after3 := (percentReports stalling_copy_reports stalling_copy_start []).1 in
  evaluationDue 100 (5 * NS_PER_SEC) 900 stalling_copy_start = false /\
  evaluationDue 100 (7 * NS_PER_SEC) 50 after1 = true /\
  (match estimateAt (7 * NS_PER_SEC) 50 after1 with
   | Some remSecs => Qeq_bool remSecs (inject_Z 2)
   | None => false
   end) = true /\
  showPercent_ after1 = false /\
  showPercent_ after2 = false /\
  showPercent_ after3 = true.
Proof. vm_compute. repeat split. Qed.

Section PercentStatReporterFacts.
Context {X Callback double SpeedTest : Type}.
Context `{StatCallback Callback} `{StatusCallback X Callback}.
Context `{DoubleOps double} `{SpeedTestOps double SpeedTest}.
Variable UI_UPDATE_INTERVAL : Z.
Variable formatPercent : double -> double -> Z -> wstring.

(** The latch after one call, in terms of the state before it. *)
Lemma updateStatus_showPercent now itemsDelta bytesDelta
    (psr : PercentStatReporter SpeedTest) (cb : Callback) :
  showPercent_
    (PercentStatReporter_updateStatus UI_UPDATE_INTERVAL formatPercent
       now itemsDelta bytesDelta psr cb).1.1
  = showPercent_ psr
    || (evaluationDue UI_UPDATE_INTERVAL now bytesDelta psr
        && estimateAboveMinDuration now bytesDelta psr).
Proof.
  unfold PercentStatReporter_updateStatus, evaluationDue, estimateAboveMinDuration,
    estimateAt, bytesCopiedAfter, getBytesReported, getBytesExpected.
  pose proof (reportDelta_reporter itemsDelta bytesDelta (statReporter_ psr) cb) as Hr.
  destruct (reportDelta itemsDelta bytesDelta (statReporter_ psr) cb) as [sr cb1].
  cbn [fst snd] in Hr. subst sr. cbn [set_reported bytesReported_ bytesExpected_].
  destruct (int64 (lastUpdate_ psr + Z.quot UI_UPDATE_INTERVAL 2 * NS_PER_MS) <=? now);
    cbn [andb]; [| by rewrite orb_false_r].
  destruct (showPercent_ psr) eqn:Hshow; cbn [negb andb orb].
  - by destruct (ItemStatReporter_updateStatus _ cb1).
  - destruct (0 <? _) eqn:Hbytes; cbn [andb]; [| done].
    destruct (startTime_ psr =? 0) eqn:Hstart; cbn [negb andb]; [done |].
    destruct (STATUS_PERCENT_DELAY <=? int64 (now - startTime_ psr)); cbn [andb]; [| done].
    destruct (getRemainingSec _ _ _) as [remSecs|]; [| done].
    destruct (double_ltb _ remSecs); [| done].
    by destruct (ItemStatReporter_updateStatus _ cb1).
Qed.

End PercentStatReporterFacts.

(** C5 (percent-display latch), as the code has it.  For every
    [PercentStatReporter] work item and every [updateStatus] call on it:
    [showPercent_] is true afterwards exactly if it was true before, or an
    evaluation was due at this call (refresh interval passed, some bytes
    copied, timing started at an earlier call, DELAY elapsed since) and the
    remaining time estimated at this call is above MIN_DURATION (3 s).  An
    evaluation with an estimate that is not above MIN_DURATION leaves
    [showPercent_] false and is not remembered: the next due evaluation
    decides afresh.  Once true, [showPercent_] stays true. *)
Theorem C5_percent_latch :
  forall (X Callback double SpeedTest : Type)
         (StatCb : StatCallback Callback) (StatusCb : StatusCallback X Callback)
         (Dbl : DoubleOps double) (Speed : SpeedTestOps double SpeedTest)
         (UI_UPDATE_INTERVAL : Z) (formatPercent : double -> double -> Z -> wstring)
         (now itemsDelta bytesDelta : Z)
         (psr : PercentStatReporter SpeedTest) (cb : Callback),
    let psr' := (PercentStatReporter_updateStatus UI_UPDATE_INTERVAL formatPercent
                   now itemsDelta bytesDelta psr cb).1.1 in
    showPercent_ psr'
      = showPercent_ psr
        || (evaluationDue UI_UPDATE_INTERVAL now bytesDelta psr
            && estimateAboveMinDuration now bytesDelta psr) /\
    (showPercent_ psr = true -> showPercent_ psr' = true) /\
    (evaluationDue UI_UPDATE_INTERVAL now bytesDelta psr = true ->
     estimateAboveMinDuration now bytesDelta psr = false ->
     showPercent_ psr' = false) /\
    (forall now2 itemsDelta2 bytesDelta2 (cb2 : Callback),
        evaluationDue UI_UPDATE_INTERVAL now2 bytesDelta2 psr' = true ->
        estimateAboveMinDuration now2 bytesDelta2 psr' = true ->
        showPercent_ (PercentStatReporter_updateStatus UI_UPDATE_INTERVAL formatPercent
                        now2 itemsDelta2 bytesDelta2 psr' cb2).1.1 = true).
Proof.
  intros. subst psr'. rewrite updateStatus_showPercent.
  split; [done |]. split; [by intros -> |]. split.
  - intros Hdue Hest. rewrite Hdue, Hest.
    unfold evaluationDue in Hdue.
    destruct (showPercent_ psr); [| done].
    by rewrite !andb_false_r in Hdue.
  - intros now2 itemsDelta2 bytesDelta2 cb2 Hdue Hest.
    rewrite updateStatus_showPercent, Hdue, Hest. apply orb_true_r.
Qed.

(** The stalling copy again: the state after its second report is the
    [psr'] of the theorem, and the third report latches. *)
Lemma C5_percent_latch_witness :
  showPercent_ (percentReports (take 2 stalling_copy_reports) stalling_copy_start []).1 = false /\
  showPercent_ (percentReports stalling_copy_reports stalling_copy_start []).1 = true.
Proof.
  pose (after1 := (percentReports (take 1 stalling_copy_reports) stalling_copy_start []).1).
  pose (log1 := (percentReports (take 1 stalling_copy_reports) stalling_copy_start []).2).
  destruct (C5_percent_latch unit PhaseCallback.Log Q WindowSpeedTest _ _ _ _
              100 (fun _ _ _ => "%") (7 * NS_PER_SEC) 0 50 after1 log1)
    as (_ & _ & Hbelow & Hlater).
  split.
  - apply Hbelow; vm_compute; reflexivity.
  - apply (Hlater (14 * NS_PER_SEC) 0 1
             (percentReports (take 2 stalling_copy_reports) stalling_copy_start []).2);
      vm_compute; reflexivity.
Defined.

(** ** Status registry: registering, updating, unregistering *)

Lemma bucketFind_None tid sbp :
  bucketFind tid sbp = None <-> tid ∉ (threadId <$> sbp).
Proof.
  induction sbp as [|ts sbp IH]; simpl.
  - split; [intros _; apply not_elem_of_nil | done].
  - case_decide as Hts.
    + split; [done |]. intros Hnot. exfalso. apply Hnot. subst tid. by left.
    + rewrite fmap_None, IH, not_elem_of_cons. naive_solver.
Qed.

Lemma bucketFind_Some tid sbp j :
  bucketFind tid sbp = Some j <->
  exists before ts after,
    sbp = before ++ ts :: after /\ j = length before /\
    threadId ts = tid /\ tid ∉ (threadId <$> before).
Proof.
  revert j. induction sbp as [|ts0 sbp IH]; intros j; simpl.
  - split; [done |]. intros (before & ts & after & Hsplit & _).
    by destruct before.
  - case_decide as Hts.
    + split.
      * intros [= <-]. exists [], ts0, sbp. repeat split; try done. apply not_elem_of_nil.
      * intros (before & ts & after & Hsplit & -> & Hid & Hnot).
        destruct before as [|b before]; [done |].
        injection Hsplit as <- _. exfalso. apply Hnot. rewrite fmap_cons. subst tid. by left.
    + rewrite fmap_Some. split.
      * intros (j' & Hfind & ->). apply IH in Hfind.
        destruct Hfind as (before & ts & after & -> & -> & Hid & Hnot).
        exists (ts0 :: before), ts, after. repeat split; try done.
        rewrite fmap_cons, not_elem_of_cons. by split.
      * intros (before & ts & after & Hsplit & -> & Hid & Hnot).
        destruct before as [|b before].
        { injection Hsplit as -> _. done. }
        injection Hsplit as <- ->. exists (length before). split; [| done].
        apply IH. exists before, ts, after. repeat split; try done.
        rewrite fmap_cons, not_elem_of_cons in Hnot. by destruct Hnot.
Qed.

Lemma registeredThreads_cons sbp buckets :
  registeredThreads (sbp :: buckets) = (threadId <$> sbp) ++ registeredThreads buckets.
Proof. unfold registeredThreads. simpl. by rewrite fmap_app. Qed.

Lemma registeredThreads_app bs1 bs2 :
  registeredThreads (bs1 ++ bs2) = registeredThreads bs1 ++ registeredThreads bs2.
Proof.
  induction bs1 as [|sbp bs1 IH]; [done |].
  simpl. by rewrite !registeredThreads_cons, IH, app_assoc.
Qed.

(** [getThreadStatus] returns [nullptr] exactly for a thread that has no
    entry. *)
Lemma getThreadStatus_None tid buckets :
  getThreadStatus tid buckets = None <-> tid ∉ registeredThreads buckets.
Proof.
  induction buckets as [|sbp buckets IH]; simpl.
  - split; [intros _; apply not_elem_of_nil | done].
  - rewrite registeredThreads_cons, not_elem_of_app.
    destruct (bucketFind tid sbp) as [j|] eqn:Hfind.
    + split; [done |]. intros [Hnot _]. apply bucketFind_None in Hnot. congruence.
    + apply bucketFind_None in Hfind. rewrite fmap_None, IH. naive_solver.
Qed.

(** Otherwise it points to the first entry of the thread in priority
    order. *)
Lemma getThreadStatus_Some tid buckets i j :
  getThreadStatus tid buckets = Some (i, j) <->
  exists bs1 sbp bs2,
    buckets = bs1 ++ sbp :: bs2 /\ i = length bs1 /\
    (tid ∉ registeredThreads bs1) /\ bucketFind tid sbp = Some j.
Proof.
  revert i. induction buckets as [|sbp0 buckets IH]; intros i; simpl.
  - split; [done |]. intros (bs1 & sbp & bs2 & Hsplit & _). by destruct bs1.
  - destruct (bucketFind tid sbp0) as [j0|] eqn:Hfind.
    + split.
      * intros [= <- <-]. exists [], sbp0, buckets. repeat split; try done.
        apply not_elem_of_nil.
      * intros (bs1 & sbp & bs2 & Hsplit & -> & Hnot & Hj).
        destruct bs1 as [|b bs1].
        { simpl in *. injection Hsplit as <- _. congruence. }
        injection Hsplit as <- _. exfalso.
        rewrite registeredThreads_cons, not_elem_of_app in Hnot.
        destruct Hnot as [Hnot _]. apply bucketFind_None in Hnot. congruence.
    + rewrite fmap_Some. split.
      * intros ([i' j'] & Hget & [= -> ->]). simpl in *. apply IH in Hget.
        destruct Hget as (bs1 & sbp & bs2 & -> & -> & Hnot & Hj).
        exists (sbp0 :: bs1), sbp, bs2. repeat split; try done.
        rewrite registeredThreads_cons, not_elem_of_app. split; [| done].
        by apply bucketFind_None.
      * intros (bs1 & sbp & bs2 & Hsplit & -> & Hnot & Hj).
        destruct bs1 as [|b bs1].
        { injection Hsplit as -> _. congruence. }
        injection Hsplit as <- ->. exists (length bs1, j). split; [| done].
        apply IH. exists bs1, sbp, bs2. repeat split; try done.
        rewrite registeredThreads_cons, not_elem_of_app in Hnot. by destruct Hnot.
Qed.

(** Swapping an entry with the back and popping the back removes that
    entry and keeps all the others. *)
Lemma swapWithBackAndPop_Permutation before ts after :
  ts :: swapWithBackAndPop (length before) (before ++ ts :: after)
  ≡ₚ before ++ ts :: after.
Proof.
  unfold swapWithBackAndPop.
  destruct (decide (after = [])) as [-> | Hne].
  - rewrite last_snoc, length_app. simpl.
    replace (length before + 1 - 1)%nat with (length before) by lia.
    rewrite insert_app_r_alt by lia.
    replace (length before - length before)%nat with 0%nat by lia. simpl.
    rewrite take_app_length. apply Permutation_cons_append.
  - destruct (exists_last Hne) as (init & back & ->).
    replace (before ++ ts :: init ++ [back]) with ((before ++ ts :: init) ++ [back])
      by (by rewrite <- app_assoc).
    rewrite last_snoc, length_app. simpl.
    replace (length (before ++ ts :: init) + 1 - 1)%nat
      with (length (before ++ ts :: init)) by lia.
    rewrite insert_app_l by (rewrite length_app; simpl; lia).
    rewrite take_app_length'
      by (rewrite length_insert; done).
    rewrite insert_app_r_alt by lia.
    replace (length before - length before)%nat with 0%nat by lia. simpl.
    rewrite <- app_assoc. simpl.
    rewrite <- !Permutation_middle.
    by rewrite app_nil_r.
Qed.

(** The entry pushed last by [notifyTaskBegin] is popped as it is. *)
Lemma swapWithBackAndPop_back sbp ts :
  swapWithBackAndPop (length sbp) (sbp ++ [ts]) = sbp.
Proof.
  unfold swapWithBackAndPop. rewrite last_snoc, length_app. simpl.
  replace (length sbp + 1 - 1)%nat with (length sbp) by lia.
  rewrite insert_app_r_alt by lia.
  replace (length sbp - length sbp)%nat with 0%nat by lia. simpl.
  apply take_app_length.
Qed.

Lemma notifyTaskEnd_buckets_skip tid bs1 rest :
  tid ∉ registeredThreads bs1 ->
  notifyTaskEnd_buckets tid (bs1 ++ rest) = bs1 ++ notifyTaskEnd_buckets tid rest.
Proof.
  induction bs1 as [|sbp bs1 IH]; intros Hnot; [done |].
  rewrite registeredThreads_cons, not_elem_of_app in Hnot. destruct Hnot as [Hsbp Hbs1].
  simpl. apply bucketFind_None in Hsbp. rewrite Hsbp. by rewrite IH.
Qed.

(** [notifyTaskEnd] for a thread without an entry changes nothing. *)
Lemma notifyTaskEnd_buckets_unregistered tid buckets :
  tid ∉ registeredThreads buckets -> notifyTaskEnd_buckets tid buckets = buckets.
Proof.
  intros Hnot. rewrite <- (app_nil_r buckets) at 1.
  rewrite notifyTaskEnd_buckets_skip by done. simpl. apply app_nil_r.
Qed.

Lemma notifyTaskEnd_buckets_length tid buckets :
  length (notifyTaskEnd_buckets tid buckets) = length buckets.
Proof.
  induction buckets as [|sbp buckets IH]; [done |].
  simpl. destruct (bucketFind tid sbp); simpl; by rewrite ?IH.
Qed.

(** [notifyTaskEnd] takes out one entry, that of the calling thread, and
    keeps every other entry. *)
Lemma notifyTaskEnd_buckets_Permutation tid buckets :
  tid ∈ registeredThreads buckets ->
  registeredThreads buckets ≡ₚ tid :: registeredThreads (notifyTaskEnd_buckets tid buckets).
Proof.
  intros Hin.
  destruct (getThreadStatus tid buckets) as [[i j]|] eqn:Hget.
  - apply getThreadStatus_Some in Hget.
    destruct Hget as (bs1 & sbp & bs2 & -> & -> & Hnot & Hj).
    rewrite notifyTaskEnd_buckets_skip by done. simpl. rewrite Hj.
    apply bucketFind_Some in Hj.
    destruct Hj as (before & ts & after & -> & -> & <- & _).
    rewrite !registeredThreads_app, !registeredThreads_cons.
    pose proof (swapWithBackAndPop_Permutation before ts after) as Hperm.
    set (popped := swapWithBackAndPop _ _) in *.
    rewrite <- Hperm, fmap_cons. simpl. by rewrite <- Permutation_middle.
  - apply getThreadStatus_None in Hget. done.
Qed.

Lemma registeredThreads_replicate_nil n :
  registeredThreads (replicate n []) = [].
Proof. induction n as [|n IH]; [done |]. simpl. by rewrite registeredThreads_cons, IH. Qed.

Lemma notifyTaskBegin_buckets tid prio acb :
  statusByPriority_ (notifyTaskBegin tid prio acb)
  = alter (fun b => b ++ [MkThreadStatus tid EmptyString]) prio
      (statusByPriority_ acb
       ++ replicate (prio + 1 - length (statusByPriority_ acb)) []).
Proof.
  unfold notifyTaskBegin. cbn [statusByPriority_ set_statusByPriority].
  destruct (Nat.ltb_spec (length (statusByPriority_ acb)) (prio + 1)); [done |].
  replace (prio + 1 - length (statusByPriority_ acb))%nat with 0%nat by lia.
  simpl. by rewrite app_nil_r.
Qed.

(** After the resize the bucket of [prio] exists. *)
Lemma resized_split prio (buckets : list (list ThreadStatus)) :
  exists bs1 b bs2,
    buckets ++ replicate (prio + 1 - length buckets) [] = bs1 ++ b :: bs2 /\
    length bs1 = prio.
Proof.
  set (resized := buckets ++ replicate (prio + 1 - length buckets) []).
  assert (Hlen : (prio < length resized)%nat).
  { subst resized. rewrite length_app, length_replicate. lia. }
  destruct (lookup_lt_is_Some_2 resized prio Hlen) as [b Hb].
  exists (take prio resized), b, (drop (S prio) resized). split.
  - by rewrite take_drop_middle.
  - rewrite length_take. lia.
Qed.

Lemma parallel_ops_app_empty buckets n :
  parallel_ops (buckets ++ replicate n []) = parallel_ops buckets.
Proof.
  unfold parallel_ops. rewrite filter_app, length_app.
  replace (filter _ (replicate n [])) with (@nil (list ThreadStatus)); [simpl; lia |].
  induction n as [|n IH]; [done |]. simpl. by rewrite filter_cons, decide_False.
Qed.

Lemma first_nonempty_message_app_empty buckets n :
  first_nonempty_message (buckets ++ replicate n []) = first_nonempty_message buckets.
Proof.
  unfold first_nonempty_message. rewrite concat_app.
  replace (concat (replicate n [])) with (@nil ThreadStatus); [by rewrite app_nil_r |].
  induction n as [|n IH]; [done |]. simpl. done.
Qed.

(** Empty buckets appended by a resize do not show in the status line. *)
Lemma getCurrentStatus_app_empty translate_P acb n :
  getCurrentStatus translate_P
    (set_statusByPriority (statusByPriority_ acb ++ replicate n []) acb)
  = getCurrentStatus translate_P acb.
Proof.
  unfold getCurrentStatus. cbn [statusByPriority_ set_statusByPriority].
  by rewrite !countParallelOps_spec, !firstStatusMsgByPriority_spec,
    parallel_ops_app_empty, first_nonempty_message_app_empty.
Qed.

(** X1 (task registration round trip).  For a thread that has no entry,
    [notifyTaskBegin] followed by [notifyTaskEnd] leaves every bucket as
    it was: the only trace is the empty buckets the resize may have
    appended, and these do not show in [getCurrentStatus].  In between the
    thread is registered with an empty status text. *)
Theorem registry_begin_end_roundtrip :
  forall (translate_P : wstring -> wstring -> nat -> wstring)
         (tid : ThreadId) (prio : nat) (acb : AsyncCallback),
    getThreadStatus tid (statusByPriority_ acb) = None ->
    statusOf tid (statusByPriority_ (notifyTaskBegin tid prio acb)) = Some EmptyString /\
    notifyTaskEnd tid (notifyTaskBegin tid prio acb)
      = set_statusByPriority
          (statusByPriority_ acb
           ++ replicate (prio + 1 - length (statusByPriority_ acb)) []) acb /\
    getCurrentStatus translate_P (notifyTaskEnd tid (notifyTaskBegin tid prio acb))
      = getCurrentStatus translate_P acb.
Proof.
  intros translate_P tid prio acb Hnone.
  apply getThreadStatus_None in Hnone.
  pose proof (notifyTaskBegin_buckets tid prio acb) as Hbegin.
  destruct (resized_split prio (statusByPriority_ acb)) as (bs1 & b & bs2 & Hsplit & Hlen).
  assert (Hregs : tid ∉ registeredThreads (bs1 ++ b :: bs2)).
  { by rewrite <- Hsplit, registeredThreads_app, registeredThreads_replicate_nil, app_nil_r. }
  rewrite registeredThreads_app, registeredThreads_cons, !not_elem_of_app in Hregs.
  destruct Hregs as (Hbs1 & Hb & _).
  assert (Hbegin' : statusByPriority_ (notifyTaskBegin tid prio acb)
                    = bs1 ++ (b ++ [MkThreadStatus tid EmptyString]) :: bs2).
  { rewrite Hbegin, Hsplit, alter_app_r_alt by lia.
    by replace (prio - length bs1)%nat with 0%nat by lia. }
  clear Hbegin. rename Hbegin' into Hbegin.
  assert (Hfind : bucketFind tid (b ++ [MkThreadStatus tid EmptyString]) = Some (length b)).
  { apply bucketFind_Some. by exists b, (MkThreadStatus tid EmptyString), []. }
  assert (Hend : notifyTaskEnd tid (notifyTaskBegin tid prio acb)
                 = set_statusByPriority
                     (statusByPriority_ acb
                      ++ replicate (prio + 1 - length (statusByPriority_ acb)) []) acb).
  { unfold notifyTaskEnd. rewrite Hbegin, notifyTaskEnd_buckets_skip by done.
    simpl. rewrite Hfind, swapWithBackAndPop_back, Hsplit. done. }
  split; [| split; [exact Hend |]].
  - unfold statusOf. rewrite Hbegin.
    assert (Hget : getThreadStatus tid
                     (bs1 ++ (b ++ [MkThreadStatus tid EmptyString]) :: bs2)
                   = Some (length bs1, length b)).
    { apply getThreadStatus_Some. by eexists bs1, _, bs2. }
    rewrite Hget. unfold threadStatusAt. simpl.
    rewrite list_lookup_middle by done. simpl.
    by rewrite list_lookup_middle by done.
  - rewrite Hend. apply getCurrentStatus_app_empty.
Qed.

Lemma registry_begin_end_witness :
  notifyTaskEnd 7%nat (notifyTaskBegin 7%nat 2%nat registry_one)
  = set_statusByPriority
      [[]; [MkThreadStatus 2%nat EmptyString; MkThreadStatus 4%nat "Copying b"]; []]
      AsyncCallback_new /\
  getCurrentStatus translate_en (notifyTaskEnd 7%nat (notifyTaskBegin 7%nat 2%nat registry_one))
  = "Copying b".
Proof.
  destruct (registry_begin_end_roundtrip translate_en 7%nat 2%nat registry_one eq_refl)
    as (_ & Hend & Hstatus).
  split; [rewrite Hend | rewrite Hstatus]; vm_compute; reflexivity.
Defined.

Lemma bucketFind_alter t (f : ThreadStatus -> ThreadStatus) j sbp :
  (forall ts, threadId (f ts) = threadId ts) ->
  bucketFind t (alter f j sbp) = bucketFind t sbp.
Proof.
  intros Hf. revert j. induction sbp as [|ts sbp IH]; intros j; [done |].
  destruct j as [|j]; simpl.
  - by rewrite Hf.
  - by rewrite <- (IH j).
Qed.

Lemma getThreadStatus_alter t (f : ThreadStatus -> ThreadStatus) i j buckets :
  (forall ts, threadId (f ts) = threadId ts) ->
  getThreadStatus t (alter (alter f j) i buckets) = getThreadStatus t buckets.
Proof.
  intros Hf. revert i. induction buckets as [|sbp buckets IH]; intros i; [done |].
  destruct i as [|i]; simpl.
  - by rewrite <- (bucketFind_alter t f j sbp Hf).
  - by rewrite <- (IH i).
Qed.

Lemma registeredThreads_alter (f : ThreadStatus -> ThreadStatus) i j buckets :
  (forall ts, threadId (f ts) = threadId ts) ->
  registeredThreads (alter (alter f j) i buckets) = registeredThreads buckets.
Proof.
  intros Hf. revert i. induction buckets as [|sbp buckets IH]; intros i; [done |].
  destruct i as [|i]; simpl; rewrite !registeredThreads_cons.
  - f_equal. change (list_alter f j sbp) with (alter f j sbp).
    rewrite (list_fmap_alter threadId f id); [by apply list_alter_id |].
    apply Forall_forall. intros ts _. apply Hf.
  - f_equal. apply (IH i).
Qed.

Lemma threadStatusAt_alter (f : ThreadStatus -> ThreadStatus) i j buckets i' j' :
  threadStatusAt (alter (alter f j) i buckets) (i', j')
  = if decide (i' = i /\ j' = j) then f <$> threadStatusAt buckets (i, j)
    else threadStatusAt buckets (i', j').
Proof.
  unfold threadStatusAt. simpl. rewrite list_lookup_alter.
  case_decide as Hi'; [subst i' |].
  - destruct (buckets !! i) as [sbp|]; simpl.
    + rewrite list_lookup_alter. repeat case_decide; naive_solver.
    + case_decide; done.
  - rewrite decide_False by naive_solver. done.
Qed.

(** The pointer [getThreadStatus] returns points to an entry of the
    thread asked for. *)
Lemma getThreadStatus_at tid buckets p :
  getThreadStatus tid buckets = Some p ->
  exists ts, threadStatusAt buckets p = Some ts /\ threadId ts = tid.
Proof.
  destruct p as [i j]. intros Hget. apply getThreadStatus_Some in Hget.
  destruct Hget as (bs1 & sbp & bs2 & -> & -> & _ & Hj).
  apply bucketFind_Some in Hj. destruct Hj as (before & ts & after & -> & -> & Hid & _).
  exists ts. split; [| done]. unfold threadStatusAt. simpl.
  rewrite list_lookup_middle by done. simpl. by rewrite list_lookup_middle.
Qed.

Lemma updateStatus_registeredThreads tid stopRequested m acb :
  registeredThreads (statusByPriority_ (AsyncCallback_updateStatus tid stopRequested m acb).1)
  = registeredThreads (statusByPriority_ acb).
Proof.
  unfold AsyncCallback_updateStatus. cbn [fst].
  destruct (getThreadStatus tid (statusByPriority_ acb)) as [[i j]|]; [| done].
  cbn [statusByPriority_ set_statusByPriority]. by apply registeredThreads_alter.
Qed.

(** X2 (status update).  [updateStatus(msg)] called by a registered
    worker stores the text in that worker's entry and nowhere else: every
    other thread keeps its text, and the registered threads stay where
    they are.  Called by a thread without an entry it changes nothing.
    The text is stored whether or not the interruption point then throws,
    which it does exactly when the thread was asked to stop. *)
Theorem updateStatus_effect :
  forall (tid : ThreadId) (stopRequested : bool) (m : wstring) (acb : AsyncCallback),
    let r := AsyncCallback_updateStatus tid stopRequested m acb in
    let before := statusByPriority_ acb in
    let after := statusByPriority_ r.1 in
    registeredThreads after = registeredThreads before /\
    statusOf tid after = (fun _ => m) <$> statusOf tid before /\
    (tid ∈ registeredThreads before -> statusOf tid after = Some m) /\
    (forall t, t <> tid -> statusOf t after = statusOf t before) /\
    (tid ∉ registeredThreads before -> r.1 = acb) /\
    r.2 = (if stopRequested then Some MkThreadStopRequest else None).
Proof.
  intros tid stopRequested m acb r before after.
  assert (Hf : forall ts, threadId (MkThreadStatus (threadId ts) m) = threadId ts) by done.
  assert (Hmain :
    registeredThreads after = registeredThreads before /\
    statusOf tid after = (fun _ => m) <$> statusOf tid before /\
    (forall t, t <> tid -> statusOf t after = statusOf t before) /\
    (tid ∉ registeredThreads before -> r.1 = acb)).
  { subst r before after. unfold AsyncCallback_updateStatus. cbn [fst snd].
    destruct (getThreadStatus tid (statusByPriority_ acb)) as [[i j]|] eqn:Hget.
    - cbn [statusByPriority_ set_statusByPriority].
      destruct (getThreadStatus_at _ _ _ Hget) as (ts & Hts & Hid).
      split; [by apply registeredThreads_alter |]. split; [| split].
      + unfold statusOf. rewrite getThreadStatus_alter, Hget by done. simpl.
        rewrite threadStatusAt_alter, decide_True, Hts by done. done.
      + intros t Ht. unfold statusOf. rewrite getThreadStatus_alter by done.
        destruct (getThreadStatus t (statusByPriority_ acb)) as [[i' j']|] eqn:Hget';
          [| done].
        simpl. rewrite threadStatusAt_alter.
        case_decide as Hsame; [| done].
        destruct Hsame as [-> ->].
        destruct (getThreadStatus_at _ _ _ Hget') as (ts' & Hts' & Hid').
        congruence.
      + intros Hnot. apply getThreadStatus_None in Hnot. congruence.
    - unfold statusOf. rewrite Hget. done. }
  destruct Hmain as (H1 & H2 & H3 & H4).
  repeat split; try done.
  intros Hin. rewrite H2. unfold statusOf.
  destruct (getThreadStatus tid before) as [p|] eqn:Hget.
  - destruct (getThreadStatus_at _ _ _ Hget) as (ts & Hts & _). simpl. by rewrite Hts.
  - apply getThreadStatus_None in Hget. done.
Qed.

Lemma notifyTaskBegin_split tid prio acb :
  exists bs1 b bs2,
    statusByPriority_ acb ++ replicate (prio + 1 - length (statusByPriority_ acb)) []
      = bs1 ++ b :: bs2 /\
    length bs1 = prio /\
    statusByPriority_ (notifyTaskBegin tid prio acb)
      = bs1 ++ (b ++ [MkThreadStatus tid EmptyString]) :: bs2.
Proof.
  destruct (resized_split prio (statusByPriority_ acb)) as (bs1 & b & bs2 & Hsplit & Hlen).
  exists bs1, b, bs2. split; [done |]. split; [done |].
  rewrite notifyTaskBegin_buckets, Hsplit, alter_app_r_alt by lia.
  by replace (prio - length bs1)%nat with 0%nat by lia.
Qed.

(** [notifyTaskBegin] adds one entry, for the calling thread, and keeps
    all the others. *)
Lemma notifyTaskBegin_Permutation tid prio acb :
  registeredThreads (statusByPriority_ (notifyTaskBegin tid prio acb))
  ≡ₚ tid :: registeredThreads (statusByPriority_ acb).
Proof.
  destruct (notifyTaskBegin_split tid prio acb) as (bs1 & b & bs2 & Hsplit & _ & ->).
  assert (Hregs : registeredThreads (statusByPriority_ acb)
                  = registeredThreads (bs1 ++ b :: bs2)).
  { by rewrite <- Hsplit, registeredThreads_app, registeredThreads_replicate_nil, app_nil_r. }
  rewrite Hregs, !registeredThreads_app, !registeredThreads_cons, fmap_app. simpl.
  rewrite <- app_assoc. simpl. by rewrite <- !Permutation_middle.
Qed.

(** The bucket after [std::swap(ts, sbp.back()); sbp.pop_back()]: one
    entry shorter; the back entry stands where the removed one stood;
    every other entry stands where it stood. *)
Lemma swapWithBackAndPop_lookup (j : nat) (sbp : list ThreadStatus) :
  (j < length sbp)%nat ->
  length (swapWithBackAndPop j sbp) = (length sbp - 1)%nat /\
  (forall k, (k < length sbp - 1)%nat ->
             swapWithBackAndPop j sbp !! k
             = if decide (k = j) then last sbp else sbp !! k).
Proof.
  intros Hj. unfold swapWithBackAndPop.
  destruct (last sbp) as [back|] eqn:Hlast.
  - split.
    + rewrite length_take, length_insert. lia.
    + intros k Hk. rewrite lookup_take_lt by done.
      case_decide as Hkj.
      * subst k. by rewrite list_lookup_insert_eq by lia.
      * by rewrite list_lookup_insert_ne by done.
  - apply last_None in Hlast. subst sbp. simpl in Hj. lia.
Qed.

(** X3 (task end).  [notifyTaskEnd] keeps the number of buckets; called
    by a thread without an entry it changes nothing.  Called by a
    registered thread it removes that thread's first entry in priority
    order and nothing else: every other bucket is as before; the bucket
    of the entry is one entry shorter; the entry that was at its back
    now stands where the removed entry stood, with its thread id and its
    status text; and every other entry of the bucket stands where it
    stood, with its thread id and its status text. *)
Theorem notifyTaskEnd_effect :
  forall (tid : ThreadId) (acb : AsyncCallback),
    let before := statusByPriority_ acb in
    let after := statusByPriority_ (notifyTaskEnd tid acb) in
    length after = length before /\
    (tid ∈ registeredThreads before ->
     registeredThreads before ≡ₚ tid :: registeredThreads after) /\
    (tid ∉ registeredThreads before -> notifyTaskEnd tid acb = acb) /\
    (forall i j, getThreadStatus tid before = Some (i, j) ->
       exists sbp ts sbp',
         before !! i = Some sbp /\ sbp !! j = Some ts /\ threadId ts = tid /\
         after !! i = Some sbp' /\
         (forall i', i' <> i -> after !! i' = before !! i') /\
         length sbp' = (length sbp - 1)%nat /\
         ts :: sbp' ≡ₚ sbp /\
         (forall k, (k < length sbp - 1)%nat -> k <> j -> sbp' !! k = sbp !! k) /\
         ((j < length sbp - 1)%nat -> sbp' !! j = last sbp)) /\
    notifyTaskEnd tid acb = set_statusByPriority after acb.
Proof.
  intros tid acb before after. subst before after. unfold notifyTaskEnd.
  cbn [statusByPriority_ set_statusByPriority].
  split; [apply notifyTaskEnd_buckets_length |].
  split; [apply notifyTaskEnd_buckets_Permutation |].
  split. { intros Hnot. rewrite notifyTaskEnd_buckets_unregistered by done. by destruct acb. }
  split; [| done].
  intros i j Hget. apply getThreadStatus_Some in Hget.
  destruct Hget as (bs1 & sbp & bs2 & Hsplit & -> & Hnot & Hj).
  rewrite Hsplit, notifyTaskEnd_buckets_skip by done. simpl. rewrite Hj.
  pose proof Hj as Hfound. apply bucketFind_Some in Hfound.
  destruct Hfound as (front & ts & back & Hsbp & Hlen & Hid & _).
  assert (Hjlt : (j < length sbp)%nat).
  { rewrite Hsbp, length_app. simpl. lia. }
  destruct (swapWithBackAndPop_lookup j sbp Hjlt) as [Hlength Hlookup].
  exists sbp, ts, (swapWithBackAndPop j sbp).
  split; [by rewrite list_lookup_middle |].
  split; [by rewrite Hsbp, Hlen, list_lookup_middle |].
  split; [done |].
  split; [by rewrite list_lookup_middle |].
  split.
  { intros i' Hi'. destruct (decide (i' < length bs1)%nat) as [Hlt | Hge].
    - by rewrite !lookup_app_l by done.
    - rewrite !lookup_app_r by lia.
      destruct (i' - length bs1)%nat as [|n] eqn:Hn; [lia | done]. }
  split; [done |].
  split.
  { rewrite Hsbp at 2. rewrite Hsbp, Hlen. apply swapWithBackAndPop_Permutation. }
  split.
  - intros k Hk Hkj. rewrite Hlookup by done. by rewrite decide_False.
  - intros Hjk. rewrite Hlookup by done. by rewrite decide_True.
Qed.

(** X4 (one entry per thread).  If no thread id is registered twice, this
    stays so after [notifyTaskBegin] by a thread that has no entry (what
    its assertion demands), after [notifyTaskEnd] and after
    [updateStatus]; and after its [notifyTaskEnd] a thread has no entry
    left, so [getThreadStatus] returns [nullptr] for it. *)
Theorem registry_unique_threads :
  forall (acb : AsyncCallback),
    NoDup (registeredThreads (statusByPriority_ acb)) ->
    (forall tid prio,
        getThreadStatus tid (statusByPriority_ acb) = None ->
        NoDup (registeredThreads (statusByPriority_ (notifyTaskBegin tid prio acb)))) /\
    (forall tid,
        NoDup (registeredThreads (statusByPriority_ (notifyTaskEnd tid acb))) /\
        getThreadStatus tid (statusByPriority_ (notifyTaskEnd tid acb)) = None) /\
    (forall tid stopRequested m,
        NoDup (registeredThreads
                 (statusByPriority_ (AsyncCallback_updateStatus tid stopRequested m acb).1))).
Proof.
  intros acb Hnodup. split; [| split].
  - intros tid prio Hnone. apply getThreadStatus_None in Hnone.
    rewrite notifyTaskBegin_Permutation. by constructor.
  - intros tid. rewrite getThreadStatus_None. unfold notifyTaskEnd.
    cbn [statusByPriority_ set_statusByPriority].
    destruct (decide (tid ∈ registeredThreads (statusByPriority_ acb))) as [Hreg | Hreg].
    + rewrite (notifyTaskEnd_buckets_Permutation _ _ Hreg) in Hnodup.
      apply NoDup_cons in Hnodup. by destruct Hnodup.
    + by rewrite notifyTaskEnd_buckets_unregistered.
  - intros tid stopRequested m. by rewrite updateStatus_registeredThreads.
Qed.

Lemma registry_unique_threads_witness :
  NoDup (registeredThreads (statusByPriority_ (notifyTaskBegin 7%nat 0%nat registry_three))) /\
  getThreadStatus 2%nat (statusByPriority_ (notifyTaskEnd 2%nat registry_three)) = None.
Proof.
  assert (Hnodup : NoDup (registeredThreads (statusByPriority_ registry_three))).
  { vm_compute. repeat constructor; set_solver. }
  destruct (registry_unique_threads registry_three Hnodup) as (Hbegin & Hend & _).
  split; [by apply Hbegin | apply Hend].
Defined.






(** ** Request channel: runs *)

Section RequestChannelRunFacts.
Context {X : Type}.
Variable translate_P : wstring -> wstring -> nat -> wstring.

Local Abbreviation Channel := (@Channel X).
Local Abbreviation Action := (@Action X).
Local Abbreviation step := (@step X translate_P).
Local Abbreviation run := (@run X translate_P).

(** One wake-up of the main thread, field by field. *)
Lemma mainWake_outcome (errorAnswer : CbOutcome X) (logInfoThrows : option X) (s : Channel) :
  let s' := mainWake errorAnswer logInfoThrows s in
  let a := acb s in
  let a' := acb s' in
  let finishes := wakeFinishes errorAnswer logInfoThrows a in
  mainPc s'
    = match wakeThrownAtError errorAnswer a,
            wakeThrownAtLogInfo errorAnswer logInfoThrows a with
      | Some x, _ => MFailed x
      | None, Some x => MFailed x
      | None, None => if finishNowRequest_ a then MDone else MRunning
      end /\
  phaseLog s'
    = phaseLog s
      ++ (PhaseCallback.ReportError <$> wakeAsks a)
      ++ (PhaseCallback.LogInfo <$> wakeInfos errorAnswer a)
      ++ (if finishes
          then drainedCalls PhaseCallback.UpdateDataProcessed
                 (itemsDeltaProcessed_ a) (bytesDeltaProcessed_ a)
               ++ drainedCalls PhaseCallback.UpdateDataTotal
                    (itemsDeltaTotal_ a) (bytesDeltaTotal_ a)
          else []) /\
  errorResponse_ a'
    = match wakeAsks a, errorAnswer with
      | _ :: _, CbResponse rv => Some rv
      | _, _ => errorResponse_ a
      end /\
  logInfoRequest_ a'
    = match wakeThrownAtError errorAnswer a,
            wakeThrownAtLogInfo errorAnswer logInfoThrows a with
      | None, None => None
      | _, _ => logInfoRequest_ a
      end /\
  finishNowRequest_ a' = finishNowRequest_ a /\
  statusByPriority_ a' = statusByPriority_ a /\
  itemsDeltaProcessed_ a' = (if finishes then 0 else itemsDeltaProcessed_ a) /\
  bytesDeltaProcessed_ a' = (if finishes then 0 else bytesDeltaProcessed_ a) /\
  itemsDeltaTotal_ a' = (if finishes then 0 else itemsDeltaTotal_ a) /\
  bytesDeltaTotal_ a' = (if finishes then 0 else bytesDeltaTotal_ a).
Proof.
  cbn zeta.
  unfold mainWake, wakeFinishes, wakeThrownAtLogInfo, wakeInfos, wakeThrownAtError, wakeAsks.
  destruct (errorRequest_ (acb s)) as [e|] eqn:Hreq,
           (errorResponse_ (acb s)) as [rv|] eqn:Hresp,
           errorAnswer as [rv'|x], (logInfoRequest_ (acb s)) as [m|] eqn:Hlog,
           logInfoThrows as [x'|], (finishNowRequest_ (acb s)) eqn:Hfin;
    cbn; rewrite ?Hlog, ?Hfin; cbn;
    try match goal with
        | |- context [@reportStats ?C ?I ?l ?a] =>
            pose proof (@reportStats_frame C I l a) as Hf;
            pose proof (reportStats_log l a) as Hl;
            change (@reportStats PhaseCallback.Log PhaseCallback_stat l a)
              with (@reportStats C I l a) in Hl;
            pose proof (@reportStats_zero C I l a) as Hz;
            destruct (@reportStats C I l a) as [a' l']; cbn in Hf, Hl, Hz |- *;
            destruct Hf as (Hf1 & Hf2 & Hf3 & Hf4 & Hf5);
            destruct Hz as (Hz1 & Hz2 & Hz3 & Hz4);
            rewrite ?Hf1, ?Hf2, ?Hf3, ?Hf4, ?Hf5, ?Hz1, ?Hz2, ?Hz3, ?Hz4, ?Hl
        end;
    cbn; rewrite ?Hreq, ?Hresp, ?Hlog, ?Hfin, <- ?app_assoc, ?app_nil_r;
    repeat split; done.
Qed.

(** One periodic tick of the main thread, field by field. *)
Lemma mainTick_outcome (updateStatusThrows : option X) (s : Channel) :
  let s' := mainTick translate_P updateStatusThrows s in
  let a := acb s in
  let a' := acb s' in
  let drains := bool_decide (updateStatusThrows = None) in
  mainPc s' = match updateStatusThrows with Some x => MFailed x | None => MRunning end /\
  phaseLog s'
    = phaseLog s
      ++ [PhaseCallback.UpdateStatus (getCurrentStatus translate_P a)]
      ++ (if drains
          then drainedCalls PhaseCallback.UpdateDataProcessed
                 (itemsDeltaProcessed_ a) (bytesDeltaProcessed_ a)
               ++ drainedCalls PhaseCallback.UpdateDataTotal
                    (itemsDeltaTotal_ a) (bytesDeltaTotal_ a)
          else []) /\
  logInfoRequest_ a' = logInfoRequest_ a /\
  finishNowRequest_ a' = finishNowRequest_ a /\
  itemsDeltaProcessed_ a' = (if drains then 0 else itemsDeltaProcessed_ a) /\
  bytesDeltaProcessed_ a' = (if drains then 0 else bytesDeltaProcessed_ a) /\
  itemsDeltaTotal_ a' = (if drains then 0 else itemsDeltaTotal_ a) /\
  bytesDeltaTotal_ a' = (if drains then 0 else bytesDeltaTotal_ a).
Proof.
  cbn zeta. unfold mainTick. destruct updateStatusThrows as [x|]; cbn.
  - by repeat split.
  - match goal with
    | |- context [@reportStats ?C ?I ?l ?a] =>
        pose proof (@reportStats_frame C I l a) as Hf;
        pose proof (reportStats_log l a) as Hl;
        change (@reportStats PhaseCallback.Log PhaseCallback_stat l a)
          with (@reportStats C I l a) in Hl;
        pose proof (@reportStats_zero C I l a) as Hz;
        destruct (@reportStats C I l a) as [a' l']; cbn in Hf, Hl, Hz |- *;
        destruct Hf as (_ & _ & Hf3 & Hf4 & _);
        destruct Hz as (Hz1 & Hz2 & Hz3 & Hz4)
    end.
    rewrite Hl, <- app_assoc. by repeat split.
Qed.

Lemma forwarded_drains ip bp it bt :
  forwardedProcessed (drainedCalls PhaseCallback.UpdateDataProcessed ip bp
                      ++ drainedCalls PhaseCallback.UpdateDataTotal it bt) = (ip, bp) /\
  forwardedTotal (drainedCalls PhaseCallback.UpdateDataProcessed ip bp
                  ++ drainedCalls PhaseCallback.UpdateDataTotal it bt) = (it, bt).
Proof.
  rewrite forwardedProcessed_app, forwardedTotal_app.
  destruct (forwarded_drainedCalls ip bp) as (-> & -> & _ & _).
  destruct (forwarded_drainedCalls it bt) as (_ & _ & -> & ->).
  cbn. by rewrite !Z.add_0_r.
Qed.

Lemma workerCall_requests c a :
  logInfoRequest_ (workerCall c a) = logInfoRequest_ a /\
  finishNowRequest_ (workerCall c a) = finishNowRequest_ a.
Proof. by destruct c. Qed.

(** What a transition of a worker (or of the finisher) leaves alone: the
    main thread and the phase callback; and what it does to the log slot
    and the finish flag. *)
Lemma step_worker_frame (act : Action) (s s' : Channel) :
  isMainAction act = false ->
  step act s = Some s' ->
  phaseLog s' = phaseLog s /\ mainPc s' = mainPc s /\
  finishNowRequest_ (acb s') = finishNowRequest_ (acb s) || isNotifyAllDone act /\
  logInfoRequest_ (acb s')
    = match infoPostedBy act s with
      | m :: _ => Some m
      | [] => logInfoRequest_ (acb s)
      end /\
  (infoPostedBy act s <> [] -> logInfoRequest_ (acb s) = None) /\
  (errorPostedBy act s <> [] ->
   errorRequest_ (acb s) = None /\ errorResponse_ (acb s) = None /\
   errorRequest_ (acb s') = head (errorPostedBy act s)).
Proof.
  intros Hmain Hstep.
  destruct act as [t e|t|t|t m|t|t|c| |ea lt|ust]; try done; cbn in Hstep |- *.
  - destruct (worker_free (workers s t)); [| done]. injection Hstep as <-.
    cbn. by rewrite orb_false_r.
  - destruct (workers s t); try done.
    destruct (errorRequest_ (acb s)) eqn:Hq; [done |].
    destruct (errorResponse_ (acb s)) eqn:Hr; [done |]. injection Hstep as <-.
    cbn. by rewrite orb_false_r.
  - destruct (workers s t); try done.
    destruct (errorResponse_ (acb s)); [| done]. injection Hstep as <-.
    cbn. by rewrite orb_false_r.
  - destruct (worker_free (workers s t)); [| done]. injection Hstep as <-.
    cbn. by rewrite orb_false_r.
  - destruct (workers s t); try done.
    destruct (logInfoRequest_ (acb s)) eqn:Hl; [done |]. injection Hstep as <-.
    cbn. by rewrite orb_false_r.
  - destruct (workers s t); try done; injection Hstep as <-;
      cbn; by rewrite orb_false_r.
  - injection Hstep as <-. cbn. destruct (workerCall_requests c (acb s)) as [-> ->].
    by rewrite orb_false_r.
  - injection Hstep as <-. cbn. by rewrite orb_true_r.
Qed.

(** The finish flag is never taken back, and the main thread has not
    returned from [waitUntilDone] unless the flag is set. *)
Lemma step_finish (act : Action) (s s' : Channel) :
  step act s = Some s' ->
  (finishNowRequest_ (acb s) = true -> finishNowRequest_ (acb s') = true) /\
  ((mainPc s = MDone -> finishNowRequest_ (acb s) = true) ->
   mainPc s' = MDone -> finishNowRequest_ (acb s') = true).
Proof.
  intros Hstep. destruct (isMainAction act) eqn:Hmain.
  - destruct act as [| | | | | | | |ea lt|ust]; try done; cbn in Hstep.
    + destruct (mainPc s); try done.
      destruct (mainWakeCondition (acb s)); [| done]. injection Hstep as <-.
      destruct (mainWake_outcome ea lt s) as (Hpc & _ & _ & _ & -> & _).
      split; [done |]. intros _. rewrite Hpc.
      destruct (wakeThrownAtError ea (acb s)); [done |].
      destruct (wakeThrownAtLogInfo ea lt (acb s)); [done |].
      by destruct (finishNowRequest_ (acb s)).
    + destruct (mainPc s); try done.
      destruct (mainWakeCondition (acb s)); [done |]. injection Hstep as <-.
      destruct (mainTick_outcome ust s) as (Hpc & _ & _ & -> & _).
      split; [done |]. intros _. rewrite Hpc. by destruct ust.
  - destruct (step_worker_frame act s s' Hmain Hstep) as (_ & -> & -> & _).
    split.
    + by intros ->.
    + intros Hdone Hpc. by rewrite (Hdone Hpc).
Qed.

Lemma run_finish (acts : list Action) (s s' : Channel) :
  run acts s = Some s' ->
  (finishNowRequest_ (acb s) = true -> finishNowRequest_ (acb s') = true) /\
  ((mainPc s = MDone -> finishNowRequest_ (acb s) = true) ->
   mainPc s' = MDone -> finishNowRequest_ (acb s') = true).
Proof.
  revert s. induction acts as [|act acts IH]; intros s Hrun; simpl in Hrun.
  - by injection Hrun as <-.
  - destruct (step act s) as [s1|] eqn:Hstep; [| done].
    destruct (step_finish act s s1 Hstep) as [H1 H2].
    destruct (IH s1 Hrun) as [H3 H4]. split; auto.
Qed.

Lemma loggedInfos_app (l1 l2 : PhaseCallback.Log) :
  loggedInfos (l1 ++ l2) = loggedInfos l1 ++ loggedInfos l2.
Proof. apply omap_app. Qed.

Lemma askedErrors_app (l1 l2 : PhaseCallback.Log) :
  askedErrors (l1 ++ l2) = askedErrors l1 ++ askedErrors l2.
Proof. apply omap_app. Qed.

Lemma logged_asks (es : list PhaseCallback.ErrorInfo) :
  loggedInfos (PhaseCallback.ReportError <$> es) = [] /\
  askedErrors (PhaseCallback.ReportError <$> es) = es.
Proof. induction es as [|e es [IH1 IH2]]; [done |]. cbn. split; [done | by f_equal]. Qed.

Lemma logged_infos (ms : list wstring) :
  loggedInfos (PhaseCallback.LogInfo <$> ms) = ms /\
  askedErrors (PhaseCallback.LogInfo <$> ms) = [].
Proof. induction ms as [|m ms [IH1 IH2]]; [done |]. cbn. split; [by f_equal | done]. Qed.

Lemma logged_drainedCalls call i b :
  (forall i b, match call i b with
               | PhaseCallback.LogInfo _ | PhaseCallback.ReportError _ => False
               | _ => True
               end) ->
  loggedInfos (drainedCalls call i b) = [] /\
  askedErrors (drainedCalls call i b) = [].
Proof.
  intros Hcall. unfold drainedCalls.
  destruct ((i =? 0) && (b =? 0)); [done |]. cbn. specialize (Hcall i b).
  by destruct (call i b).
Qed.

Lemma logged_drains ip bp it bt :
  loggedInfos (drainedCalls PhaseCallback.UpdateDataProcessed ip bp
               ++ drainedCalls PhaseCallback.UpdateDataTotal it bt) = [] /\
  askedErrors (drainedCalls PhaseCallback.UpdateDataProcessed ip bp
               ++ drainedCalls PhaseCallback.UpdateDataTotal it bt) = [].
Proof.
  rewrite loggedInfos_app, askedErrors_app.
  destruct (logged_drainedCalls PhaseCallback.UpdateDataProcessed ip bp) as [-> ->]; [done |].
  destruct (logged_drainedCalls PhaseCallback.UpdateDataTotal it bt) as [-> ->]; [done |].
  done.
Qed.

(** What one transition adds to the calls of [cb.logInfo] and
    [cb.reportError]. *)
Lemma step_logged (act : Action) (s s' : Channel) :
  step act s = Some s' ->
  loggedInfos (phaseLog s')
  = loggedInfos (phaseLog s)
    ++ match act with
       | MainWake ea _ => wakeInfos ea (acb s)
       | _ => []
       end /\
  askedErrors (phaseLog s')
  = askedErrors (phaseLog s)
    ++ match act with
       | MainWake _ _ => wakeAsks (acb s)
       | _ => []
       end.
Proof.
  intros Hstep. destruct (isMainAction act) eqn:Hmain.
  - destruct act as [| | | | | | | |ea lt|ust]; try done; cbn in Hstep.
    + destruct (mainPc s); try done.
      destruct (mainWakeCondition (acb s)); [| done]. injection Hstep as <-.
      destruct (mainWake_outcome ea lt s) as (_ & -> & _).
      rewrite !loggedInfos_app, !askedErrors_app.
      destruct (logged_asks (wakeAsks (acb s))) as [-> ->].
      destruct (logged_infos (wakeInfos ea (acb s))) as [-> ->].
      destruct (wakeFinishes ea lt (acb s)).
      * destruct (logged_drains (itemsDeltaProcessed_ (acb s)) (bytesDeltaProcessed_ (acb s))
                    (itemsDeltaTotal_ (acb s)) (bytesDeltaTotal_ (acb s))) as [-> ->].
        by rewrite !app_nil_r.
      * by rewrite !app_nil_r.
    + destruct (mainPc s); try done.
      destruct (mainWakeCondition (acb s)); [done |]. injection Hstep as <-.
      destruct (mainTick_outcome ust s) as (_ & -> & _).
      rewrite !loggedInfos_app, !askedErrors_app.
      destruct (bool_decide (ust = None)).
      * destruct (logged_drains (itemsDeltaProcessed_ (acb s)) (bytesDeltaProcessed_ (acb s))
                    (itemsDeltaTotal_ (acb s)) (bytesDeltaTotal_ (acb s))) as [-> ->].
        by rewrite !app_nil_r.
      * by rewrite !app_nil_r.
  - destruct (step_worker_frame act s s' Hmain Hstep) as (-> & _).
    destruct act; try done; by rewrite !app_nil_r.
Qed.

(** The log slot during a run: what was posted is what [cb.logInfo] got
    plus the message still in the slot; once [cb.logInfo] has thrown, the
    message it was called with stays in the slot for good. *)
Lemma step_info_delivery (act : Action) (s s' : Channel) (acc : list wstring) :
  step act s = Some s' ->
  (acc = loggedInfos (phaseLog s) ++ option_list (logInfoRequest_ (acb s)) \/
   (mainFailed (mainPc s) = true /\
    (exists m, logInfoRequest_ (acb s) = Some m /\
               last (loggedInfos (phaseLog s)) = Some m) /\
    acc = loggedInfos (phaseLog s))) ->
  (acc ++ infoPostedBy act s
   = loggedInfos (phaseLog s') ++ option_list (logInfoRequest_ (acb s')) \/
   (mainFailed (mainPc s') = true /\
    (exists m, logInfoRequest_ (acb s') = Some m /\
               last (loggedInfos (phaseLog s')) = Some m) /\
    acc ++ infoPostedBy act s = loggedInfos (phaseLog s'))).
Proof.
  intros Hstep Hinv. destruct (step_logged act s s' Hstep) as [Hlog _].
  destruct (isMainAction act) eqn:Hmain.
  - destruct act as [| | | | | | | |ea lt|ust]; try done; cbn in Hstep;
      destruct (mainPc s) eqn:Hpc; try done;
      (destruct Hinv as [-> | (Hf & _)]; [| done]); cbn [infoPostedBy];
      rewrite app_nil_r, Hlog.
    + destruct (mainWakeCondition (acb s)); [| done]. injection Hstep as <-.
      destruct (mainWake_outcome ea lt s) as (Hpc' & _ & _ & Hreq & _).
      rewrite Hpc', Hreq. unfold wakeThrownAtLogInfo, wakeInfos.
      destruct (wakeThrownAtError ea (acb s)) as [x|].
      * left. by rewrite app_nil_r.
      * destruct (logInfoRequest_ (acb s)) as [m|] eqn:Hm; cbn.
        -- destruct lt as [x|]; [right | left]; rewrite ?app_nil_r; [| done].
           split; [done |]. split; [| done]. exists m. by rewrite last_snoc.
        -- left. by rewrite !app_nil_r.
    + destruct (mainWakeCondition (acb s)); [done |]. injection Hstep as <-.
      destruct (mainTick_outcome ust s) as (_ & _ & -> & _).
      left. by rewrite app_nil_r.
  - destruct (step_worker_frame act s s' Hmain Hstep)
      as (Hl & Hpc & _ & Hreq & Hnone & _).
    rewrite Hl, Hpc, Hreq.
    destruct (infoPostedBy act s) as [|m ms] eqn:Hposted.
    + rewrite app_nil_r. exact Hinv.
    + assert (ms = []) as ->.
      { destruct act; try done. cbn in Hposted. by destruct (workers s t); simplify_eq. }
      rewrite Hnone in Hinv by done.
      destruct Hinv as [-> | (_ & (? & ? & _) & _)]; [| done].
      left. cbn. by rewrite app_nil_r.
Qed.

Lemma run_info_delivery (acts : list Action) (s s' : Channel) (acc : list wstring) :
  run acts s = Some s' ->
  (acc = loggedInfos (phaseLog s) ++ option_list (logInfoRequest_ (acb s)) \/
   (mainFailed (mainPc s) = true /\
    (exists m, logInfoRequest_ (acb s) = Some m /\
               last (loggedInfos (phaseLog s)) = Some m) /\
    acc = loggedInfos (phaseLog s))) ->
  (acc ++ acceptedLogInfos translate_P acts s
   = loggedInfos (phaseLog s') ++ option_list (logInfoRequest_ (acb s')) \/
   (mainFailed (mainPc s') = true /\
    (exists m, logInfoRequest_ (acb s') = Some m /\
               last (loggedInfos (phaseLog s')) = Some m) /\
    acc ++ acceptedLogInfos translate_P acts s = loggedInfos (phaseLog s'))).
Proof.
  revert s acc. induction acts as [|act acts IH]; intros s acc Hrun Hinv;
    simpl in Hrun |- *.
  - injection Hrun as <-. by rewrite app_nil_r.
  - destruct (step act s) as [s1|] eqn:Hstep; [| done].
    rewrite app_assoc. apply (IH s1); [done |].
    by apply step_info_delivery.
Qed.

(** The error slots during a run: the errors posted are those
    [cb.reportError] was asked about plus the one still waiting for the
    main thread; once [cb.reportError] has thrown, the request stays
    unanswered. *)
Lemma step_error_delivery (act : Action) (s s' : Channel)
    (acc : list PhaseCallback.ErrorInfo) :
  step act s = Some s' ->
  (acc = askedErrors (phaseLog s) ++ wakeAsks (acb s) \/
   (mainFailed (mainPc s) = true /\ wakeAsks (acb s) <> [] /\
    acc = askedErrors (phaseLog s))) ->
  (acc ++ errorPostedBy act s = askedErrors (phaseLog s') ++ wakeAsks (acb s') \/
   (mainFailed (mainPc s') = true /\ wakeAsks (acb s') <> [] /\
    acc ++ errorPostedBy act s = askedErrors (phaseLog s'))).
Proof.
  intros Hstep Hinv. destruct (step_logged act s s' Hstep) as [_ Hlog].
  destruct (isMainAction act) eqn:Hmain.
  - destruct act as [| | | | | | | |ea lt|ust]; try done; cbn in Hstep;
      destruct (mainPc s) eqn:Hpc; try done;
      (destruct Hinv as [-> | (Hf & _)]; [| done]); cbn [errorPostedBy];
      rewrite app_nil_r, Hlog.
    + destruct (mainWakeCondition (acb s)); [| done]. injection Hstep as <-.
      destruct (mainWake_outcome ea lt s) as (Hpc' & _ & Hresp & _).
      destruct (mainWake_frame ea lt s) as (_ & _ & Hreq & _).
      rewrite Hpc'. unfold wakeThrownAtError.
      unfold wakeAsks at 3 5. rewrite Hreq, Hresp.
      unfold wakeAsks.
      destruct (errorRequest_ (acb s)) as [e|], (errorResponse_ (acb s)) as [rv|];
        cbn; try (left; by rewrite ?app_nil_r).
      destruct ea as [rv|x]; [left | right]; by rewrite ?app_nil_r.
    + destruct (mainWakeCondition (acb s)); [done |]. injection Hstep as <-.
      destruct (mainTick_frame translate_P ust s) as (_ & _ & Hreq & Hresp).
      left. unfold wakeAsks. by rewrite Hreq, Hresp, app_nil_r.
  - destruct (step_worker_frame act s s' Hmain Hstep) as (Hl & Hpc & _).
    rewrite Hl, Hpc.
    destruct (step_kinds translate_P act s s' Hstep)
      as [(_ & Hq & [Hr | (_ & _ & _ & ea & lt & ->)] & _)
         | [(t & e & -> & Hw & Hq & Hr & Hq' & Hr' & _)
           | (t & rv & -> & Hw & Hr & Hq' & Hr' & _)]]; try done.
    + assert (errorPostedBy act s = []) as ->.
      { destruct act; try done. cbn in Hstep |- *.
        destruct (workers s t); try done.
        destruct (errorRequest_ (acb s)), (errorResponse_ (acb s)); try done.
        injection Hstep as <-. cbn in Hq. done. }
      rewrite app_nil_r. unfold wakeAsks in *. by rewrite Hq, Hr.
    + cbn. rewrite Hw. unfold wakeAsks in *. rewrite ?Hq, ?Hr in Hinv.
      rewrite Hq', Hr'. cbn in Hinv. destruct Hinv as [-> | (_ & ? & _)]; [| done].
      left. by rewrite app_nil_r.
    + cbn. unfold wakeAsks in *. rewrite Hr in Hinv. rewrite Hq'.
      destruct (errorRequest_ (acb s)); (destruct Hinv as [-> | (_ & ? & _)]; [| done]);
        left; by rewrite !app_nil_r.
Qed.

Lemma run_error_delivery (acts : list Action) (s s' : Channel)
    (acc : list PhaseCallback.ErrorInfo) :
  run acts s = Some s' ->
  (acc = askedErrors (phaseLog s) ++ wakeAsks (acb s) \/
   (mainFailed (mainPc s) = true /\ wakeAsks (acb s) <> [] /\
    acc = askedErrors (phaseLog s))) ->
  (acc ++ acceptedErrors translate_P acts s
   = askedErrors (phaseLog s') ++ wakeAsks (acb s') \/
   (mainFailed (mainPc s') = true /\ wakeAsks (acb s') <> [] /\
    acc ++ acceptedErrors translate_P acts s = askedErrors (phaseLog s'))).
Proof.
  revert s acc. induction acts as [|act acts IH]; intros s acc Hrun Hinv;
    simpl in Hrun |- *.
  - injection Hrun as <-. by rewrite app_nil_r.
  - destruct (step act s) as [s1|] eqn:Hstep; [| done].
    rewrite app_assoc. apply (IH s1); [done |].
    by apply step_error_delivery.
Qed.

Lemma step_finish_origin (act : Action) (s s' : Channel) :
  step act s = Some s' ->
  finishNowRequest_ (acb s') = true ->
  finishNowRequest_ (acb s) = true \/ act = NotifyAllDone.
Proof.
  intros Hstep Hfin. destruct (isMainAction act) eqn:Hmain.
  - left. destruct act as [| | | | | | | |ea lt|ust]; try done; cbn in Hstep;
      destruct (mainPc s); try done.
    + destruct (mainWakeCondition (acb s)); [| done]. injection Hstep as <-.
      destruct (mainWake_outcome ea lt s) as (_ & _ & _ & _ & <- & _). done.
    + destruct (mainWakeCondition (acb s)); [done |]. injection Hstep as <-.
      destruct (mainTick_outcome ust s) as (_ & _ & _ & <- & _). done.
  - destruct (step_worker_frame act s s' Hmain Hstep) as (_ & _ & Hf & _).
    rewrite Hf in Hfin. apply orb_true_iff in Hfin as [? | Hn]; [by left | right].
    by destruct act.
Qed.

Lemma run_finish_origin (acts : list Action) (s s' : Channel) :
  run acts s = Some s' ->
  finishNowRequest_ (acb s') = true ->
  finishNowRequest_ (acb s) = true \/ NotifyAllDone ∈ acts.
Proof.
  revert s. induction acts as [|act acts IH]; intros s Hrun Hfin; simpl in Hrun.
  - injection Hrun as <-. by left.
  - destruct (step act s) as [s1|] eqn:Hstep; [| done].
    destruct (IH s1 Hrun Hfin) as [Hf | Hin].
    + destruct (step_finish_origin act s s1 Hstep Hf) as [? | ->]; [by left | right].
      apply elem_of_cons. by left.
    + right. apply elem_of_cons. by right.
Qed.

Lemma run_notified (acts : list Action) (s s' : Channel) :
  run acts s = Some s' -> NotifyAllDone ∈ acts -> finishNowRequest_ (acb s') = true.
Proof.
  revert s. induction acts as [|act acts IH]; intros s Hrun Hin; simpl in Hrun.
  - by apply elem_of_nil in Hin.
  - destruct (step act s) as [s1|] eqn:Hstep; [| done].
    apply elem_of_cons in Hin as [<- | Hin].
    + destruct (run_finish acts s1 s' Hrun) as [Hkeep _]. apply Hkeep.
      cbn in Hstep. by injection Hstep as <-.
    + by apply (IH s1).
Qed.

Lemma mainWakeCondition_false (a : AsyncCallback) :
  mainWakeCondition a = false <->
  (errorRequest_ a = None \/ errorResponse_ a <> None) /\
  logInfoRequest_ a = None /\ finishNowRequest_ a = false.
Proof.
  unfold mainWakeCondition.
  destruct (errorRequest_ a), (errorResponse_ a), (logInfoRequest_ a), (finishNowRequest_ a);
    cbn; split; try done; try (intros ([? | ?] & ? & ?); done);
    intros _; (split; [| done]); (by left) || (by right).
Qed.

Lemma mainWake_drains ea lt (s : Channel) :
  let s' := mainWake ea lt s in
  (mainPc s' = MRunning -> mainWakeCondition (acb s') = false) /\
  (mainPc s' = MDone ->
   logInfoRequest_ (acb s') = None /\
   itemsDeltaProcessed_ (acb s') = 0 /\ bytesDeltaProcessed_ (acb s') = 0 /\
   itemsDeltaTotal_ (acb s') = 0 /\ bytesDeltaTotal_ (acb s') = 0).
Proof.
  cbn zeta.
  destruct (mainWake_outcome ea lt s)
    as (Hpc & _ & Hresp & Hlog & Hfin & _ & Hip & Hbp & Hit & Hbt).
  destruct (mainWake_frame ea lt s) as (_ & _ & Hreq & _).
  rewrite Hpc. unfold wakeFinishes in *. unfold wakeThrownAtError in *.
  destruct (wakeAsks (acb s)) as [|e es] eqn:Hasks.
  - destruct (wakeThrownAtLogInfo ea lt (acb s)); [done |].
    destruct (finishNowRequest_ (acb s)) eqn:Hf; (split; [| done]); intros ?; [done |].
    apply mainWakeCondition_false. rewrite Hreq, Hresp, Hlog, Hfin.
    split; [| done]. unfold wakeAsks in Hasks.
    destruct (errorRequest_ (acb s)), (errorResponse_ (acb s)); try done;
      (by left) || (by right).
  - destruct ea as [rv|x]; [| done].
    destruct (wakeThrownAtLogInfo (CbResponse rv) lt (acb s)); [done |].
    destruct (finishNowRequest_ (acb s)) eqn:Hf; (split; [| done]); intros ?; [done |].
    apply mainWakeCondition_false. rewrite Hresp, Hlog, Hfin.
    split; [by right | done].
Qed.

End RequestChannelRunFacts.

(** ** The request channel over whole runs *)

(** ** The drain raced by workers, one atomic operation at a time *)

(** One atomic operation keeps the account of every counter: what the
    phase callback was handed, plus what is pending, plus what the main
    thread has taken off and not handed over yet, grows by what the
    operation adds for a worker, and by nothing else. *)
Lemma statStep_account (act : StatAction) (s s' : StatRace) (c : Counter) :
  statStep act s = Some s' ->
  counterWrap c (forwardedTo c (raceLog s') + counterValue c (raceAcb s')
                 + inFlight c (racePc s'))
  = counterWrap c (forwardedTo c (raceLog s) + counterValue c (raceAcb s)
                   + inFlight c (racePc s) + addedTo c [act]).
Proof.
  destruct s as [a pc log]. intros Hstep.
  destruct act as [c' d| | | |]; cbn in Hstep.
  - injection Hstep as <-. destruct c, c', pc as [|k i b|k i b [| |]]; try destruct k;
      cbn; rewrite ?Z.add_0_r; wrap_solve.
  - destruct pc; [| done | done]. injection Hstep as <-. cbn. by rewrite !Z.add_0_r.
  - destruct pc as [|k [i|] b|]; try done. injection Hstep as <-. cbn.
    by rewrite !Z.add_0_r.
  - destruct pc as [|k i [b|]|]; try done; try (by destruct i).
    injection Hstep as <-. cbn. by rewrite !Z.add_0_r.
  - destruct pc as [|k [i|] [b|]|k i b [| |]]; try done.
    + destruct (negb (i =? 0) || negb (b =? 0)); injection Hstep as <-;
        destruct c, k; cbn; by rewrite !Z.add_0_r.
    + injection Hstep as <-. destruct c, k; cbn; rewrite ?Z.add_0_r; wrap_solve.
    + injection Hstep as <-. destruct c, k; cbn; rewrite ?Z.add_0_r; wrap_solve.
    + injection Hstep as <-.
      destruct c, k; cbn; rewrite ?forwardedProcessed_app, ?forwardedTotal_app; cbn;
        rewrite ?Z.add_0_r; f_equal; lia.
Qed.

Lemma addedTo_cons (c : Counter) (act : StatAction) (acts : list StatAction) :
  addedTo c (act :: acts) = addedTo c [act] + addedTo c acts.
Proof. destruct act; cbn; lia. Qed.

Lemma statRun_account (acts : list StatAction) (s s' : StatRace) (c : Counter) :
  statRun acts s = Some s' ->
  counterWrap c (forwardedTo c (raceLog s') + counterValue c (raceAcb s')
                 + inFlight c (racePc s'))
  = counterWrap c (forwardedTo c (raceLog s) + counterValue c (raceAcb s)
                   + inFlight c (racePc s) + addedTo c acts).
Proof.
  revert s. induction acts as [|act acts IH]; intros s Hrun; simpl in Hrun.
  - injection Hrun as <-. cbn. by rewrite Z.add_0_r.
  - destruct (statStep act s) as [s1|] eqn:Hstep; [| done].
    rewrite (IH s1 Hrun), addedTo_cons.
    pose proof (statStep_account act s s1 c Hstep) as Hacc.
    destruct c; cbn [counterWrap] in *.
    all: match goal with
         | |- ?w (?x + ?y) = ?w (?z + (?u + ?y)) =>
             transitivity (w (w x + y)); [wrap_solve |];
             rewrite Hacc; wrap_solve
         end.
Qed.

Lemma statRun_app (acts1 acts2 : list StatAction) (s : StatRace) :
  statRun (acts1 ++ acts2) s
  = match statRun acts1 s with Some s1 => statRun acts2 s1 | None => None end.
Proof.
  revert s. induction acts1 as [|act acts1 IH]; intros s; simpl; [done |].
  by destruct (statStep act s).
Qed.

(** The drain of one pair that no worker interrupts. *)
Lemma pairOps_run (k : StatPair) (a : AsyncCallback) (log : PhaseCallback.Log) :
  let i := counterValue (itemsOf k) a in
  let b := counterValue (bytesOf k) a in
  statRun (pairOps i b) (MkStatRace a (DLoading k None None) log)
  = Some (if negb (i =? 0) || negb (b =? 0)
          then MkStatRace (atomicAdd (bytesOf k) (int64 (- b))
                             (atomicAdd (itemsOf k) (int32 (- i)) a))
                          (afterPair k) (handOver k i b log)
          else MkStatRace a (afterPair k) log).
Proof.
  cbn zeta. unfold pairOps.
  destruct (negb (counterValue (itemsOf k) a =? 0) || negb (counterValue (bytesOf k) a =? 0))
    eqn:Htest; cbn; by rewrite Htest.
Qed.

(** X6.  Counters under a raced drain.  The counters are lock-free
    atomics and [reportStats] runs outside the request lock, so a
    worker's [+=] can land between any two atomic operations of the
    drain: between the two reads of a pair, between a read and the add of
    its negation, between the two adds, before the callback is called.
    Over every interleaving of such adds with the operations of
    [reportStats], and for each of the four counters, in the counter's
    own arithmetic: what the phase callback has been handed, plus what is
    pending, plus what the main thread has taken off the counter and not
    handed over yet, is what the workers added.  Whenever the main thread
    is outside [reportStats], handed over plus pending is what was
    added: no increment is lost and none is handed over twice.  The
    operations are those of the functions: the two adds of a worker call
    make up [updateDataProcessed] or [updateDataTotal], and the
    operations of a drain that no worker interrupts make up
    [reportStats]. *)
Theorem counters_conserved_in_raced_drain :
  forall (acts : list StatAction) (s : StatRace),
    statRun acts StatRace_new = Some s ->
    (forall c : Counter,
        counterWrap c (forwardedTo c (raceLog s) + counterValue c (raceAcb s)
                       + inFlight c (racePc s))
        = counterWrap c (addedTo c acts)) /\
    (racePc s = DOutside ->
     forall c : Counter,
       counterWrap c (forwardedTo c (raceLog s) + counterValue c (raceAcb s))
       = counterWrap c (addedTo c acts)) /\
    (forall (call : WorkerCall) (s0 : StatRace),
        statRun (workerOps call) s0
        = Some (MkStatRace (workerCall call (raceAcb s0)) (racePc s0) (raceLog s0))) /\
    (forall (acb : AsyncCallback) (log : PhaseCallback.Log),
        statRun (drainOps acb) (MkStatRace acb DOutside log)
        = Some (MkStatRace (reportStats log acb).1 DOutside (reportStats log acb).2)).
Proof.
  intros acts s Hrun.
  assert (Hall : forall c : Counter,
             counterWrap c (forwardedTo c (raceLog s) + counterValue c (raceAcb s)
                            + inFlight c (racePc s))
             = counterWrap c (addedTo c acts)).
  { intros c. rewrite (statRun_account acts StatRace_new s c Hrun).
    destruct c; cbn; f_equal; lia. }
  split; [exact Hall |]. split; [| split].
  - intros Hpc c. rewrite <- (Hall c), Hpc. cbn. by rewrite Z.add_0_r.
  - intros call s0. by destruct call, s0.
  - intros acb log. unfold drainOps. rewrite (statRun_app [DrainEnter]).
    change (statRun [DrainEnter] (MkStatRace acb DOutside log))
      with (Some (MkStatRace acb (DLoading PairProcessed None None) log)).
    cbv iota beta. rewrite statRun_app.
    pose proof (pairOps_run PairProcessed acb log) as Hprocessed.
    cbv zeta in Hprocessed. cbn [counterValue itemsOf bytesOf] in Hprocessed.
    rewrite Hprocessed. clear Hprocessed.
    unfold reportStats. cbn [fst snd].
    destruct (negb (itemsDeltaProcessed_ acb =? 0) || negb (bytesDeltaProcessed_ acb =? 0));
      cbn [afterPair].
    + match goal with
      | |- statRun _ (MkStatRace ?a _ ?l) = _ =>
          pose proof (pairOps_run PairTotal a l) as Htotal
      end.
      cbv zeta in Htotal. cbn [counterValue itemsOf bytesOf] in Htotal.
      cbn in Htotal |- *. rewrite Htotal.
      by destruct (negb (itemsDeltaTotal_ acb =? 0) || negb (bytesDeltaTotal_ acb =? 0)).
    + pose proof (pairOps_run PairTotal acb log) as Htotal.
      cbv zeta in Htotal. cbn [counterValue itemsOf bytesOf] in Htotal.
      rewrite Htotal. cbn.
      by destruct (negb (itemsDeltaTotal_ acb =? 0) || negb (bytesDeltaTotal_ acb =? 0)).
Qed.

(** Three items pending, read by the main thread; two more added by a
    worker before the negation is added: three are handed over, two stay
    pending. *)
Lemma counters_conserved_in_raced_drain_witness :
  exists s : StatRace,
    statRun raced_drain StatRace_new = Some s /\
    racePc s = DOutside /\
    forwardedTo ItemsProcessed (raceLog s) = 3 /\
    counterValue ItemsProcessed (raceAcb s) = 2 /\
    int32 (forwardedTo ItemsProcessed (raceLog s) + counterValue ItemsProcessed (raceAcb s))
    = int32 (addedTo ItemsProcessed raced_drain).
Proof.
  destruct (statRun raced_drain StatRace_new) as [s|] eqn:Hrun;
    [| vm_compute in Hrun; discriminate].
  exists s. split; [reflexivity |].
  assert (Hs : racePc s = DOutside /\ forwardedTo ItemsProcessed (raceLog s) = 3 /\
               counterValue ItemsProcessed (raceAcb s) = 2).
  { vm_compute in Hrun. injection Hrun as <-. by vm_compute. }
  destruct Hs as (Hpc & Hf & Hp). split; [exact Hpc |]. split; [exact Hf |].
  split; [exact Hp |].
  destruct (counters_conserved_in_raced_drain raced_drain s Hrun) as (_ & Houtside & _).
  exact (Houtside Hpc ItemsProcessed).
Defined.

(** X7.  [waitUntilDone] returns only after [notifyAllDone]: in a run from
    the initial state the main thread has left [waitUntilDone] normally
    only if some thread has called [notifyAllDone]; and once it has been
    called the finish flag stays set. *)
Theorem waitUntilDone_returns_after_notifyAllDone :
  forall (X : Type) (translate_P : wstring -> wstring -> nat -> wstring)
         (acts : list (@Action X)) (s : @Channel X),
    run translate_P acts Channel_new = Some s ->
    (mainPc s = MDone -> NotifyAllDone ∈ acts) /\
    (NotifyAllDone ∈ acts <-> finishNowRequest_ (acb s) = true).
Proof.
  intros X translate_P acts s Hrun.
  assert (Hiff : NotifyAllDone ∈ acts <-> finishNowRequest_ (acb s) = true).
  { split.
    - by apply (run_notified translate_P acts Channel_new).
    - intros Hf. by destruct (run_finish_origin translate_P acts Channel_new s Hrun Hf). }
  split; [| done]. intros Hdone. apply Hiff.
  by apply (run_finish translate_P acts Channel_new s Hrun).
Qed.

Lemma waitUntilDone_returns_witness :
  exists s : @Channel unit,
    run translate_en phase_run Channel_new = Some s /\
    mainPc s = MDone /\ NotifyAllDone ∈ phase_run.
Proof.
  destruct (run translate_en phase_run Channel_new) as [s|] eqn:Hrun;
    [| vm_compute in Hrun; discriminate].
  exists s. split; [reflexivity |].
  assert (Hdone : mainPc s = MDone).
  { vm_compute in Hrun. injection Hrun as <-. reflexivity. }
  split; [exact Hdone |].
  destruct (waitUntilDone_returns_after_notifyAllDone unit translate_en phase_run s Hrun)
    as [Hnotified _].
  exact (Hnotified Hdone).
Defined.

(** X8.  Log messages through the channel.  In a run from the initial
    state the messages [cb.logInfo] has been called with are an initial
    part of the messages workers wrote into the log slot, in the order
    they were written: none is invented, reordered or passed on twice.
    At most one written message has not been passed on; unless
    [cb.logInfo] itself threw, it is the one still in the slot. *)
Theorem logInfo_delivery :
  forall (X : Type) (translate_P : wstring -> wstring -> nat -> wstring)
         (acts : list (@Action X)) (s : @Channel X),
    run translate_P acts Channel_new = Some s ->
    let posted := acceptedLogInfos translate_P acts Channel_new in
    let passed := loggedInfos (phaseLog s) in
    passed `prefix_of` posted /\
    (length posted <= length passed + 1)%nat /\
    (posted = passed ++ option_list (logInfoRequest_ (acb s)) \/
     (mainFailed (mainPc s) = true /\ posted = passed /\
      exists m, logInfoRequest_ (acb s) = Some m /\ last passed = Some m)) /\
    (logInfoRequest_ (acb s) = None -> passed = posted).
Proof.
  intros X translate_P acts s Hrun posted passed.
  destruct (run_info_delivery translate_P acts Channel_new s [] Hrun) as [Heq | (Hf & Hm & Heq)];
    [by left | |]; cbn [app] in Heq; fold posted in Heq; fold passed in Heq.
  - refine (conj _ (conj _ (conj _ _))).
    + rewrite Heq. by apply prefix_app_r.
    + rewrite Heq, length_app. destruct (logInfoRequest_ (acb s)); cbn; lia.
    + by left.
    + intros Hnone. rewrite Heq, Hnone. cbn. by rewrite app_nil_r.
  - refine (conj _ (conj _ (conj _ _))).
    + by rewrite Heq.
    + rewrite Heq. lia.
    + right. done.
    + intros Hnone. destruct Hm as (m & Hm & _). congruence.
Qed.

Lemma logInfo_delivery_witness :
  exists s : @Channel unit,
    run translate_en phase_run Channel_new = Some s /\
    loggedInfos (phaseLog s) = ["copying"] /\
    acceptedLogInfos translate_en phase_run Channel_new = ["copying"].
Proof.
  destruct (run translate_en phase_run Channel_new) as [s|] eqn:Hrun;
    [| vm_compute in Hrun; discriminate].
  exists s. split; [reflexivity |].
  destruct (logInfo_delivery unit translate_en phase_run s Hrun) as (_ & _ & _ & Hall).
  rewrite Hall.
  - split; vm_compute; reflexivity.
  - vm_compute in Hrun. injection Hrun as <-. reflexivity.
Defined.

(** X9.  Errors through the channel.  In a run from the initial state the
    errors [cb.reportError] has been asked about are an initial part of
    the errors workers wrote into the request slot, in the order they
    were written: the main thread asks about each posted error at most
    once and about nothing else.  At most one posted error has not been
    asked about: the one in the slot with no response yet.  Once a
    response is in its slot, or the request slot is empty, every posted
    error has been asked about. *)
Theorem reportError_delivery :
  forall (X : Type) (translate_P : wstring -> wstring -> nat -> wstring)
         (acts : list (@Action X)) (s : @Channel X),
    run translate_P acts Channel_new = Some s ->
    let posted := acceptedErrors translate_P acts Channel_new in
    let asked := askedErrors (phaseLog s) in
    asked `prefix_of` posted /\
    (length posted <= length asked + 1)%nat /\
    (mainFailed (mainPc s) = false -> posted = asked ++ wakeAsks (acb s)) /\
    (errorRequest_ (acb s) = None \/ errorResponse_ (acb s) <> None -> asked = posted).
Proof.
  intros X translate_P acts s Hrun posted asked.
  destruct (run_error_delivery translate_P acts Channel_new s [] Hrun)
    as [Heq | (Hf & Hm & Heq)];
    [by left | |]; cbn [app] in Heq; fold posted in Heq; fold asked in Heq.
  - refine (conj _ (conj _ (conj _ _))).
    + rewrite Heq. by apply prefix_app_r.
    + rewrite Heq, length_app. unfold wakeAsks.
      destruct (errorRequest_ (acb s)), (errorResponse_ (acb s)); cbn; lia.
    + done.
    + intros Hslots. rewrite Heq. unfold wakeAsks.
      destruct (errorRequest_ (acb s)), (errorResponse_ (acb s));
        try by rewrite app_nil_r.
      by destruct Hslots.
  - refine (conj _ (conj _ (conj _ _))).
    + by rewrite Heq.
    + rewrite Heq. lia.
    + intros Hnf. congruence.
    + done.
Qed.

Lemma reportError_delivery_witness :
  exists s : @Channel unit,
    run translate_en phase_run Channel_new = Some s /\
    askedErrors (phaseLog s) = [error_e1] /\
    acceptedErrors translate_en phase_run Channel_new = [error_e1].
Proof.
  destruct (run translate_en phase_run Channel_new) as [s|] eqn:Hrun;
    [| vm_compute in Hrun; discriminate].
  exists s. split; [reflexivity |].
  destruct (reportError_delivery unit translate_en phase_run s Hrun) as (_ & _ & _ & Hall).
  rewrite Hall.
  - split; vm_compute; reflexivity.
  - left. vm_compute in Hrun. injection Hrun as <-. reflexivity.
Defined.

(** X10.  One pass of the inner loop of [waitUntilDone] handles everything
    that was pending.  If a wake-up neither throws nor ends the wait, the
    wait condition is false afterwards: the main thread blocks until a
    worker posts again or the interval expires.  If the wake-up ends the
    wait, the log slot is empty and the last drain has left all four
    counters at zero. *)
Theorem wake_handles_all_pending :
  forall (X : Type) (translate_P : wstring -> wstring -> nat -> wstring)
         (ea : CbOutcome X) (lt : option X) (s s' : @Channel X),
    step translate_P (MainWake ea lt) s = Some s' ->
    (mainPc s' = MRunning ->
     mainWakeCondition (acb s') = false /\
     step translate_P (MainWake ea lt) s' = None) /\
    (mainPc s' = MDone ->
     finishNowRequest_ (acb s) = true /\
     logInfoRequest_ (acb s') = None /\
     itemsDeltaProcessed_ (acb s') = 0 /\ bytesDeltaProcessed_ (acb s') = 0 /\
     itemsDeltaTotal_ (acb s') = 0 /\ bytesDeltaTotal_ (acb s') = 0).
Proof.
  intros X translate_P ea lt s s' Hstep. cbn in Hstep.
  destruct (mainPc s); try done.
  destruct (mainWakeCondition (acb s)); [| done]. injection Hstep as <-.
  destruct (mainWake_drains ea lt s) as [Hrunning Hdone]. split.
  - intros Hpc. specialize (Hrunning Hpc). split; [done |].
    cbn. by rewrite Hpc, Hrunning.
  - intros Hpc. split; [| by apply Hdone].
    destruct (mainWake_outcome ea lt s) as (Hpc' & _). rewrite Hpc' in Hpc.
    destruct (wakeThrownAtError ea (acb s)); [done |].
    destruct (wakeThrownAtLogInfo ea lt (acb s)); [done |].
    by destruct (finishNowRequest_ (acb s)).
Qed.

Lemma wake_handles_all_pending_witness :
  exists s s' : @Channel unit,
    run translate_en (take 5 phase_run) Channel_new = Some s /\
    step translate_en (MainWake (CbResponse PhaseCallback.retry) None) s = Some s' /\
    mainWakeCondition (acb s) = true /\
    mainWakeCondition (acb s') = false.
Proof.
  destruct (run translate_en (take 5 phase_run) Channel_new) as [s|] eqn:Hrun;
    [| vm_compute in Hrun; discriminate].
  destruct (step translate_en (MainWake (CbResponse PhaseCallback.retry) None) s)
    as [s'|] eqn:Hstep;
    [| vm_compute in Hrun; injection Hrun as <-; vm_compute in Hstep; discriminate].
  exists s, s'. split; [reflexivity |]. split; [exact Hstep |]. split.
  - vm_compute in Hrun. injection Hrun as <-. reflexivity.
  - apply (wake_handles_all_pending unit translate_en _ _ s s' Hstep).
    vm_compute in Hrun. injection Hrun as <-.
    vm_compute in Hstep. injection Hstep as <-. reflexivity.
Defined.

(** X11.  The answer reaches the worker that asked.  In a reachable state
    where a worker waits for the response to its error and the main
    thread is still in [waitUntilDone], the main thread can wake up; it
    asks [cb.reportError] about exactly that worker's error; and whatever
    response the callback gives is what [reportError] returns to that
    worker, which leaves both slots empty for the next error. *)
Theorem error_answer_reaches_poster :
  forall (X : Type) (translate_P : wstring -> wstring -> nat -> wstring)
         (s : @Channel X) (t : ThreadId) (rv : PhaseCallback.Response) (lt : option X),
    reachable translate_P s ->
    workers s t = WErrorWaitResponse ->
    errorResponse_ (acb s) = None ->
    mainPc s = MRunning ->
    exists e s1 s2,
      errorRequest_ (acb s) = Some e /\
      step translate_P (MainWake (CbResponse rv) lt) s = Some s1 /\
      askedErrors (phaseLog s1) = askedErrors (phaseLog s) ++ [e] /\
      step translate_P (ConsumeResponse t) s1 = Some s2 /\
      workers s2 t = WErrorReturned rv /\
      errorRequest_ (acb s2) = None /\ errorResponse_ (acb s2) = None /\
      phaseLog s2 = phaseLog s1.
Proof.
  intros X translate_P s t rv lt Hreach Hw Hresp Hpc.
  destruct (reachable_inv translate_P s Hreach) as (I1 & I2 & _).
  pose proof (I1 t Hw) as Hposter.
  destruct (errorRequest_ (acb s)) as [e|] eqn:Hreq;
    [| destruct I2 as [_ I2]; rewrite I2 in Hposter; done].
  exists e.
  assert (Hcond : mainWakeCondition (acb s) = true).
  { unfold mainWakeCondition. by rewrite Hreq, Hresp. }
  assert (Hstep : step translate_P (MainWake (CbResponse rv) lt) s
                  = Some (mainWake (CbResponse rv) lt s)).
  { cbn. by rewrite Hpc, Hcond. }
  exists (mainWake (CbResponse rv) lt s).
  destruct (step_logged translate_P _ s _ Hstep) as [_ Hasked].
  destruct (mainWake_outcome (CbResponse rv) lt s) as (_ & _ & Hresp' & _).
  destruct (mainWake_frame (CbResponse rv) lt s) as (Hws & _ & Hreq' & _).
  unfold wakeAsks in Hasked, Hresp'. rewrite Hreq, Hresp in Hasked, Hresp'.
  eexists. split; [done |]. split; [done |]. split; [done |].
  cbn [step]. rewrite Hws, Hw, Hresp'.
  split; [reflexivity |]. cbn. by rewrite set_worker_eq.
Qed.

Lemma error_answer_reaches_poster_witness :
  exists s s1 s2 : @Channel unit,
    run translate_en two_reporters Channel_new = Some s /\
    step translate_en (MainWake (CbResponse PhaseCallback.retry) None) s = Some s1 /\
    step translate_en (ConsumeResponse 1%nat) s1 = Some s2 /\
    workers s2 1%nat = WErrorReturned PhaseCallback.retry.
Proof.
  destruct (run translate_en two_reporters Channel_new) as [s|] eqn:Hrun;
    [| vm_compute in Hrun; discriminate].
  assert (Hs : workers s 1%nat = WErrorWaitResponse /\
               errorResponse_ (acb s) = None /\ mainPc s = MRunning).
  { vm_compute in Hrun. injection Hrun as <-. by vm_compute. }
  destruct Hs as (Hw & Hresp & Hpc).
  destruct (error_answer_reaches_poster unit translate_en s 1%nat PhaseCallback.retry None
              (ex_intro _ two_reporters Hrun) Hw Hresp Hpc)
    as (e & s1 & s2 & _ & Hs1 & _ & Hs2 & Hret & _).
  by exists s, s1, s2.
Defined.

(** ** Retry wrapper: runs seen from their result *)

(** The run after [n] retried failures, for any bound above [n]. *)
Lemma scripted_after_retries {X : Type} (s : Script X) (n fuel : nat) :
  (forall k, (k < n)%nat -> retriedAt s k) ->
  (n < fuel)%nat ->
  tryReportingError_scripted s fuel
  = match cmdScript s n with
    | CmdReturned => Some (Returned EmptyString, MkEnv (S n) n (errorsUpTo s n))
    | CmdThrew x => Some (Threw x, MkEnv (S n) n (errorsUpTo s n))
    | CmdFileError e =>
        match cbScript s n (errorInfoAt s n) with
        | CbResponse PhaseCallback.ignore =>
            Some (Returned e, MkEnv (S n) (S n) (errorsUpTo s (S n)))
        | CbResponse PhaseCallback.retry =>
            tryReportingError_from (scripted_cmd s) (scripted_now s) (scripted_reportError s)
              (fuel - S n) (size_t (Z.of_nat (S n)))
              (MkEnv (S n) (S n) (errorsUpTo s (S n)))
        | CbThrew x => Some (Threw x, MkEnv (S n) (S n) (errorsUpTo s (S n)))
        end
    end.
Proof.
  intros Hretried Hfuel.
  replace fuel with (n + S (fuel - S n))%nat at 1 by lia.
  rewrite scripted_retries by done. rewrite !errorsUpTo_S.
  destruct (cmdScript s n) as [|e|x] eqn:Hcmd.
  - rewrite tryReportingError_from_step. cbn. by rewrite Hcmd.
  - destruct (cbScript s n (errorInfoAt s n)) as [[|]|x] eqn:Hcb.
    + rewrite tryReportingError_from_step. cbn. rewrite Hcmd, errorsUpTo_length. cbn.
      replace (PhaseCallback.MkErrorInfo e (clockScript s n) (size_t (Z.of_nat n)))
        with (errorInfoAt s n) by (unfold errorInfoAt; by rewrite Hcmd).
      by rewrite Hcb.
    + rewrite <- errorsUpTo_S. apply scripted_retry_step. split; [by exists e | done].
    + rewrite tryReportingError_from_step. cbn. rewrite Hcmd, errorsUpTo_length. cbn.
      replace (PhaseCallback.MkErrorInfo e (clockScript s n) (size_t (Z.of_nat n)))
        with (errorInfoAt s n) by (unfold errorInfoAt; by rewrite Hcmd).
      by rewrite Hcb.
  - rewrite tryReportingError_from_step. cbn. by rewrite Hcmd.
Qed.

(** X12.  The loop of [tryReportingError] has no bound of its own.  While
    the command fails and the callback answers [retry], the loop goes on:
    after [n] such rounds no bound of [n] iterations or fewer lets it
    end.  A command that always fails under a callback that always
    answers [retry] never returns. *)
Theorem tryReportingError_runs_every_retry :
  forall (X : Type) (s : Script X) (n fuel : nat),
    (forall k, (k < n)%nat -> retriedAt s k) ->
    (fuel <= n)%nat ->
    tryReportingError_scripted s fuel = None /\
    ((forall k, retriedAt s k) -> forall fuel', tryReportingError_scripted s fuel' = None).
Proof.
  intros X s n fuel Hretried Hfuel.
  assert (Hnone : forall m, (forall k, (k < m)%nat -> retriedAt s k) ->
                            tryReportingError_scripted s m = None).
  { intros m Hm. replace m with (m + 0)%nat at 1 by lia. by rewrite scripted_retries. }
  split.
  - apply Hnone. intros k Hk. apply Hretried. lia.
  - intros Hall fuel'. apply Hnone. intros k _. apply Hall.
Qed.

Lemma tryReportingError_runs_every_retry_witness :
  tryReportingError_scripted script_S2 2 = None.
Proof.
  refine (proj1 (tryReportingError_runs_every_retry string script_S2 2 2 _ _)); [| lia].
  intros k Hk. split; [| reflexivity].
  exists "X". destruct k as [|[|k]]; [reflexivity | reflexivity | lia].
Defined.

(** X13.  What a result of [tryReportingError] means.  Every run that
    ends went through some number [n] of failures answered [retry] and
    ended at the call of the command after them; the result does not
    depend on the bound.  If the command returned, the result is the
    empty string; if it threw something else, that propagates; in both
    cases the callback heard of the [n] retried errors only.  Otherwise
    the command failed once more, the callback was asked about that error
    too, and either it answered [ignore] and the result is the message of
    that last error, or it threw and its exception propagates. *)
Theorem tryReportingError_result_meaning :
  forall (X : Type) (s : Script X) (fuel : nat) (o : TryOutcome X) (w : Env),
    tryReportingError_scripted s fuel = Some (o, w) ->
    exists n : nat,
      (n < fuel)%nat /\ cmdCalls w = S n /\
      (forall k, (k < n)%nat -> retriedAt s k) /\
      (forall fuel', (n < fuel')%nat -> tryReportingError_scripted s fuel' = Some (o, w)) /\
      match cmdScript s n with
      | CmdReturned =>
          o = Returned EmptyString /\ errorsReported w = errorsUpTo s n
      | CmdThrew x =>
          o = Threw x /\ errorsReported w = errorsUpTo s n
      | CmdFileError e =>
          errorsReported w = errorsUpTo s n ++ [errorInfoAt s n] /\
          PhaseCallback.msg (errorInfoAt s n) = e /\
          match cbScript s n (errorInfoAt s n) with
          | CbResponse PhaseCallback.ignore => o = Returned e
          | CbResponse PhaseCallback.retry => False
          | CbThrew x => o = Threw x
          end
      end.
Proof.
  intros X s fuel o w Hrun.
  destruct (scripted_run_shape s fuel 0 o w) as (n & Hn & Hretried & Hnot & Hcalls);
    [intros k Hk; lia | exact Hrun |].
  exists n. split; [lia |]. split; [done |]. split; [done |].
  assert (Hfinal : forall fuel', (n < fuel')%nat ->
            tryReportingError_scripted s fuel'
            = match cmdScript s n with
              | CmdReturned => Some (Returned EmptyString, MkEnv (S n) n (errorsUpTo s n))
              | CmdThrew x => Some (Threw x, MkEnv (S n) n (errorsUpTo s n))
              | CmdFileError e =>
                  match cbScript s n (errorInfoAt s n) with
                  | CbResponse PhaseCallback.ignore =>
                      Some (Returned e, MkEnv (S n) (S n) (errorsUpTo s (S n)))
                  | CbResponse PhaseCallback.retry => None
                  | CbThrew x => Some (Threw x, MkEnv (S n) (S n) (errorsUpTo s (S n)))
                  end
              end).
  { intros fuel' Hfuel'. rewrite (scripted_after_retries s n fuel' Hretried Hfuel').
    destruct (cmdScript s n) as [|e|x] eqn:Hcmd; try done.
    destruct (cbScript s n (errorInfoAt s n)) as [[|]|x] eqn:Hcb; try done.
    exfalso. apply Hnot. split; [by exists e | done]. }
  split.
  - intros fuel' Hfuel'. rewrite Hfinal by done. rewrite <- Hrun. symmetry.
    apply Hfinal. lia.
  - rewrite Hfinal in Hrun by lia.
    destruct (cmdScript s n) as [|e|x] eqn:Hcmd.
    + by injection Hrun as <- <-.
    + assert (Hmsg : PhaseCallback.msg (errorInfoAt s n) = e)
        by (unfold errorInfoAt; by rewrite Hcmd).
      destruct (cbScript s n (errorInfoAt s n)) as [[|]|x]; try done;
        injection Hrun as <- <-; by rewrite <- errorsUpTo_S.
    + by injection Hrun as <- <-.
Qed.

Lemma tryReportingError_result_meaning_witness :
  exists n : nat,
    (n < 5)%nat /\ cmdScript script_S3 n = CmdFileError "X" /\
    cbScript script_S3 n (errorInfoAt script_S3 n) = CbResponse PhaseCallback.ignore.
Proof.
  destruct (tryReportingError_result_meaning string script_S3 5 (Returned "X")
              (MkEnv 1 1 [PhaseCallback.MkErrorInfo "X" 1000 0]))
    as (n & Hn & Hcalls & _).
  - vm_compute. reflexivity.
  - cbn in Hcalls. injection Hcalls as <-. exists 0%nat.
    split; [lia |]. split; reflexivity.
Defined.

(** ** Mass-parallel executor: grouping by device *)

Lemma concat_Permutation {A : Type} (ls1 ls2 : list (list A)) :
  ls1 ≡ₚ ls2 -> concat ls1 ≡ₚ concat ls2.
Proof.
  induction 1 as [|l ls1 ls2 _ IH|l1 l2 ls|ls1 ls2 ls3 _ IH1 _ IH2]; simpl.
  - done.
  - by rewrite IH.
  - rewrite !app_assoc. by rewrite (Permutation_app_comm l2 l1).
  - by rewrite IH1.
Qed.

Section MassParallelGroupingFacts.
Context {AfsDevice : Type} `{Countable AfsDevice}.
Context {AfsPath ParallelWorkItem : Type}.

Local Abbreviation Item := (@AbstractPath AfsDevice AfsPath * ParallelWorkItem)%type.

Lemma perDeviceWorkload_snoc (workload : list Item) (item : Item) :
  perDeviceWorkload (workload ++ [item])
  = <[afsDevice item.1 :=
        default [] (perDeviceWorkload workload !! afsDevice item.1) ++ [item]]>
      (perDeviceWorkload workload).
Proof. unfold perDeviceWorkload. by rewrite fold_left_app. Qed.

Lemma perDeviceWorkload_lookup (workload : list Item) (d : AfsDevice) :
  perDeviceWorkload workload !! d
  = match itemsOnDevice d workload with
    | [] => None
    | items => Some items
    end.
Proof.
  induction workload as [|item workload IH] using rev_ind; [done |].
  rewrite perDeviceWorkload_snoc. unfold itemsOnDevice in *. rewrite filter_app.
  destruct (decide (afsDevice item.1 = d)) as [<- | Hne].
  - rewrite lookup_insert_eq, IH, (filter_cons_True _ item) by done.
    rewrite filter_nil.
    destruct (filter _ workload) as [|i0 items]; by cbn.
  - rewrite lookup_insert_ne, IH, (filter_cons_False _ item) by done.
    by rewrite filter_nil, app_nil_r.
Qed.

Lemma perDeviceWorkload_concat (workload : list Item) :
  concat ((map_to_list (perDeviceWorkload workload)).*2) ≡ₚ workload.
Proof.
  induction workload as [|item workload IH] using rev_ind.
  - unfold perDeviceWorkload. simpl. by rewrite map_to_list_empty.
  - rewrite perDeviceWorkload_snoc.
    set (m := perDeviceWorkload workload) in *. set (d := afsDevice item.1).
    destruct (m !! d) as [items|] eqn:Hd; cbn [default].
    + rewrite <- insert_delete_eq.
      rewrite (concat_Permutation _ _
                 (fmap_Permutation snd _ _
                    (map_to_list_insert (delete d m) d (items ++ [item])
                       (lookup_delete_eq m d)))).
      transitivity (concat (map_to_list m).*2 ++ [item]); [| by rewrite IH].
      rewrite <- (concat_Permutation _ _
                    (fmap_Permutation snd _ _ (map_to_list_delete m d items Hd))).
      cbn. rewrite <- !app_assoc. apply Permutation_app_head.
      apply Permutation_app_comm.
    + rewrite (concat_Permutation _ _
                 (fmap_Permutation snd _ _ (map_to_list_insert m d ([] ++ [item]) Hd))).
      cbn. rewrite IH. by rewrite Permutation_app_comm.
Qed.

Variable device_le : relation AfsDevice.
Context `{!RelDecision device_le}.

Lemma devicesInOrder_Permutation (m : gmap AfsDevice (list Item)) :
  devicesInOrder device_le m ≡ₚ map_to_list m.
Proof. apply merge_sort_Permutation. Qed.

(** The walk over the map goes up in the order of the keys. *)
Lemma devicesInOrder_sorted (m : gmap AfsDevice (list Item)) :
  Transitive device_le -> Total device_le ->
  StronglySorted (fun dw1 dw2 : AfsDevice * list Item => device_le dw1.1 dw2.1)
    (devicesInOrder device_le m).
Proof.
  intros Htrans Htotal. unfold devicesInOrder.
  apply @StronglySorted_merge_sort.
  - intros x y z Hxy Hyz. by transitivity y.1.
  - intros x y. apply Htotal.
Qed.

End MassParallelGroupingFacts.

Lemma StronglySorted_lookup_lt {A : Type} (R : relation A) (l : list A) (i j : nat) (x y : A) :
  StronglySorted R l -> l !! i = Some x -> l !! j = Some y -> (i < j)%nat -> R x y.
Proof.
  intros Hsorted. revert i j.
  induction Hsorted as [|a l _ IH Hall]; intros i j Hi Hj Hlt; [done |].
  destruct j as [|j]; [lia |]. destruct i as [|i]; simpl in *.
  - injection Hi as <-. by apply (proj1 (Forall_lookup _ _) Hall j).
  - apply (IH i j); [done | done | lia].
Qed.

(** X14.  Grouping the workload by device.  The list [perDeviceWorkload]
    holds for a device is the items of the workload on that device, all
    of them and in the order of the workload; a device is a key exactly
    if the workload has an item on it, so no key holds an empty list. *)
Theorem perDeviceWorkload_groups :
  forall (AfsDevice : Type) (EqD : EqDecision AfsDevice) (Cnt : Countable AfsDevice)
         (AfsPath ParallelWorkItem : Type)
         (workload : list (@AbstractPath AfsDevice AfsPath * ParallelWorkItem))
         (d : AfsDevice),
    (perDeviceWorkload workload !! d = None <-> itemsOnDevice d workload = []) /\
    (forall items, perDeviceWorkload workload !! d = Some items ->
                   items = itemsOnDevice d workload /\ items <> []) /\
    (forall item, item ∈ workload -> afsDevice item.1 = d ->
                  exists items, perDeviceWorkload workload !! d = Some items /\ item ∈ items).
Proof.
  intros AfsDevice EqD Cnt AfsPath ParallelWorkItem workload d.
  rewrite perDeviceWorkload_lookup.
  destruct (itemsOnDevice d workload) as [|i0 items0] eqn:Hitems.
  - split; [done |]. split; [done |]. intros item Hin Hd.
    assert (Hmem : item ∈ itemsOnDevice d workload)
      by (apply list_elem_of_filter; done).
    rewrite Hitems in Hmem. by apply elem_of_nil in Hmem.
  - split; [done |]. split.
    + intros items [= <-]. done.
    + intros item Hin Hd. eexists. split; [done |]. rewrite <- Hitems.
      by apply list_elem_of_filter.
Qed.

(** X15.  One thread group per device, in the order of the devices.  The
    plans [massParallelExecute] sets up have pairwise different devices
    and are as many as the map has keys; every device of the workload has
    its plan; the plan at position [i] has status priority [i], one
    thread, the group name followed by a blank and the device's display
    path, and as tasks the items of the workload on its device, in
    workload order and at least one; the tasks of all plans together are
    the workload, so every item is handed to exactly one thread group.
    The groups are created in the key order of the [std::map]: of two
    plans the one with the smaller device has the smaller status
    priority, so the least device gets priority 0. *)
Theorem threadGroupPlans_partition :
  forall (AfsDevice : Type) (EqD : EqDecision AfsDevice) (Cnt : Countable AfsDevice)
         (AfsPath ParallelWorkItem : Type)
         (device_le : relation AfsDevice) (DecLe : RelDecision device_le)
         (getDisplayPath : AfsDevice -> wstring) (threadGroupName : wstring)
         (workload : list (@AbstractPath AfsDevice AfsPath * ParallelWorkItem)),
    let plans := threadGroupPlans device_le getDisplayPath threadGroupName
                   (perDeviceWorkload workload) in
    NoDup (tgDevice <$> plans) /\
    length plans = size (perDeviceWorkload workload) /\
    (forall i p, plans !! i = Some p ->
       tgStatusPrio p = i /\ tgThreadCount p = 1%nat /\
       tgName p = threadGroupName +:+ String " "%char (getDisplayPath (tgDevice p)) /\
       tgTasks p = itemsOnDevice (tgDevice p) workload /\
       tgTasks p <> []) /\
    concat (tgTasks <$> plans) ≡ₚ workload /\
    (forall item, item ∈ workload ->
       exists p, p ∈ plans /\ tgDevice p = afsDevice item.1) /\
    (Transitive device_le -> AntiSymm eq device_le -> Total device_le ->
     forall p q, p ∈ plans -> q ∈ plans ->
       ((tgStatusPrio p < tgStatusPrio q)%nat
        <-> device_le (tgDevice p) (tgDevice q) /\ tgDevice p <> tgDevice q)).
Proof.
  intros AfsDevice EqD Cnt AfsPath ParallelWorkItem device_le DecLe getDisplayPath
    threadGroupName workload plans.
  subst plans. unfold threadGroupPlans.
  set (m := perDeviceWorkload workload).
  set (mk := fun (statusPrio : nat)
                 (dw : AfsDevice * list (@AbstractPath AfsDevice AfsPath * ParallelWorkItem)) =>
               MkThreadGroupPlan dw.1
                 (threadGroupName +:+ String " "%char (getDisplayPath dw.1))
                 1 statusPrio dw.2).
  pose proof (devicesInOrder_Permutation device_le m) as Hperm.
  assert (Hdevices : tgDevice <$> imap mk (devicesInOrder device_le m)
                     = (devicesInOrder device_le m).*1).
  { rewrite fmap_imap. rewrite (imap_ext _ (const fst)) by done. apply (imap_const fst). }
  assert (Hnodup : NoDup (devicesInOrder device_le m).*1).
  { rewrite Hperm. apply NoDup_fst_map_to_list. }
  assert (Hplan : forall i p, imap mk (devicesInOrder device_le m) !! i = Some p ->
            exists d items, devicesInOrder device_le m !! i = Some (d, items) /\
                            p = mk i (d, items) /\ m !! d = Some items).
  { intros i p Hp. rewrite list_lookup_imap in Hp.
    destruct (devicesInOrder device_le m !! i) as [[d items]|] eqn:Hi; [| done].
    injection Hp as <-. exists d, items. split; [done |]. split; [done |].
    apply list_elem_of_lookup_2 in Hi. rewrite Hperm in Hi.
    by apply elem_of_map_to_list in Hi. }
  refine (conj _ (conj _ (conj _ (conj _ (conj _ _))))).
  - by rewrite Hdevices.
  - by rewrite length_imap, Hperm, length_map_to_list.
  - intros i p Hp. destruct (Hplan i p Hp) as (d & items & _ & -> & Hd). cbn.
    subst m. rewrite perDeviceWorkload_lookup in Hd.
    destruct (itemsOnDevice d workload); [done |]. by injection Hd as <-.
  - rewrite fmap_imap. rewrite (imap_ext _ (const snd)) by done.
    rewrite (imap_const snd), Hperm. apply perDeviceWorkload_concat.
  - intros item Hitem.
    assert (Hin : afsDevice item.1 ∈ tgDevice <$> imap mk (devicesInOrder device_le m)).
    { rewrite Hdevices, Hperm.
      destruct (m !! afsDevice item.1) as [items|] eqn:Hd.
      - apply list_elem_of_fmap. exists (afsDevice item.1, items).
        split; [done |]. by apply elem_of_map_to_list.
      - subst m. rewrite perDeviceWorkload_lookup in Hd.
        assert (Hmem : item ∈ itemsOnDevice (afsDevice item.1) workload)
          by (by apply list_elem_of_filter).
        destruct (itemsOnDevice (afsDevice item.1) workload); [| done].
        by apply elem_of_nil in Hmem. }
    apply list_elem_of_fmap in Hin as (p & Hp & Hin). by exists p.
  - intros Htrans Hanti Htotal p q Hp Hq.
    apply list_elem_of_lookup in Hp as [i Hi]. apply list_elem_of_lookup in Hq as [j Hj].
    destruct (Hplan i p Hi) as (dp & ip & Hip & -> & _).
    destruct (Hplan j q Hj) as (dq & iq & Hjq & -> & _). cbn.
    pose proof (devicesInOrder_sorted device_le m _ Htotal) as Hsorted.
    assert (Hne : forall i j dp ip dq iq,
              devicesInOrder device_le m !! i = Some (dp, ip) ->
              devicesInOrder device_le m !! j = Some (dq, iq) ->
              i <> j -> dp <> dq).
    { intros i' j' dp' ip' dq' iq' Hi' Hj' Hij Heq. apply Hij.
      apply (NoDup_lookup _ _ _ dp' Hnodup); rewrite list_lookup_fmap.
      - by rewrite Hi'.
      - rewrite Hj'. cbn. by rewrite Heq. }
    split.
    + intros Hlt. split.
      * apply (StronglySorted_lookup_lt _ _ i j (dp, ip) (dq, iq) Hsorted Hip Hjq Hlt).
      * apply (Hne i j dp ip dq iq Hip Hjq). lia.
    + intros [Hle Hdiff].
      destruct (decide (i < j)%nat) as [Hlt | Hge]; [done |]. exfalso.
      destruct (decide (i = j)) as [-> | Hij].
      * rewrite Hip in Hjq. by injection Hjq as <- _.
      * apply Hdiff. apply (Hanti dp dq); [done |].
        apply (StronglySorted_lookup_lt _ _ j i (dq, iq) (dp, ip) Hsorted Hjq Hip). lia.
Qed.

Lemma perDeviceWorkload_groups_witness :
  perDeviceWorkload workload_two_devices !! 7%nat
  = Some [(MkAbstractPath 7%nat "a", tt); (MkAbstractPath 7%nat "b", tt)].
Proof.
  destruct (perDeviceWorkload_groups nat _ _ wstring unit workload_two_devices 7%nat)
    as (Hnone & Hsome & _).
  destruct (perDeviceWorkload workload_two_devices !! 7%nat) as [items|] eqn:Hd.
  - destruct (Hsome items eq_refl) as [-> _]. reflexivity.
  - destruct Hnone as [Hnone _]. specialize (Hnone eq_refl). discriminate.
Defined.

(** Devices 7 and 9: the group of device 7 is created first and gets
    status priority 0, whatever the order of the workload. *)
Lemma threadGroupPlans_partition_witness :
  let plans := threadGroupPlans Nat.le (fun _ : nat => "dev") "Sync"
                 (perDeviceWorkload workload_two_devices) in
  (tgDevice <$> plans) = [7%nat; 9%nat] /\
  (forall p q, p ∈ plans -> q ∈ plans -> tgDevice p = 7%nat -> tgDevice q = 9%nat ->
               (tgStatusPrio p < tgStatusPrio q)%nat).
Proof.
  cbn zeta. split; [by vm_compute |].
  destruct (threadGroupPlans_partition nat _ _ wstring unit Nat.le _ (fun _ => "dev") "Sync"
              workload_two_devices) as (_ & _ & _ & _ & _ & Horder).
  intros p q Hp Hq Hdp Hdq.
  apply (Horder _ _ _ p q Hp Hq). rewrite Hdp, Hdq. split; [lia | lia].
Defined.

(** ** ItemStatReporter: processed stays within total *)

(** X16.  The special rule of [reportDelta].  On a callback that adds up
    what it is given, and as long as the reporter's sums stay within
    their types, one [reportDelta] lowers the work left to do, total
    minus processed, by exactly the progress of the accumulators towards
    the expected amounts: what is reported above the expected amount is
    added to processed and total alike.  So if the part of the item not
    reported yet was covered by the total before the call, it is covered
    after it, and processed does not overtake total, not even between
    this call and the correction at scope exit. *)
Theorem reportDelta_keeps_processed_within_total :
  forall (r : ItemStatReporter) (i b : Z) (log : PhaseCallback.Log),
    is_int32 (itemsReported_ r + i) ->
    is_int64 (bytesReported_ r + b) ->
    is_int32 (itemsReported_ r + i - itemsExpected_ r) ->
    is_int64 (bytesReported_ r + b - bytesExpected_ r) ->
    let r' := (reportDelta i b r log).1 in
    let log' := (reportDelta i b r log).2 in
    let leftBefore := ((forwardedTotal log).1 - (forwardedProcessed log).1,
                       (forwardedTotal log).2 - (forwardedProcessed log).2) in
    let leftAfter := ((forwardedTotal log').1 - (forwardedProcessed log').1,
                      (forwardedTotal log').2 - (forwardedProcessed log').2) in
    leftAfter.1 = leftBefore.1 - (itemsReported_ r' - itemsReported_ r) /\
    leftAfter.2 = leftBefore.2 - (bytesReported_ r' - bytesReported_ r) /\
    (itemsExpected_ r - itemsReported_ r <= leftBefore.1 ->
     itemsExpected_ r' - itemsReported_ r' <= leftAfter.1 /\ 0 <= leftAfter.1) /\
    (bytesExpected_ r - bytesReported_ r <= leftBefore.2 ->
     bytesExpected_ r' - bytesReported_ r' <= leftAfter.2 /\ 0 <= leftAfter.2).
Proof.
  intros r i b log Hi Hb Hie Hbe r' log' leftBefore leftAfter.
  subst r' log' leftBefore leftAfter.
  rewrite reportDelta_reporter, reportDelta_calls.
  rewrite !forwardedProcessed_app, !forwardedTotal_app.
  rewrite (int32_id _ Hi), (int64_id _ Hb).
  destruct (Z.ltb_spec (itemsExpected_ r) (itemsReported_ r + i)) as [Hlti | Hlei],
           (Z.ltb_spec (bytesExpected_ r) (bytesReported_ r + b)) as [Hltb | Hleb];
    rewrite ?(int32_id _ Hie), ?(int64_id _ Hbe); cbn; lia.
Qed.

Lemma reportDelta_keeps_processed_within_total_witness :
  let log := [PhaseCallback.UpdateDataTotal 1 100] in
  let log' := (reportDelta 1 120 (ItemStatReporter_new 1 100 0) log).2 in
  0 <= (forwardedTotal log').1 - (forwardedProcessed log').1 /\
  0 <= (forwardedTotal log').2 - (forwardedProcessed log').2.
Proof.
  cbn zeta.
  destruct (reportDelta_keeps_processed_within_total (ItemStatReporter_new 1 100 0) 1 120
              [PhaseCallback.UpdateDataTotal 1 100]
              ltac:(by vm_compute) ltac:(by vm_compute)
              ltac:(by vm_compute) ltac:(by vm_compute))
    as (_ & _ & Hitems & Hbytes).
  cbn zeta in Hitems, Hbytes.
  split; [apply Hitems | apply Hbytes]; vm_compute; discriminate.
Defined.

(** ** The countdown to [notifyAllDone] *)



(** ** PercentStatReporter: what a call does besides the latch *)

(** X18.  Throttling of the percent text.  Every
    [updateStatus(itemsDelta, bytesDelta)] passes the deltas on through
    [reportDelta], due or not.  The prefix never changes; [lastUpdate_]
    moves to [now] exactly at a due call; [startTime_] is set once, at a
    due call, and kept from then on.  The callback's [updateStatus] is
    called only at a due call with percent shown afterwards, with a text
    that starts with the prefix; at any other call the callback gets the
    statistics only and nothing is thrown. *)
Theorem percent_text_is_throttled :
  forall (X Callback double SpeedTest : Type)
         (StatCb : StatCallback Callback) (StatusCb : StatusCallback X Callback)
         (Dbl : DoubleOps double) (Speed : SpeedTestOps double SpeedTest)
         (UI_UPDATE_INTERVAL : Z) (formatPercent : double -> double -> Z -> wstring)
         (now itemsDelta bytesDelta : Z)
         (psr : PercentStatReporter SpeedTest) (cb : Callback),
    let result := PercentStatReporter_updateStatus UI_UPDATE_INTERVAL formatPercent
                    now itemsDelta bytesDelta psr cb in
    let psr' := result.1.1 in
    let due := int64 (lastUpdate_ psr + Z.quot UI_UPDATE_INTERVAL 2 * NS_PER_MS) <=? now in
    let counted := reportDelta itemsDelta bytesDelta (statReporter_ psr) cb in
    statReporter_ psr' = counted.1 /\
    msgPrefix_ psr' = msgPrefix_ psr /\
    lastUpdate_ psr' = (if due then now else lastUpdate_ psr) /\
    (startTime_ psr <> 0 -> startTime_ psr' = startTime_ psr) /\
    (startTime_ psr' <> startTime_ psr ->
     startTime_ psr' = now /\ due = true /\ showPercent_ psr' = false) /\
    (due = false -> showPercent_ psr' = showPercent_ psr /\
                    speedTest_ psr' = speedTest_ psr /\ startTime_ psr' = startTime_ psr) /\
    (due && showPercent_ psr' = false -> result.1.2 = counted.2 /\ result.2 = None) /\
    (due && showPercent_ psr' = true ->
     exists percent : wstring,
       (result.1.2, result.2)
       = updateStatus (msgPrefix_ psr +:+ percent) counted.2).
Proof.
  intros. subst result psr' due counted.
  unfold PercentStatReporter_updateStatus, ItemStatReporter_updateStatus.
  destruct (reportDelta itemsDelta bytesDelta (statReporter_ psr) cb) as [sr cb1].
  cbn [fst snd].
  destruct (int64 (lastUpdate_ psr + Z.quot UI_UPDATE_INTERVAL 2 * NS_PER_MS) <=? now);
    [| cbn; by repeat split].
  destruct (showPercent_ psr) eqn:Hshow; cbn [negb andb].
  - destruct (updateStatus _ cb1) as [cb2 thrown] eqn:Hcb. cbn.
    repeat split; try done. intros _. eexists. by rewrite Hcb.
  - destruct (0 <? getBytesReported sr); cbn [andb]; [| cbn; by repeat split].
    destruct (Z.eqb_spec (startTime_ psr) 0) as [Hstart | Hstart].
    + cbn. by repeat split.
    + destruct (STATUS_PERCENT_DELAY <=? int64 (now - startTime_ psr));
        [| cbn; by repeat split].
      destruct (getRemainingSec _ _ _) as [remSecs|]; [| cbn; by repeat split].
      destruct (double_ltb _ remSecs); [| cbn; by repeat split].
      destruct (updateStatus _ cb1) as [cb2 thrown] eqn:Hcb. cbn.
      repeat split; try done. intros _. eexists. by rewrite Hcb.
Qed.

(** The stalling copy: the first report is due but shows no percent, so
    the callback gets the statistics only. *)
Lemma percent_text_is_throttled_witness :
  (PercentStatReporter_updateStatus (X := unit) 100 (fun _ _ _ => "%")
     (5 * NS_PER_SEC) 0 900 stalling_copy_start ([] : PhaseCallback.Log)).1.2
  = [PhaseCallback.UpdateDataProcessed 0 900].
Proof.
  destruct (percent_text_is_throttled unit PhaseCallback.Log Q WindowSpeedTest _ _ _ _
              100 (fun _ _ _ => "%") (5 * NS_PER_SEC) 0 900 stalling_copy_start [])
    as (_ & _ & _ & _ & _ & _ & Hquiet & _).
  destruct (Hquiet ltac:(by vm_compute)) as [-> _]. by vm_compute.
Defined.

(** ** ItemStatReporter on the phase callback and through the AsyncCallback *)

(** One [reportDelta] on the recording callback, in sums. *)
Lemma reportDelta_log i b r (log : PhaseCallback.Log) :
  let r' := (reportDelta i b r log).1 in
  let log' := (reportDelta i b r log).2 in
  (itemsExpected_ r' = itemsExpected_ r /\ bytesExpected_ r' = bytesExpected_ r /\
   exeptionCount_ r' = exeptionCount_ r) /\
  forwardedProcessed log'
  = ((forwardedProcessed log).1 + i, (forwardedProcessed log).2 + b) /\
  int32 ((forwardedTotal log').1 + itemsReported_ r')
  = int32 ((forwardedTotal log).1 + itemsReported_ r + i) /\
  int64 ((forwardedTotal log').2 + bytesReported_ r')
  = int64 ((forwardedTotal log).2 + bytesReported_ r + b).
Proof.
  cbn zeta. unfold reportDelta.
  destruct (itemsExpected_ r <? int32 (itemsReported_ r + i)),
           (bytesExpected_ r <? int64 (bytesReported_ r + b));
    cbn; rewrite !forwardedProcessed_app, !forwardedTotal_app; cbn;
    rewrite ?Z.add_0_r;
    (split; [done |]); (split; [done |]); wrap_solve.
Qed.

Lemma reportDeltas_log deltas r (log : PhaseCallback.Log) :
  let r' := (reportDeltas deltas r log).1 in
  let log' := (reportDeltas deltas r log).2 in
  (itemsExpected_ r' = itemsExpected_ r /\ bytesExpected_ r' = bytesExpected_ r /\
   exeptionCount_ r' = exeptionCount_ r) /\
  forwardedProcessed log'
  = ((forwardedProcessed log).1 + (reportedSum deltas).1,
     (forwardedProcessed log).2 + (reportedSum deltas).2) /\
  int32 ((forwardedTotal log').1 + itemsReported_ r')
  = int32 ((forwardedTotal log).1 + itemsReported_ r + (reportedSum deltas).1) /\
  int64 ((forwardedTotal log').2 + bytesReported_ r')
  = int64 ((forwardedTotal log).2 + bytesReported_ r + (reportedSum deltas).2).
Proof.
  revert r log. induction deltas as [|[i b] deltas IH]; intros r log; cbn zeta.
  - cbn. rewrite !Z.add_0_r. by destruct (forwardedProcessed log).
  - cbn [reportDeltas reportedSum fst snd].
    pose proof (reportDelta_log i b r log) as Hstep.
    destruct (reportDelta i b r log) as [r1 log1]. cbn [fst snd] in Hstep.
    destruct Hstep as ((E1 & E2 & E3) & P1 & T1 & T2).
    specialize (IH r1 log1). cbn zeta in IH.
    destruct (reportDeltas deltas r1 log1) as [r2 log2]. cbn [fst snd] in IH |- *.
    destruct IH as ((F1 & F2 & F3) & Q1 & U1 & U2).
    split; [by rewrite F1, F2, F3 |]. split.
    + rewrite Q1, P1. cbn. f_equal; lia.
    + rewrite U1, U2. split.
      * transitivity (int32 (int32 ((forwardedTotal log1).1 + itemsReported_ r1)
                             + (reportedSum deltas).1)); [wrap_solve |].
        rewrite T1. wrap_solve.
      * transitivity (int64 (int64 ((forwardedTotal log1).2 + bytesReported_ r1)
                             + (reportedSum deltas).2)); [wrap_solve |].
        rewrite T2. wrap_solve.
Qed.

Lemma itemScope_log ie be deltas exc0 exc1 (log : PhaseCallback.Log) :
  let log' := itemScope ie be deltas exc0 exc1 log in
  let reported := reportedSum deltas in
  forwardedProcessed log'
  = ((forwardedProcessed log).1 + reported.1, (forwardedProcessed log).2 + reported.2) /\
  int32 (forwardedTotal log').1
  = int32 ((forwardedTotal log).1 + (if exc0 <? exc1 then reported.1 else reported.1 - ie)) /\
  int64 (forwardedTotal log').2
  = int64 ((forwardedTotal log).2 + (if exc0 <? exc1 then reported.2 else reported.2 - be)).
Proof.
  cbn zeta. unfold itemScope.
  pose proof (reportDeltas_log deltas (ItemStatReporter_new ie be exc0) log) as Hrun.
  destruct (reportDeltas deltas (ItemStatReporter_new ie be exc0) log) as [r log1].
  cbn [fst snd] in Hrun. destruct Hrun as ((E1 & E2 & E3) & P1 & T1 & T2).
  cbn in E1, E2, E3, T1, T2. rewrite Z.add_0_r in T1, T2.
  unfold ItemStatReporter_destroy. rewrite E1, E2, E3.
  destruct (exc0 <? exc1); cbn;
    rewrite forwardedProcessed_app, forwardedTotal_app, P1; cbn;
    rewrite !Z.add_0_r; (split; [done |]).
  - by rewrite T1, T2.
  - split.
    + transitivity (int32 (int32 ((forwardedTotal log1).1 + itemsReported_ r) - ie));
        [wrap_solve |]. rewrite T1. wrap_solve.
    + transitivity (int64 (int64 ((forwardedTotal log1).2 + bytesReported_ r) - be));
        [wrap_solve |]. rewrite T2. wrap_solve.
Qed.

(** X19.  The AsyncCallback is transparent for statistics.  A work item
    reported through an [ItemStatReporter] on a fresh [AsyncCallback] and
    then drained by [reportStats] hands the phase callback, per counter
    and in the counter's arithmetic, the same amounts as the same item
    reported through an [ItemStatReporter] on the phase callback itself:
    the worker's many calls arrive as at most two, one for processed and
    one for total, and the AsyncCallback is left with all counters at
    zero. *)
Theorem statistics_same_through_AsyncCallback :
  forall (ie be : Z) (deltas : list (Z * Z)) (exc0 exc1 : Z),
    let direct := itemScope ie be deltas exc0 exc1 ([] : PhaseCallback.Log) in
    let drained := reportStats ([] : PhaseCallback.Log)
                     (itemScope ie be deltas exc0 exc1 AsyncCallback_new) in
    forwardedProcessed drained.2
    = (int32 (forwardedProcessed direct).1, int64 (forwardedProcessed direct).2) /\
    forwardedTotal drained.2
    = (int32 (forwardedTotal direct).1, int64 (forwardedTotal direct).2) /\
    (length drained.2 <= 2)%nat /\
    (itemsDeltaProcessed_ drained.1 = 0 /\ bytesDeltaProcessed_ drained.1 = 0 /\
     itemsDeltaTotal_ drained.1 = 0 /\ bytesDeltaTotal_ drained.1 = 0).
Proof.
  intros ie be deltas exc0 exc1 direct drained. subst direct drained.
  destruct (itemScope_async ie be deltas exc0 exc1 AsyncCallback_new
              AsyncCallback_new_in_range) as (P1 & P2 & T1 & T2).
  destruct (itemScope_log ie be deltas exc0 exc1 []) as (Q & U1 & U2).
  cbn zeta in *. rewrite reportStats_log. cbn [app].
  match goal with
  | |- context [drainedCalls _ ?ip ?bp ++ drainedCalls _ ?it ?bt] =>
      destruct (forwarded_drains ip bp it bt) as [-> ->]
  end.
  rewrite P1, P2, T1, T2, Q, U1, U2. cbn.
  refine (conj _ (conj _ (conj _ _))); [done | done | | apply reportStats_zero].
  rewrite length_app. unfold drainedCalls.
  repeat match goal with |- context [if ?c then _ else _] => destruct c end; cbn; lia.
Qed.

Lemma statistics_same_through_AsyncCallback_witness :
  let drained := reportStats ([] : PhaseCallback.Log)
                   (itemScope 1 100 [(0, 60); (1, 60)] 0 0 AsyncCallback_new) in
  forwardedProcessed drained.2 = (1, 120) /\ forwardedTotal drained.2 = (0, 20).
Proof.
  cbn zeta.
  destruct (statistics_same_through_AsyncCallback 1 100 [(0, 60); (1, 60)] 0 0)
    as (-> & -> & _).
  by vm_compute.
Defined.

(** The registry with three workers: worker 2 sets a new status text.  And
    three workers on one priority: worker 1 ends its task, the entry of
    worker 3 moves to the front with its text, that of worker 2 stays. *)
Lemma updateStatus_effect_witness :
  statusOf 2%nat
    (statusByPriority_ (AsyncCallback_updateStatus 2%nat false "Deleting b" registry_three).1)
  = Some "Deleting b".
Proof.
  destruct (updateStatus_effect 2%nat false "Deleting b" registry_three)
    as (_ & _ & Hregistered & _).
  apply Hregistered. apply list_elem_of_In. vm_compute. tauto.
Defined.

Lemma notifyTaskEnd_effect_witness :
  exists sbp',
    statusByPriority_ (notifyTaskEnd 1%nat registry_shared_bucket) !! 0%nat = Some sbp' /\
    sbp' !! 0%nat = Some (MkThreadStatus 3%nat "Copying c") /\
    sbp' !! 1%nat = Some (MkThreadStatus 2%nat "Copying b") /\
    length sbp' = 2%nat.
Proof.
  destruct (notifyTaskEnd_effect 1%nat registry_shared_bucket) as (_ & _ & _ & Hentry & _).
  destruct (Hentry 0%nat 0%nat eq_refl)
    as (sbp & ts & sbp' & Hsbp & _ & _ & Hafter & _ & Hlen & _ & Hkept & Hmoved).
  injection Hsbp as <-. exists sbp'. split; [exact Hafter |].
  split; [| split].
  - rewrite Hmoved; [reflexivity | simpl; lia].
  - rewrite Hkept; [reflexivity | simpl; lia | lia].
  - rewrite Hlen. reflexivity.
Defined.
